(** * page-scrapper: the change-detection and delivery pipeline of [index.js]

    A shallow embedding of [src/index.js] and the properties of its
    specification.  JavaScript strings are byte strings (the UTF-8 encoding
    of the text), numbers are mathematical integers next to [NaN], the
    [storage.posts] object is a finite map, and every call that leaves the
    process (browser, network, file system, chat client) takes its answer
    from an explicit environment record and leaves an event in a trace. *)

From Stdlib Require Import ZArith NArith Lia List Ascii String Bool.
From stdpp Require Import base option gmap strings list pretty.

Local Open Scope string_scope.
Local Open Scope list_scope.

(** ** Built-ins of the JavaScript platform used by the program *)

Module JS.

(** A completion is a normal value or a thrown exception. *)
Inductive error : Type :=
| URIError                    (* decodeURIComponent on a malformed escape *)
| InvalidURL                  (* new URL(...) on something that is no URL *)
| Failure (what : string).    (* any rejected promise or Error object *)

Inductive completion (A : Type) : Type :=
| Normal (a : A)
| Throw (e : error).
Arguments Normal {A} a.
Arguments Throw {A} e.

Definition cbind {A B} (c : completion A) (k : A -> completion B)
  : completion B :=
  match c with
  | Normal a => k a
  | Throw e => Throw e
  end.

(** Numbers: the program only multiplies and compares integers, and meets
    [NaN] when [parseInt] finds no digit. *)
Inductive number : Type :=
| NaN
| Num (z : Z).

Definition mul (a b : number) : number :=
  match a, b with
  | Num x, Num y => Num (x * y)
  | _, _ => NaN
  end.

(** [a > b]; every comparison with [NaN] is false. *)
Definition gt (a b : number) : bool :=
  match a, b with
  | Num x, Num y => (y <? x)%Z
  | _, _ => false
  end.

(** [s.startsWith(p)] *)
Fixpoint startsWith (s p : string) {struct p} : bool :=
  match p with
  | EmptyString => true
  | String a p' =>
      match s with
      | EmptyString => false
      | String b s' => if Ascii.eqb a b then startsWith s' p' else false
      end
  end.

(** [s.substring(n)] *)
Fixpoint substring_from (n : nat) (s : string) : string :=
  match n, s with
  | O, _ => s
  | S _, EmptyString => EmptyString
  | S n', String _ s' => substring_from n' s'
  end.

(** [s.split(sep)[0]]: what stands before the first [sep]. *)
Fixpoint split_head (sep : ascii) (s : string) : string :=
  match s with
  | EmptyString => EmptyString
  | String c s' =>
      if Ascii.eqb c sep then EmptyString else String c (split_head sep s')
  end.

(** What stands after the first [sep], when there is one. *)
Fixpoint split_rest (sep : ascii) (s : string) : option string :=
  match s with
  | EmptyString => None
  | String c s' => if Ascii.eqb c sep then Some s' else split_rest sep s'
  end.

(** Truthiness of a value that is [undefined]/[null] or a string. *)
Definition truthy (v : option string) : bool :=
  match v with
  | Some (String _ _) => true
  | _ => false
  end.

(** [a || b] on such values. *)
Definition or_else (a b : option string) : option string :=
  if truthy a then a else b.

Definition between (lo hi n : N) : bool := ((lo <=? n) && (n <=? hi))%N.

Definition digit_val (c : ascii) : option Z :=
  let n := N_of_ascii c in
  if between 48 57 n then Some (Z.of_N n - 48)%Z else None.

Definition hex_val (c : ascii) : option Z :=
  let n := N_of_ascii c in
  if between 48 57 n then Some (Z.of_N n - 48)%Z
  else if between 97 102 n then Some (Z.of_N n - 87)%Z
  else if between 65 70 n then Some (Z.of_N n - 55)%Z
  else None.

(** The longest run of digits of the radix, read from the left; [acc] is
    [None] as long as no digit was seen. *)
Fixpoint read_digits (dv : ascii -> option Z) (radix : Z)
    (acc : option Z) (s : string) : option Z :=
  match s with
  | EmptyString => acc
  | String c s' =>
      match dv c with
      | Some d =>
          read_digits dv radix
            (Some (radix * match acc with Some a => a | None => 0 end + d)%Z)
            s'
      | None => acc
      end
  end.

Definition is_ascii_space (c : ascii) : bool :=
  let n := N_of_ascii c in between 9 13 n || (n =? 32)%N.

Fixpoint skip_space (s : string) : string :=
  match s with
  | String c s' => if is_ascii_space c then skip_space s' else s
  | EmptyString => s
  end.

(** [parseInt(s)] with no radix: leading white space, a sign, [0x] for
    hexadecimal, then the longest digit prefix; [NaN] without a digit.
    The value is the exact integer: the program only compares it with 2048
    and multiplies it by 60000, which the rounding of large values to a
    double leaves as they are below 2^53.  Of the white space only the
    ASCII part is skipped. *)
Definition parseInt (s : string) : number :=
  let s1 := skip_space s in
  let '(neg, s2) :=
    match s1 with
    | String c r =>
        if Ascii.eqb c "-" then (true, r)
        else if Ascii.eqb c "+" then (false, r)
        else (false, s1)
    | EmptyString => (false, s1)
    end in
  let '(dv, radix, s3) :=
    if startsWith s2 "0x" || startsWith s2 "0X"
    then (hex_val, 16%Z, substring_from 2 s2)
    else (digit_val, 10%Z, s2) in
  match read_digits dv radix None s3 with
  | None => NaN
  | Some v => Num (if neg then (- v)%Z else v)
  end.

(** *** [decodeURIComponent] *)

Definition hex_byte (h1 h2 : ascii) : option N :=
  match hex_val h1, hex_val h2 with
  | Some a, Some b => Some (Z.to_N (16 * a + b))
  | _, _ => None
  end.

(** Number of octets announced by the first octet of a UTF-8 sequence. *)
Definition lead_len (b : N) : option nat :=
  if between 192 223 b then Some 2%nat
  else if between 224 239 b then Some 3%nat
  else if between 240 247 b then Some 4%nat
  else None.

Definition cont (b : N) : bool := between 128 191 b.

(** The well-formed UTF-8 sequences of two to four octets. *)
Definition utf8_ok (bs : list N) : bool :=
  match bs with
  | [a; b] => between 194 223 a && cont b
  | [a; b; c] =>
      ((a =? 224)%N && between 160 191 b
       || between 225 236 a && cont b
       || (a =? 237)%N && between 128 159 b
       || between 238 239 a && cont b) && cont c
  | [a; b; c; d] =>
      ((a =? 240)%N && between 144 191 b
       || between 241 243 a && cont b
       || (a =? 244)%N && between 128 143 b) && cont c && cont d
  | _ => false
  end.

Fixpoint bytes_app (bs : list N) (s : string) : string :=
  match bs with
  | [] => s
  | b :: bs' => String (ascii_of_N b) (bytes_app bs' s)
  end.

(** [decode_go k acc s]: [k] escapes are still owed to the sequence whose
    octets so far are [acc]; [None] is the URIError. *)
Fixpoint decode_go (k : nat) (acc : list N) (s : string) : option string :=
  match s with
  | EmptyString => match k with O => Some EmptyString | S _ => None end
  | String c r =>
      if Ascii.eqb c "%" then
        match r with
        | String h1 (String h2 r') =>
            match hex_byte h1 h2 with
            | None => None
            | Some b =>
                match k with
                | O =>
                    if (b <? 128)%N
                    then String (ascii_of_N b) <$> decode_go O [] r'
                    else match lead_len b with
                         | Some n => decode_go (Nat.pred n) [b] r'
                         | None => None
                         end
                | S O =>
                    if utf8_ok (acc ++ [b])
                    then bytes_app (acc ++ [b]) <$> decode_go O [] r'
                    else None
                | S k' => decode_go k' (acc ++ [b]) r'
                end
            end
        | _ => None
        end
      else
        match k with
        | O => String c <$> decode_go O [] r
        | S _ => None
        end
  end.

Definition decodeURIComponent (s : string) : completion string :=
  match decode_go O [] s with
  | Some r => Normal r
  | None => Throw URIError
  end.

(** *** [encodeURIComponent] (the inverse the redirect wrappers use) *)

Definition unreserved (c : ascii) : bool :=
  let n := N_of_ascii c in
  between 48 57 n || between 65 90 n || between 97 122 n
  || (n =? 45)%N || (n =? 95)%N || (n =? 46)%N || (n =? 33)%N
  || (n =? 126)%N || (n =? 42)%N || (n =? 39)%N || (n =? 40)%N
  || (n =? 41)%N.

Definition hex_digit (n : N) : ascii :=
  if (n <? 10)%N then ascii_of_N (48 + n) else ascii_of_N (55 + n).

Fixpoint encodeURIComponent (s : string) : string :=
  match s with
  | EmptyString => EmptyString
  | String c r =>
      if unreserved c then String c (encodeURIComponent r)
      else let n := N_of_ascii c in
           String "%" (String (hex_digit (n / 16))
                         (String (hex_digit (n mod 16))
                            (encodeURIComponent r)))
  end.

End JS.

(** ** The WHATWG URL parser, as far as [extractUrl] needs it *)

Module URL.

Definition is_alpha (c : ascii) : bool :=
  let n := N_of_ascii c in JS.between 65 90 n || JS.between 97 122 n.

Definition is_scheme_char (c : ascii) : bool :=
  let n := N_of_ascii c in
  is_alpha c || JS.between 48 57 n
  || (n =? 43)%N || (n =? 45)%N || (n =? 46)%N.

Definition lower (c : ascii) : ascii :=
  let n := N_of_ascii c in
  if JS.between 65 90 n then ascii_of_N (n + 32) else c.

(** Leading and trailing C0 controls and spaces are dropped, tabs and
    newlines are removed everywhere. *)
Definition is_c0_or_space (c : ascii) : bool := (N_of_ascii c <=? 32)%N.

Definition is_tab_or_newline (c : ascii) : bool :=
  let n := N_of_ascii c in (n =? 9)%N || (n =? 10)%N || (n =? 13)%N.

Fixpoint strip_leading (s : string) : string :=
  match s with
  | String c r => if is_c0_or_space c then strip_leading r else s
  | EmptyString => s
  end.

(** Drops the trailing C0 controls and spaces and every tab or newline. *)
Fixpoint clean (s : string) : string :=
  match s with
  | EmptyString => EmptyString
  | String c r =>
      let r' := clean r in
      if is_tab_or_newline c then r'
      else match r' with
           | EmptyString => if is_c0_or_space c then EmptyString
                            else String c EmptyString
           | _ => String c r'
           end
  end.

(** The scheme, lower-cased, and what follows its colon. *)
Fixpoint scheme_go (s : string) : option (string * string) :=
  match s with
  | EmptyString => None
  | String c r =>
      if Ascii.eqb c ":" then Some (EmptyString, r)
      else if is_scheme_char c then
        match scheme_go r with
        | Some (sch, rest) => Some (String (lower c) sch, rest)
        | None => None
        end
      else None
  end.

Definition scheme (s : string) : option (string * string) :=
  match s with
  | String c _ => if is_alpha c then scheme_go s else None
  | EmptyString => None
  end.

Definition is_special (sch : string) : bool :=
  String.eqb sch "http" || String.eqb sch "https" || String.eqb sch "ws"
  || String.eqb sch "wss" || String.eqb sch "ftp".

Definition is_slash (c : ascii) : bool :=
  Ascii.eqb c "/" || Ascii.eqb c "\".

Fixpoint skip_slashes (s : string) : string :=
  match s with
  | String c r => if is_slash c then skip_slashes r else s
  | EmptyString => s
  end.

(** The authority ends at the first slash, question mark or hash. *)
Fixpoint authority (s : string) : string :=
  match s with
  | EmptyString => EmptyString
  | String c r =>
      if is_slash c || Ascii.eqb c "?" || Ascii.eqb c "#" then EmptyString
      else String c (authority r)
  end.

(** The query: after the first question mark, up to the first hash; no
    query when a hash comes first. *)
Definition query (s : string) : string :=
  match JS.split_rest "?" (JS.split_head "#" s) with
  | Some q => q
  | None => EmptyString
  end.

(** application/x-www-form-urlencoded parsing of the query. *)
Fixpoint split_all (sep : ascii) (cur : string) (s : string) : list string :=
  match s with
  | EmptyString => [cur]
  | String c r =>
      if Ascii.eqb c sep then cur :: split_all sep EmptyString r
      else split_all sep (cur +:+ String c EmptyString) r
  end.

(** Percent-decoding that leaves a malformed escape as it stands, with
    [+] read as a space: the octets of a name or value. *)
Fixpoint form_bytes (s : string) : string :=
  match s with
  | EmptyString => EmptyString
  | String c r =>
      if Ascii.eqb c "+" then String " " (form_bytes r)
      else if Ascii.eqb c "%" then
        match r with
        | String h1 (String h2 r') =>
            match JS.hex_byte h1 h2 with
            | Some b => String (ascii_of_N b) (form_bytes r')
            | None => String c (form_bytes r)
            end
        | _ => String c (form_bytes r)
        end
      else String c (form_bytes r)
  end.

(** U+FFFD, in UTF-8. *)
Definition replacement : string :=
  String (ascii_of_N 239) (String (ascii_of_N 191)
    (String (ascii_of_N 189) EmptyString)).

(** What the first octet of a sequence of two to four octets announces:
    the octets still owed and the bounds of the next one. *)
Definition utf8_lead (b : N) : option (nat * N * N) :=
  if JS.between 194 223 b then Some (1%nat, 128%N, 191%N)
  else if JS.between 224 239 b then
    Some (2%nat, if (b =? 224)%N then 160%N else 128%N,
          if (b =? 237)%N then 159%N else 191%N)
  else if JS.between 240 244 b then
    Some (3%nat, if (b =? 240)%N then 144%N else 128%N,
          if (b =? 244)%N then 143%N else 191%N)
  else None.

(** The UTF-8 decoder of the Encoding standard, on octets that stand for
    the text they encode: a well-formed sequence is kept, and every
    ill-formed run is replaced by U+FFFD, the octet that broke a sequence
    being read again.  [acc] holds the octets of the open sequence, [need]
    counts those it still owes, [lo] and [hi] bound the next one. *)
Fixpoint utf8_go (acc : string) (need : nat) (lo hi : N) (s : string)
  : string :=
  match s with
  | EmptyString =>
      match need with O => EmptyString | S _ => replacement end
  | String c r =>
      let b := N_of_ascii c in
      let fresh :=
        if (b <? 128)%N then String c (utf8_go EmptyString 0 128 191 r)
        else match utf8_lead b with
             | Some (n, lo', hi') => utf8_go (String c EmptyString) n lo' hi' r
             | None => replacement +:+ utf8_go EmptyString 0 128 191 r
             end in
      match need with
      | O => fresh
      | S n =>
          if JS.between lo hi b then
            match n with
            | O => acc +:+ String c (utf8_go EmptyString 0 128 191 r)
            | S _ => utf8_go (acc +:+ String c EmptyString) n 128 191 r
            end
          else replacement +:+ fresh
      end
  end.

Definition utf8_decode (s : string) : string :=
  utf8_go EmptyString 0 128 191 s.

(** A name or value of the query: percent-decoded, then decoded as UTF-8
    with replacement. *)
Definition form_decode (s : string) : string := utf8_decode (form_bytes s).

Definition pair_of (field : string) : string * string :=
  (form_decode (JS.split_head "=" field),
   form_decode (match JS.split_rest "=" field with
                | Some v => v
                | None => EmptyString
                end)).

Definition nonempty (s : string) : bool :=
  match s with EmptyString => false | _ => true end.

Definition parse_query (q : string) : list (string * string) :=
  map pair_of (filter (fun f => nonempty f = true) (split_all "&" EmptyString q)).

(** [new URL(s).searchParams]: the name/value pairs in order, or the
    TypeError of an input that is no absolute URL.  Of what the parser
    checks of a host (forbidden characters, IPv4 and IPv6 literals, ports,
    IDNA) only that the authority of a special scheme is not empty is
    modelled: where this function throws, [new URL] throws, and on the
    hosts the properties below are proved for, a plain domain name, both
    agree. *)
Definition searchParams (s : string) : JS.completion (list (string * string)) :=
  match scheme (clean (strip_leading s)) with
  | None => JS.Throw JS.InvalidURL
  | Some (sch, rest) =>
      if is_special sch && negb (nonempty (authority (skip_slashes rest)))
      then JS.Throw JS.InvalidURL
      else JS.Normal (parse_query (query rest))
  end.

(** [params.get(name)]: the first value under that name; [has] is
    [is_Some] of it. *)
Fixpoint get (name : string) (ps : list (string * string)) : option string :=
  match ps with
  | [] => None
  | (k, v) :: ps' => if String.eqb k name then Some v else get name ps'
  end.

End URL.

Import JS.

(** ** Configuration parsing: [parseCheckInterval] *)

(** [cronParts[0]] is what stands before the first space; a first field
    beginning with [*/] is read by [parseInt] from its third character on,
    everything else is the thrown Error. *)
Definition parseCheckInterval (cronPattern : string) : completion number :=
  let first := split_head " " cronPattern in
  if startsWith first "*/" then
    let minutes := parseInt (substring_from 2 first) in
    Normal (mul (mul minutes (Num 60)) (Num 1000))
  else Throw (Failure "Only simple interval cron patterns are supported").

(** ** The URL normalizer: [extractUrl] *)

(** The do-while loop of [extractUrl]; [None] when the fuel runs out. *)
Fixpoint decode_loop (fuel : nat) (currentUrl : string)
  : option (completion string) :=
  match fuel with
  | O => None
  | S fuel' =>
      match decodeURIComponent currentUrl with
      | Throw e => Some (Throw e)
      | Normal decoded =>
          let next := if startsWith decoded "http" then decoded else currentUrl in
          if String.eqb next currentUrl then Some (Normal next)
          else decode_loop fuel' next
      end
  end.

(** The body of the [try] block. *)
Definition extractUrl_try (url : string) : option (completion string) :=
  match URL.searchParams url with
  | Throw e => Some (Throw e)
  | Normal urlParams =>
      let step (name : string) (cur : completion string) :=
        cbind cur (fun c =>
          match URL.get name urlParams with
          | Some v => decodeURIComponent v
          | None => Normal c
          end) in
      match step "url" (step "u" (Normal url)) with
      | Throw e => Some (Throw e)
      | Normal c => decode_loop (S (String.length c)) c
      end
  end.

(** [catch] returns the input; the loop never runs out of the fuel it is
    given ([decode_loop_total] below), so the last case is never taken. *)
Definition extractUrl (url : string) : string :=
  match extractUrl_try url with
  | Some (Normal r) => r
  | Some (Throw _) => url
  | None => url
  end.

(** ** Data model *)

Record Config : Type := {
  DATA_FILE : string;
  MEDIA_DIR : string;
  FB_URL : string
}.

(** One entry of [storage.posts]; [rec_url] is [null] or a string. *)
Record SeenPostRecord : Type := {
  rec_url : option string;
  rec_timestamp : string
}.

Inductive MediaKind : Type := video | image.

Record MediaItem : Type := {
  media_type : MediaKind;
  media_path : option string
}.

Record EmbeddedLink : Type := { link_url : string }.

(** The [content] object of [processWebPost]. *)
Record Content : Type := {
  text : string;
  media : list MediaItem;
  content_url : option string;
  embeddedLink : option EmbeddedLink;
  timestamp : string
}.

(** What the markup queries of [processWebPost] find in the first
    [div[role="article"]]: an attribute is [None] when the element or the
    attribute is missing. *)
Record LinkPreview : Type := {
  data_lynx_uri : option string;   (* linkPreview.attr('data-lynx-uri') *)
  inner_href : option string;      (* linkPreview.find('a').attr('href') *)
  closest_href : option string;    (* linkPreview.closest('a').attr('href') *)
  img_parent_href : option string  (* linkPreview.find('img').closest('a').attr('href') *)
}.

Record PostElement : Type := {
  permalink_href : option string;  (* post.find('a[href*="/posts/"]').attr('href') *)
  linkPreview : option LinkPreview;(* the first match of the three selectors *)
  message : string;                (* the trimmed text of the message element *)
  video_src : option (option string); (* post.find('video'), then its src *)
  images : list (option string)    (* the src of every img, in document order *)
}.

(** How far a [writeFile] that fails has come: it could not open the
    file, which is left as it was; it opened the file (flag [w] truncates it
    at once) and failed before the last octet was written, which leaves an
    empty file or the beginning of the text; or everything was written and
    closing the file failed. *)
Inductive WriteStage : Type := at_open | at_write | at_close.

(** The answers of the outside world during one check of one page.
    [arrived] is the outcome of the race between the image callbacks, which
    nobody awaits, and the delivery: the indices of the images whose
    callback has run to its end when [sendDiscordMessage] reads
    [content.media], in the order in which they ended. *)
Record Env : Type := {
  build : completion unit;                       (* new Builder()...build() *)
  page_source : string -> completion (option PostElement);
                                                 (* get, sleep, scroll, getPageSource *)
  quit : completion unit;                        (* driver.quit() *)
  toISOString : string;                          (* new Date().toISOString() *)
  date_now : MediaKind -> nat -> string;         (* Date.now() in downloadMedia *)
  fs_open : string -> completion unit;
  http_get : string -> completion unit;          (* axios.get and the pipeline *)
  ffmpeg_save : string -> completion unit;
  fs_close : string -> completion unit;
  http_head : string -> completion (option string);
                                                 (* the content-length header *)
  fs_writeFile : completion unit;
  write_stage : WriteStage;                      (* where a failing writeFile fails *)
  arrived : list nat;      (* image callbacks settled before the media are read *)
  channels_fetch : string -> completion unit;
  fs_stat : string -> completion Z;              (* fileStats.size *)
  channel_send : completion unit;
  fs_unlink : string -> completion unit
}.

Inductive Event : Type :=
| EvHead (url : string)
| EvDownload (url file : string)
| EvWriteFile (posts : gmap string SeenPostRecord)
    (* writeFile(DATA_FILE, JSON.stringify(storage)), with [storage.posts] as given *)
| EvSend (pageName channelId : string) (post : option string)
    (body : string) (files : list string) (ok : bool)
| EvUnlink (file : string)
| EvLog (what : string).

(** The mutable state: the [storage.posts] object, the data file, the files
    under the media directory and the image callbacks that wait for their
    HEAD response.

    [storage] gives, for a page name, the record that
    [storage.posts[pageName]] reads.  What a JavaScript object inherits
    ([constructor], [toString], ...) has no [url] and reads as an absent
    record.  The name [__proto__] is no own property of the object (the
    data file is the program's own, and [JSON.stringify] never writes that
    name): an assignment under it sets the prototype of [storage.posts],
    and a lookup under it reads the prototype back, so the map is right for
    that name too, but the record is no own property and is left out of
    what is written (see [own_properties]).

    [data_file] is the object the data file holds, the value of [posts] in
    it; [None] when the file is missing, empty or cut short, which
    [JSON.parse] at the next start refuses alike. *)
Record State : Type := {
  storage : gmap string SeenPostRecord;
  data_file : option (gmap string SeenPostRecord);
  media_files : gset string;
  pending : list (nat * string)
}.

(** ** The effect monad: state, events written, exceptions *)

Definition M (A : Type) : Type := State -> completion A * State * list Event.

Definition ret {A} (a : A) : M A := fun s => (Normal a, s, []).

Definition bind {A B} (m : M A) (k : A -> M B) : M B :=
  fun s =>
    match m s with
    | (Normal a, s1, t1) =>
        match k a s1 with
        | (r, s2, t2) => (r, s2, t1 ++ t2)
        end
    | (Throw e, s1, t1) => (Throw e, s1, t1)
    end.

Declare Scope eff_scope.
Delimit Scope eff_scope with eff.
Notation "x <- m ;; k" := (bind m (fun x => k))
  (at level 100, m at next level, right associativity) : eff_scope.
Notation "m ;;; k" := (bind m (fun _ => k))
  (at level 100, right associativity) : eff_scope.
Local Open Scope eff_scope.

Definition lift {A} (c : completion A) : M A := fun s => (c, s, []).
Definition emit (e : Event) : M unit := fun s => (Normal tt, s, [e]).
Definition get_state : M State := fun s => (Normal s, s, []).

(** [try { m } catch (error) { h error }] *)
Definition try_catch {A} (m : M A) (h : error -> M A) : M A :=
  fun s =>
    match m s with
    | (Normal a, s1, t1) => (Normal a, s1, t1)
    | (Throw e, s1, t1) =>
        match h e s1 with
        | (r, s2, t2) => (r, s2, t1 ++ t2)
        end
    end.

(** [try { m } finally { f }]: a throwing [f] replaces the completion. *)
Definition try_finally {A} (m : M A) (f : M unit) : M A :=
  fun s =>
    match m s with
    | (r, s1, t1) =>
        match f s1 with
        | (Normal _, s2, t2) => (r, s2, t1 ++ t2)
        | (Throw e, s2, t2) => (Throw e, s2, t1 ++ t2)
        end
    end.

Fixpoint for_each {A} (f : A -> M unit) (l : list A) : M unit :=
  match l with
  | [] => ret tt
  | x :: l' => f x ;;; for_each f l'
  end.

Definition set_storage (st : gmap string SeenPostRecord) : M unit :=
  fun s => (Normal tt,
            {| storage := st; data_file := data_file s;
               media_files := media_files s; pending := pending s |}, []).

Definition set_data_file (f : option (gmap string SeenPostRecord)) : M unit :=
  fun s => (Normal tt,
            {| storage := storage s; data_file := f;
               media_files := media_files s; pending := pending s |}, []).

Definition set_media_files (fs : gset string) : M unit :=
  fun s => (Normal tt,
            {| storage := storage s; data_file := data_file s;
               media_files := fs; pending := pending s |}, []).

Definition set_pending (p : list (nat * string)) : M unit :=
  fun s => (Normal tt,
            {| storage := storage s; data_file := data_file s;
               media_files := media_files s; pending := p |}, []).

(** [String(v)] of a value that may be [undefined]. *)
Definition to_String (v : option string) : string := default "undefined" v.

Definition nl : string := String (ascii_of_N 10) EmptyString.

(** ** One check of one page *)

Section Cycle.

Variable cfg : Config.
Variable env : Env.

(** *** [downloadMedia] *)

Definition ext_of (type : MediaKind) : string :=
  match type with video => "mp4" | image => "jpg" end.

(** [path.join(config.MEDIA_DIR, filename)], for a directory in normal
    form and a file name that is one path segment, that is, a page name
    without a slash: there [path.join] is this concatenation; elsewhere it
    also resolves [..] and doubled slashes. *)
Definition media_file_path (pageName : string) (type : MediaKind)
    (index : nat) : string :=
  MEDIA_DIR cfg +:+ "/" +:+ pageName +:+ "_" +:+ date_now env type index
    +:+ "_" +:+ pretty index +:+ "." +:+ ext_of type.

(** [open] stands before the [try]; the [catch] turns a failed request,
    pipeline or re-encoding into [null]; [close] is the [finally]. *)
Definition downloadMedia (pageName url : string) (type : MediaKind)
    (index : nat) : M (option string) :=
  let filePath := media_file_path pageName type index in
  emit (EvDownload url filePath) ;;;
  lift (fs_open env filePath) ;;;
  (s <- get_state ;; set_media_files ({[filePath]} ∪ media_files s)) ;;;
  try_finally
    (try_catch
       (lift (http_get env url) ;;;
        match type with
        | video => lift (ffmpeg_save env filePath)
        | image => ret tt
        end ;;;
        ret (Some filePath))
       (fun _ => emit (EvLog "Failed to download") ;;; ret None))
    (lift (fs_close env filePath)).

(** *** [processWebPost] *)

(** Lines 100-101: the permalink without its query string, [null] when
    there is none or nothing is left of it. *)
Definition fullPostUrl_of (post : PostElement) : option string :=
  let postUrl := split_head "?" <$> permalink_href post in
  if truthy postUrl then postUrl else None.

(** [storage.posts[pageName]?.url === fullPostUrl]: an absent record
    gives [undefined], which is neither [null] nor a string. *)
Definition already_seen (s : State) (pageName : string)
    (fullPostUrl : option string) : bool :=
  bool_decide (rec_url <$> storage s !! pageName = Some fullPostUrl).

(** [extractUrl] with the [console.error] of its [catch]. *)
Definition extractUrl_logged (u : string) : M string :=
  match extractUrl_try u with
  | Some (Normal r) => ret r
  | _ => emit (EvLog "URL extraction error") ;;; ret u
  end.

(** Lines 115-136. *)
Definition extract_link (lp : LinkPreview) : M (option EmbeddedLink) :=
  try_catch
    (let rawUrl :=
       or_else (or_else (data_lynx_uri lp) (inner_href lp)) (closest_href lp) in
     decoded <- lift (decodeURIComponent (to_String rawUrl)) ;;
     u <- extractUrl_logged decoded ;;
     if startsWith u "http" then ret (Some {| link_url := u |})
     else if truthy (img_parent_href lp) then
       u' <- extractUrl_logged (to_String (img_parent_href lp)) ;;
       ret (Some {| link_url := u' |})
     else ret (Some {| link_url := u |}))
    (fun _ => emit (EvLog "Link processing error") ;;; ret None).

(** Lines 148-155. *)
Definition extract_video (pageName : string) (post : PostElement)
  : M (list MediaItem) :=
  match video_src post with
  | Some videoSrc =>
      if truthy videoSrc then
        videoPath <- downloadMedia pageName (to_String videoSrc) video 0 ;;
        ret [ {| media_type := video; media_path := videoPath |} ]
      else ret []
  | None => ret []
  end.

(** Lines 159-164: the callback of [images.each] runs up to its first
    [await]: it sends the HEAD request and is left waiting. *)
Definition spawn_image (imgIndex : nat) (img : option string) : M unit :=
  if truthy img && startsWith (to_String img) "http" then
    emit (EvHead (to_String img)) ;;;
    (s <- get_state ;; set_pending (pending s ++ [(imgIndex, to_String img)]))
  else ret tt.

Fixpoint spawn_images (imgIndex : nat) (imgs : list (option string))
  : M unit :=
  match imgs with
  | [] => ret tt
  | img :: rest => spawn_image imgIndex img ;;; spawn_images (S imgIndex) rest
  end.

(** Lines 165-170: the rest of the callback, once the HEAD response is
    there; what it returns is what it pushes on [content.media]. *)
Definition image_settled (pageName : string) (task : nat * string)
  : M (list MediaItem) :=
  contentLength <- lift (http_head env (snd task)) ;;
  if truthy contentLength && gt (parseInt (to_String contentLength)) (Num 2048)
  then
    imgPath <- downloadMedia pageName (snd task) image (fst task) ;;
    ret [ {| media_type := image; media_path := imgPath |} ]
  else ret [].

(** Lines 106-173: everything between the novelty check and the commit. *)
Definition extract_content (pageName : string) (post : PostElement)
  : M Content :=
  embedded <- match linkPreview post with
              | Some lp => extract_link lp
              | None => ret None
              end ;;
  let content (m : list MediaItem) :=
    {| text := message post; media := m; content_url := fullPostUrl_of post;
       embeddedLink := embedded; timestamp := toISOString env |} in
  match embedded with
  | Some _ => ret (content [])
  | None =>
      videos <- extract_video pageName post ;;
      spawn_images 0 (images post) ;;;
      ret (content videos)
  end.

(** What [JSON.stringify] writes of [storage.posts]: its own properties,
    which a record assigned under [__proto__] is not. *)
Definition own_properties (posts : gmap string SeenPostRecord)
  : gmap string SeenPostRecord :=
  delete "__proto__" posts.

(** Lines 176-180: the record is set in memory, then the object is
    written.  After a write that fails the file is what the stage of the
    failure left of it. *)
Definition commit (pageName : string) (content : Content) : M unit :=
  s <- get_state ;;
  let posts := <[pageName := {| rec_url := content_url content;
                                rec_timestamp := timestamp content |}]>
                 (storage s) in
  set_storage posts ;;;
  emit (EvWriteFile posts) ;;;
  match fs_writeFile env with
  | Normal _ => set_data_file (Some (own_properties posts))
  | Throw e =>
      match write_stage env with
      | at_open => ret tt
      | at_write => set_data_file None
      | at_close => set_data_file (Some (own_properties posts))
      end ;;;
      lift (Throw e)
  end.

Definition processWebPost (pageName : string) : M (option Content) :=
  lift (build env) ;;;
  try_finally
    (post <- lift (page_source env (FB_URL cfg +:+ "/" +:+ pageName)) ;;
     match post with
     | None => ret None
     | Some post =>
         s <- get_state ;;
         if already_seen s pageName (fullPostUrl_of post) then ret None
         else
           content <- extract_content pageName post ;;
           commit pageName content ;;;
           ret (Some content)
     end)
    (lift (quit env)).

(** *** [sendDiscordMessage] *)

(** The link sign U+1F517 of line 260, in UTF-8. *)
Definition link_sign : string :=
  String (ascii_of_N 240) (String (ascii_of_N 159)
    (String (ascii_of_N 148) (String (ascii_of_N 151) EmptyString))).

Definition link_line (u : string) : string :=
  nl +:+ nl +:+ link_sign +:+ " Link: " +:+ u.

(** Lines 264-280: one turn of the loop over [content.media]. *)
Definition attach (m : MediaItem) : M (list string) :=
  if truthy (media_path m) then
    match fs_stat env (to_String (media_path m)) with
    | Normal size =>
        if (size <? 25000000)%Z then ret [to_String (media_path m)]
        else emit (EvLog "exceeds 25MB limit") ;;; ret []
    | Throw _ => emit (EvLog "Error processing media") ;;; ret []
    end
  else ret [].

Fixpoint attach_all (ms : list MediaItem) : M (list string) :=
  match ms with
  | [] => ret []
  | m :: ms' =>
      a <- attach m ;;
      b <- attach_all ms' ;;
      ret (a ++ b)
  end.

(** Lines 290-297. *)
Definition delete_file (filePath : string) : M unit :=
  emit (EvUnlink filePath) ;;;
  match fs_unlink env filePath with
  | Normal _ =>
      (s <- get_state ;; set_media_files (media_files s ∖ {[filePath]})) ;;;
      emit (EvLog "Deleted")
  | Throw _ => emit (EvLog "Failed to delete")
  end.

Definition sendDiscordMessage (pageConfig : string * string)
    (content : Content) : M unit :=
  let pageName := fst pageConfig in
  let channelId := snd pageConfig in
  lift (channels_fetch env channelId) ;;;
  let head := "**" +:+ pageName +:+ "**" +:+ nl +:+ text content in
  message <-
    (if truthy (link_url <$> embeddedLink content)
     then ret (head +:+ link_line (to_String (link_url <$> embeddedLink content)), [])
     else files <- attach_all (media content) ;; ret (head, files)) ;;
  match channel_send env with
  | Normal _ =>
      emit (EvSend pageName channelId (content_url content)
              (fst message) (snd message) true) ;;;
      emit (EvLog "Posted update") ;;;
      for_each delete_file (snd message)
  | Throw e =>
      emit (EvSend pageName channelId (content_url content)
              (fst message) (snd message) false) ;;;
      emit (EvLog "Failed to send message to Discord") ;;;
      lift (Throw e)
  end.

(** *** [monitorPage] *)

Fixpoint take_task (i : nat) (l : list (nat * string))
  : option ((nat * string) * list (nat * string)) :=
  match l with
  | [] => None
  | t :: l' =>
      if Nat.eqb (fst t) i then Some (t, l')
      else match take_task i l' with
           | Some (t', r) => Some (t', t :: r)
           | None => None
           end
  end.

(** The callback of image [i] gets its HEAD response; nobody awaits its
    promise, so its exception goes nowhere: it is an unhandled rejection.
    On Node 15 and later, the versions that load this program, an unhandled
    rejection ends the process; the model writes the log line and goes on,
    so what it shows after that line does not happen.  A property that
    promises a return, a send or a further check therefore assumes that no
    callback is rejected ([callbacks_hold]); one that only forbids
    something holds of the shorter run as well. *)
Definition settle (pageName : string) (i : nat) : M (list MediaItem) :=
  s <- get_state ;;
  match take_task i (pending s) with
  | None => ret []
  | Some (task, rest) =>
      set_pending rest ;;;
      try_catch (image_settled pageName task)
        (fun _ => emit (EvLog "unhandled rejection") ;;; ret [])
  end.

Fixpoint settle_all (pageName : string) (l : list nat) : M (list MediaItem) :=
  match l with
  | [] => ret []
  | i :: l' =>
      a <- settle pageName i ;;
      b <- settle_all pageName l' ;;
      ret (a ++ b)
  end.

Definition with_media (c : Content) (m : list MediaItem) : Content :=
  {| text := text c; media := m; content_url := content_url c;
     embeddedLink := embeddedLink c; timestamp := timestamp c |}.

(** [content.media] is the array the image callbacks push on: what
    [sendDiscordMessage] reads is the array after the callbacks that
    settled by then ([arrived], in their order of arrival). *)
Definition monitorPage (pageConfig : string * string) : M unit :=
  try_catch
    (content <- processWebPost (fst pageConfig) ;;
     match content with
     | Some c =>
         pushed <- settle_all (fst pageConfig) (arrived env) ;;
         sendDiscordMessage pageConfig (with_media c (media c ++ pushed))
     | None => ret tt
     end)
    (fun _ => emit (EvLog "Error processing page")).

(** One check of one page: [monitorPage], then the callbacks that were
    still waiting. *)
Definition check_page (pageConfig : string * string) : M unit :=
  monitorPage pageConfig ;;;
  (s <- get_state ;;
   settle_all (fst pageConfig) (map fst (pending s)) ;;; ret tt).

End Cycle.

(** The checks of a run, one after the other, each with the answers the
    world gives during it. *)
Fixpoint run_checks (cfg : Config) (checks : list ((string * string) * Env))
    (s : State) : State * list Event :=
  match checks with
  | [] => (s, [])
  | (pageConfig, env) :: rest =>
      match check_page cfg env pageConfig s with
      | (_, s1, t1) =>
          match run_checks cfg rest s1 with
          | (s2, t2) => (s2, t1 ++ t2)
          end
      end
  end.

(** ** The vocabulary of the properties *)

(** *** Strings *)

Fixpoint all_chars (P : ascii -> bool) (s : string) : bool :=
  match s with
  | EmptyString => true
  | String c r => P c && all_chars P r
  end.

Definition is_not (c d : ascii) : bool := negb (Ascii.eqb d c).

(** The characters [encodeURIComponent] writes. *)
Definition enc_safe (c : ascii) : bool := unreserved c || Ascii.eqb c "%".

Definition visible (c : ascii) : bool := negb (URL.is_c0_or_space c).

Definition is_digit (c : ascii) : bool := between 48 57 (N_of_ascii c).

(** The value of a numeral, digit by digit with its power of ten. *)
Fixpoint decimal_value (s : string) : Z :=
  match s with
  | EmptyString => 0
  | String c r =>
      ((Z.of_N (N_of_ascii c) - 48) * 10 ^ Z.of_nat (String.length r)
       + decimal_value r)%Z
  end.

(** A string that carries no redirect parameter: it is no URL, or its
    query has neither [u] nor [url]. *)
Definition no_wrapper (s : string) : bool :=
  match URL.searchParams s with
  | Normal ps =>
      match URL.get "u" ps, URL.get "url" ps with
      | None, None => true
      | _, _ => false
      end
  | Throw _ => true
  end.

(** The Facebook redirect wrapper around a target. *)
Definition fb_wrap (target : string) : string :=
  "https://l.facebook.com/l.php?u=" +:+ encodeURIComponent target.

(** The octets are the UTF-8 encoding of a text: the strings of the
    program are of this kind. *)
Definition is_text (s : string) : Prop := URL.utf8_decode s = s.

(** *** What a computation may change and write *)

(** [sat R P m]: from every state [m] ends in a state related by [R], and
    writes only events in [P]. *)
Definition sat {A} (R : relation State) (P : Event -> Prop) (m : M A) : Prop :=
  forall s, R s (m s).1.2 /\ Forall P (m s).2.

(** [m] never throws. *)
Definition nothrow {A} (m : M A) : Prop :=
  forall s, exists a, (m s).1.1 = Normal a.

(** The store is left alone: the [posts] object and the data file. *)
Definition same_store : relation State :=
  fun s s' => storage s' = storage s /\ data_file s' = data_file s.

(** Only the media directory may differ. *)
Definition same_but_files : relation State :=
  fun s s' => storage s' = storage s /\ data_file s' = data_file s
              /\ pending s' = pending s.

(** Files may only have left the media directory. *)
Definition same_but_media : relation State :=
  fun s s' => storage s' = storage s /\ data_file s' = data_file s
              /\ pending s' = pending s
              /\ media_files s' ⊆ media_files s.

Definition is_log (e : Event) : Prop :=
  match e with EvLog _ => True | _ => False end.

(** The events of fetching media: downloads and log lines. *)
Definition is_fetch (e : Event) : Prop :=
  match e with EvDownload _ _ | EvLog _ => True | _ => False end.

(** The events of extraction: everything but a write of the data file, a
    send and a deletion. *)
Definition is_extract (e : Event) : Prop :=
  match e with
  | EvDownload _ _ | EvLog _ | EvHead _ => True
  | _ => False
  end.

Definition is_write (e : Event) : Prop :=
  match e with EvWriteFile _ => True | _ => False end.

Definition is_media_event (e : Event) : Prop :=
  match e with EvHead _ | EvDownload _ _ => True | _ => False end.

Definition is_unlink (e : Event) : Prop :=
  match e with EvUnlink _ => True | _ => False end.

(** What the clean-up after a send writes: deletions of attached files
    and log lines. *)
Definition is_cleanup (files : list string) (e : Event) : Prop :=
  match e with
  | EvUnlink f => In f files
  | EvLog _ => True
  | _ => False
  end.

(** The sends of a trace: page, post url, and whether the send went
    through. *)
Definition send_of (e : Event) : option (string * option string * bool) :=
  match e with
  | EvSend pageName _ post _ _ ok => Some (pageName, post, ok)
  | _ => None
  end.

Definition sends (t : list Event) : list (string * option string * bool) :=
  omap send_of t.

(** The sends of a trace that are of one page. *)
Definition sends_for (p : string) (t : list Event)
  : list (string * option string * bool) :=
  filter (fun x => x.1.1 = p) (sends t).

Definition not_send (e : Event) : Prop := send_of e = None.

(** Neither a send nor a write of the data file. *)
Definition quiet (e : Event) : Prop := not_send e /\ ~ is_write e.

Definition error_log : list Event := [EvLog "Error processing page"].

(** *** Extraction and delivery *)

Definition page_url (cfg : Config) (pageName : string) : string :=
  FB_URL cfg +:+ "/" +:+ pageName.

Definition record_of (c : Content) : SeenPostRecord :=
  {| rec_url := content_url c; rec_timestamp := timestamp c |}.

(** A novel post was extracted: the browser came up, the page has a first
    post whose permalink is not the stored one, and the extraction after
    the novelty check ended with a content. *)
Definition novel_extraction (cfg : Config) (env : Env) (pageName : string)
    (s : State) (c : Content) (s1 : State) (t1 : list Event) : Prop :=
  exists u post,
    build env = Normal u
    /\ page_source env (page_url cfg pageName) = Normal (Some post)
    /\ already_seen s pageName (fullPostUrl_of post) = false
    /\ extract_content cfg env pageName post s = (Normal c, s1, t1).

(** The data file after [writeFile] was called with [posts], the file
    holding [before]. *)
Definition written (env : Env) (posts : gmap string SeenPostRecord)
    (before : option (gmap string SeenPostRecord))
  : option (gmap string SeenPostRecord) :=
  match fs_writeFile env, write_stage env with
  | Normal _, _ | Throw _, at_close => Some (own_properties posts)
  | Throw _, at_open => before
  | Throw _, at_write => None
  end.

(** The state after the commit of [c] on [s1]. *)
Definition committed (env : Env) (pageName : string) (c : Content)
    (s1 : State) : State :=
  let posts := <[pageName := record_of c]> (storage s1) in
  {| storage := posts;
     data_file := written env posts (data_file s1);
     media_files := media_files s1; pending := pending s1 |}.

(** A medium is fit for attachment: a path, a size, and that below the
    cap. *)
Definition fits (env : Env) (m : MediaItem) (f : string) : Prop :=
  media_path m = Some f /\ f <> EmptyString
  /\ exists size, fs_stat env f = Normal size /\ (size < 25000000)%Z.

(** The images the callback of [images.each] probes: those whose source
    begins with [http], each with its index in the post. *)
Fixpoint http_images (i : nat) (imgs : list (option string))
  : list (nat * string) :=
  match imgs with
  | [] => []
  | img :: rest =>
      (if truthy img && startsWith (to_String img) "http"
       then [(i, to_String img)] else [])
      ++ http_images (S i) rest
  end.

(** No image callback of the page is rejected: every HEAD request is
    answered and, where an image is downloaded, its file opens and
    closes. *)
Definition callbacks_hold (cfg : Config) (env : Env) (pageName : string)
  : Prop :=
  forall task s,
    exists pushed,
      (image_settled cfg env pageName task s).1.1 = Normal pushed.

(** The content carries a link that [sendDiscordMessage] writes out. *)
Definition has_link (c : Content) : bool :=
  truthy (link_url <$> embeddedLink c).

(** The shape of a check in which a delivery was attempted: the write
    of the data file, then the one send. *)
Definition delivered (pageConfig : string * string) (c : Content)
    (posts : gmap string SeenPostRecord) (t : list Event) (ok : bool)
  : Prop :=
  exists pre mid post body files,
    t = pre ++ EvWriteFile posts
          :: mid ++ EvSend (fst pageConfig) (snd pageConfig)
                      (content_url c) body files ok :: post
    /\ Forall quiet pre /\ Forall quiet mid /\ Forall quiet post.

(** In the checks of page [p] the first post, when there is one, has the
    permalink [u]. *)
Definition shows (cfg : Config) (p : string) (u : option string)
    (checks : list ((string * string) * Env)) : Prop :=
  forall pageConfig env post,
    In (pageConfig, env) checks -> fst pageConfig = p ->
    page_source env (page_url cfg p) = Normal (Some post) ->
    fullPostUrl_of post = u.

(** *** Example worlds *)

Module Scenario.

Definition the_cfg : Config :=
  {| DATA_FILE := "/app/storage.json"; MEDIA_DIR := "/app/media";
     FB_URL := "https://www.facebook.com" |}.

Definition empty_state : State :=
  {| storage := ∅; data_file := None; media_files := ∅; pending := [] |}.

Definition plain_post (href : option string) : PostElement :=
  {| permalink_href := href; linkPreview := None; message := "hello";
     video_src := None; images := [] |}.

Definition link_post : PostElement :=
  {| permalink_href := Some "/alpha/posts/300";
     linkPreview :=
       Some {| data_lynx_uri :=
                 Some "https://l.facebook.com/l.php?u=https%3A%2F%2Fexample.org%2Fa";
               inner_href := None; closest_href := None;
               img_parent_href := None |};
     message := "a link"; video_src := Some (Some "https://v/1.mp4");
     images := [Some "https://i/1.jpg"] |}.

(** A world in which everything works but what is given: the page, the
    answer to [open], the size of every file, the answer of the
    channel. *)
Definition world (post : option PostElement) (open : completion unit)
    (size : Z) (send : completion unit) : Env :=
  {| build := Normal tt;
     page_source := fun _ => Normal post;
     quit := Normal tt;
     toISOString := "2024-01-01T00:00:00.000Z";
     date_now := fun _ _ => "1704067200000";
     fs_open := fun _ => open;
     http_get := fun _ => Normal tt;
     ffmpeg_save := fun _ => Normal tt;
     fs_close := fun _ => Normal tt;
     http_head := fun _ => Normal (Some "4096");
     fs_writeFile := Normal tt;
     write_stage := at_open;
     arrived := [];
     channels_fetch := fun _ => Normal tt;
     fs_stat := fun _ => Normal size;
     channel_send := send;
     fs_unlink := fun _ => Normal tt |}.

Definition calm (post : option PostElement) : Env :=
  world post (Normal tt) 4096 (Normal tt).

Definition alpha : string * string := ("alpha", "1234567890").

Definition post_100 : PostElement := plain_post (Some "/alpha/posts/100").
Definition post_101 : PostElement := plain_post (Some "/alpha/posts/101").

Definition refused : completion unit := Throw (Failure "DiscordAPIError").

(** Post 100 is shown and its delivery refused, then post 101 is shown,
    then post 100 again, and so on. *)
Definition back_and_forth : list ((string * string) * Env) :=
  [ (alpha, world (Some post_100) (Normal tt) 4096 refused);
    (alpha, calm (Some post_101));
    (alpha, calm (Some post_100));
    (alpha, calm (Some post_101));
    (alpha, calm (Some post_100)) ].

Definition seen_100 : State :=
  {| storage := {[ "alpha" := {| rec_url := Some "/alpha/posts/100";
                                 rec_timestamp := "2023-12-31T00:00:00.000Z" |} ]};
     data_file := None; media_files := ∅; pending := [] |}.

Definition two_media : Content :=
  {| text := "hello";
     media := [ {| media_type := image; media_path := Some "/app/media/a.jpg" |};
                {| media_type := video; media_path := None |} ];
     content_url := Some "/alpha/posts/200"; embeddedLink := None;
     timestamp := "2024-01-01T00:00:00.000Z" |}.

End Scenario.

(** * The rest of the program *)


(** ** The monitoring loop *)

(** Line 47. *)
Definition CONNECTIVITY_ENDPOINTS : list string :=
  ["http://www.google.com"; "http://www.cloudflare.com"].

(** The [for] loop of [checkInternetConnectivity] over the endpoints that
    are left: the first HEAD request that is answered ends it with [true],
    a failed one is swallowed by the empty [catch]. *)
Fixpoint probe (net : Env) (endpoints : list string) : M bool :=
  match endpoints with
  | [] => ret false
  | endpoint :: rest =>
      emit (EvHead endpoint) ;;;
      match http_head net endpoint with
      | Normal _ => ret true
      | Throw _ => probe net rest
      end
  end.

Definition checkInternetConnectivity (net : Env) : M bool :=
  probe net CONNECTIVITY_ENDPOINTS.

(** [checkIntervals.offline], line 64. *)
Definition offline_interval : number := mul (mul (Num 5) (Num 60)) (Num 1000).

(** One turn of [monitoringLoop], lines 321-342; what it returns is the
    delay it hands to [setTimeout].  [online] is [checkIntervals.online];
    [pages] is [await Promise.all(config.PAGES.map(monitorPage))], the
    checks of the pages in whatever order their steps interleave. *)
Definition monitoringLoop (online : number) (net : Env) (pages : M unit)
  : M number :=
  try_catch
    (isOnline <- checkInternetConnectivity net ;;
     (if isOnline then
        emit (EvLog "Internet connection available - checking pages") ;;;
        pages ;;;
        emit (EvLog "Next check")
      else emit (EvLog "No internet connection - retrying in 5 minutes")) ;;;
     ret (if isOnline then online else offline_interval))
    (fun _ =>
       emit (EvLog "Monitoring loop error") ;;; ret offline_interval).

(** The schedule of [pages] in which each check ends before the next
    begins (the only one when a single page is configured), each page with
    the world it meets. *)
Fixpoint check_all (cfg : Config) (checks : list ((string * string) * Env))
  : M unit :=
  match checks with
  | [] => ret tt
  | (pageConfig, env) :: rest =>
      check_page cfg env pageConfig ;;; check_all cfg rest
  end.

(** An endpoint that answers the HEAD request. *)
Definition reachable (net : Env) (endpoint : string) : bool :=
  match http_head net endpoint with
  | Normal _ => true
  | Throw _ => false
  end.

(** The endpoints that get a request: all up to the first that answers. *)
Fixpoint probed (net : Env) (endpoints : list string) : list string :=
  match endpoints with
  | [] => []
  | endpoint :: rest =>
      endpoint :: (if reachable net endpoint then [] else probed net rest)
  end.

(** The raw url of a link preview, line 117. *)
Definition rawUrl_of (lp : LinkPreview) : option string :=
  or_else (or_else (data_lynx_uri lp) (inner_href lp)) (closest_href lp).

Definition is_ascii (c : ascii) : bool := (N_of_ascii c <? 128)%N.

(** A character of a target that passes the redirect wrapper untouched:
    printable ASCII other than the percent sign, the ampersand, the hash
    and the plus sign. *)
Definition plain_target_char (c : ascii) : bool :=
  visible c && is_ascii c && is_not "%" c && is_not "&" c
  && is_not "#" c && is_not "+" c.

(** The request, the pipeline and, for a video, the re-encoding all went
    through. *)
Definition fetched (env : Env) (url filePath : string) (type : MediaKind)
  : bool :=
  match http_get env url, type with
  | Normal _, image => true
  | Normal _, video =>
      match ffmpeg_save env filePath with
      | Normal _ => true
      | Throw _ => false
      end
  | Throw _, _ => false
  end.

(** What follows the last occurrence of a character. *)
Fixpoint after_last (c : ascii) (s : string) : option string :=
  match s with
  | EmptyString => None
  | String x r =>
      match after_last c r with
      | Some t => Some t
      | None => if Ascii.eqb x c then Some r else None
      end
  end.

(** The files a trace asks to delete, in order. *)
Definition unlinks (t : list Event) : list string :=
  omap (fun e => match e with EvUnlink f => Some f | _ => None end) t.

(** A file whose deletion goes through. *)
Definition unlinked (env : Env) (f : string) : bool :=
  match fs_unlink env f with
  | Normal _ => true
  | Throw _ => false
  end.

(** The text of the message, lines 254 and 260. *)
Definition message_text (pageName : string) (c : Content) : string :=
  let head := "**" +:+ pageName +:+ "**" +:+ nl +:+ text c in
  if has_link c
  then head +:+ link_line (to_String (link_url <$> embeddedLink c))
  else head.

(** *** The images of a post *)

(** The HEAD requests of a trace, in order. *)
Definition heads (t : list Event) : list string :=
  omap (fun e => match e with EvHead u => Some u | _ => None end) t.

(** The answer to the HEAD request reports more than 2048 octets: the
    test of line 166. *)
Definition big (env : Env) (src : string) : bool :=
  match http_head env src with
  | Normal contentLength =>
      truthy contentLength && gt (parseInt (to_String contentLength)) (Num 2048)
  | Throw _ => false
  end.

(** The callbacks that [settle_all] runs for the indices [l], in the order
    in which it runs them, and those it leaves waiting. *)
Fixpoint settled (l : list nat) (waiting : list (nat * string))
  : list (nat * string) :=
  match l with
  | [] => []
  | i :: l' =>
      match take_task i waiting with
      | Some (task, rest) => task :: settled l' rest
      | None => settled l' waiting
      end
  end.

Fixpoint left_waiting (l : list nat) (waiting : list (nat * string))
  : list (nat * string) :=
  match l with
  | [] => waiting
  | i :: l' =>
      match take_task i waiting with
      | Some (_, rest) => left_waiting l' rest
      | None => left_waiting l' waiting
      end
  end.

(** What the callback of a big image writes and pushes when nothing is
    rejected. *)
Definition image_file (cfg : Config) (env : Env) (pageName : string)
    (task : nat * string) : string :=
  media_file_path cfg env pageName image (fst task).

Definition image_trace (cfg : Config) (env : Env) (pageName : string)
    (task : nat * string) : list Event :=
  if big env (snd task) then
    EvDownload (snd task) (image_file cfg env pageName task)
    :: (if fetched env (snd task) (image_file cfg env pageName task) image
        then [] else [EvLog "Failed to download"])
  else [].

Definition image_pushed (cfg : Config) (env : Env) (pageName : string)
    (task : nat * string) : list MediaItem :=
  if big env (snd task) then
    [ {| media_type := image;
         media_path :=
           if fetched env (snd task) (image_file cfg env pageName task) image
           then Some (image_file cfg env pageName task) else None |} ]
  else [].

(** *** Worlds in which something fails *)

Module Trouble.

(** The world [env] with a [writeFile] that fails with the given error
    at the given stage. *)
Definition with_write (e : error) (stage : WriteStage) (env : Env) : Env :=
  {| build := build env; page_source := page_source env; quit := quit env;
     toISOString := toISOString env; date_now := date_now env;
     fs_open := fs_open env; http_get := http_get env;
     ffmpeg_save := ffmpeg_save env; fs_close := fs_close env;
     http_head := http_head env;
     fs_writeFile := Throw e; write_stage := stage;
     arrived := arrived env; channels_fetch := channels_fetch env;
     fs_stat := fs_stat env; channel_send := channel_send env;
     fs_unlink := fs_unlink env |}.

(** The world [env] with a data file that cannot be opened for writing. *)
Definition failing_write (env : Env) : Env :=
  with_write (Failure "EACCES") at_open env.

(** The world [env] with a disk that is full. *)
Definition full_disk (env : Env) : Env :=
  with_write (Failure "ENOSPC") at_write env.

(** The world [env] with a channel id Discord does not know. *)
Definition unknown_channel (env : Env) : Env :=
  {| build := build env; page_source := page_source env; quit := quit env;
     toISOString := toISOString env; date_now := date_now env;
     fs_open := fs_open env; http_get := http_get env;
     ffmpeg_save := ffmpeg_save env; fs_close := fs_close env;
     http_head := http_head env; fs_writeFile := fs_writeFile env;
     write_stage := write_stage env; arrived := arrived env;
     channels_fetch := fun _ => Throw (Failure "Unknown Channel");
     fs_stat := fs_stat env; channel_send := channel_send env;
     fs_unlink := fs_unlink env |}.

(** A post with a video and an image and no link preview. *)
Definition video_post : PostElement :=
  {| permalink_href := Some "/alpha/posts/400"; linkPreview := None;
     message := "a video"; video_src := Some (Some "https://v/1.mp4");
     images := [Some "https://i/1.jpg"] |}.

(** A link preview that is the redirect around the given target. *)
Definition wrapped_preview (target : string) : LinkPreview :=
  {| data_lynx_uri := Some (fb_wrap target); inner_href := None;
     closest_href := None; img_parent_href := None |}.

(** The page [__proto__] with a first post. *)
Definition proto_post : PostElement :=
  Scenario.plain_post (Some "/__proto__/posts/1").

(** A post with an icon, an image without source, an inline image and a
    photograph. *)
Definition gallery_post : PostElement :=
  {| permalink_href := Some "/alpha/posts/500"; linkPreview := None;
     message := "photos"; video_src := None;
     images := [Some "https://i/icon.png"; None;
                Some "data:image/gif;base64,R0lGOD";
                Some "https://i/photo.jpg"] |}.

(** The world of that post: the icon has 512 octets, everything else
    4096, and the callback of the photograph ends before the message is
    put together. *)
Definition gallery : Env :=
  {| build := Normal tt;
     page_source := fun _ => Normal (Some gallery_post);
     quit := Normal tt;
     toISOString := "2024-01-01T00:00:00.000Z";
     date_now := fun _ _ => "1704067200000";
     fs_open := fun _ => Normal tt;
     http_get := fun _ => Normal tt;
     ffmpeg_save := fun _ => Normal tt;
     fs_close := fun _ => Normal tt;
     http_head := fun u => if String.eqb u "https://i/icon.png"
                           then Normal (Some "512") else Normal (Some "4096");
     fs_writeFile := Normal tt;
     write_stage := at_open;
     arrived := [3%nat; 0%nat];
     channels_fetch := fun _ => Normal tt;
     fs_stat := fun _ => Normal 4096%Z;
     channel_send := Normal tt;
     fs_unlink := fun _ => Normal tt |}.

(** The check of that page from the empty store. *)
Definition gallery_check : completion unit * State * list Event :=
  check_page Scenario.the_cfg gallery Scenario.alpha Scenario.empty_state.

Definition bare_preview : LinkPreview :=
  {| data_lynx_uri := None; inner_href := None; closest_href := None;
     img_parent_href := None |}.

End Trouble.

(** * Properties *)

(** Case analysis over all 256 characters. *)
Ltac by_all_chars :=
  let c := fresh "c" in
  intros c; destruct c as [[] [] [] [] [] [] [] []]; vm_compute;
  try reflexivity; try discriminate.

(** Brings both sides of an equation of traces to one shape. *)
Ltac trace_eq :=
  repeat first [ rewrite <- app_assoc | rewrite <- app_comm_cons
               | rewrite app_nil_r | rewrite app_nil_l ];
  reflexivity.

(** ** Strings and the decoder *)

Lemma length_bytes_app bs s :
  String.length (bytes_app bs s) = (length bs + String.length s)%nat.
Proof. induction bs as [|b bs IH]; simpl; [reflexivity | now rewrite IH]. Qed.

(** Decoding never lengthens a string, and what keeps its length is left
    as it was; inside a multi-octet sequence every owed escape costs two
    characters. *)
Lemma decode_go_length n :
  forall s k acc r,
    (String.length s <= n)%nat ->
    decode_go k acc s = Some r ->
    match k with
    | O => (String.length r <= String.length s)%nat
           /\ (String.length r = String.length s -> r = s)
    | S _ => (String.length r + 2 * k <= String.length s + length acc)%nat
    end.
Proof.
  induction n as [|n IH]; intros s k acc r Hn H.
  - destruct s; simpl in Hn; [|lia].
    destruct k; simpl in H; [|discriminate].
    injection H as <-. split; auto.
  - destruct s as [|c s]; simpl in H.
    { destruct k; [|discriminate]. injection H as <-. split; auto. }
    simpl in Hn.
    destruct (Ascii.eqb c "%") eqn:Hc.
    + destruct s as [|h1 [|h2 s']]; try discriminate.
      simpl in Hn.
      destruct (hex_byte h1 h2) as [b|]; [|discriminate].
      destruct k as [|[|k']].
      * destruct (b <? 128)%N.
        -- destruct (decode_go 0 [] s') as [r'|] eqn:Hr; [|discriminate].
           simpl in H. injection H as <-.
           apply IH in Hr; [|lia]. simpl in *. lia.
        -- destruct (lead_len b) as [m|] eqn:Hm; [|discriminate].
           assert (Hm' : exists j, Nat.pred m = S j).
           { unfold lead_len in Hm.
             repeat match type of Hm with
                    | (if ?c then _ else _) = _ => destruct c
                    end; inversion Hm; simpl; eauto. }
           destruct Hm' as [j Hj]. rewrite Hj in H.
           apply IH in H; [|lia]. simpl in *. lia.
      * destruct (utf8_ok (acc ++ [b])); [|discriminate].
        destruct (decode_go 0 [] s') as [r'|] eqn:Hr; [|discriminate].
        simpl in H. injection H as <-.
        apply IH in Hr; [|lia]. rewrite length_bytes_app, length_app.
        simpl in *. lia.
      * apply IH in H; [|lia]. rewrite length_app in H. simpl in *. lia.
    + destruct k; [|discriminate].
      destruct (decode_go 0 [] s) as [r'|] eqn:Hr; [|discriminate].
      simpl in H. injection H as <-.
      apply IH in Hr; [|lia]. simpl. destruct Hr as [H1 H2]. split; [lia|].
      intros E. f_equal. apply H2. lia.
Qed.

Lemma decodeURIComponent_length s d :
  decodeURIComponent s = Normal d ->
  (String.length d <= String.length s)%nat
  /\ (String.length d = String.length s -> d = s).
Proof.
  unfold decodeURIComponent. intros H.
  destruct (decode_go 0 [] s) as [r|] eqn:Hr; [|discriminate].
  injection H as <-.
  exact (decode_go_length (String.length s) s 0%nat [] r (le_n _) Hr).
Qed.

(** The loop of [extractUrl] ends within the fuel [extractUrl_try] gives. *)
Lemma decode_loop_total fuel :
  forall s, (String.length s < fuel)%nat ->
    exists c, decode_loop fuel s = Some c.
Proof.
  induction fuel as [|fuel IH]; intros s Hlt; [lia|].
  cbn [decode_loop].
  destruct (decodeURIComponent s) as [d|e] eqn:Hd; [|eauto].
  destruct (String.eqb_spec (if startsWith d "http" then d else s) s)
    as [E|E]; [eauto|].
  destruct (startsWith d "http"); [|congruence].
  apply IH. apply decodeURIComponent_length in Hd as [H1 H2].
  destruct (Nat.eq_dec (String.length d) (String.length s)) as [L|L];
    [destruct (E (H2 L)) | lia].
Qed.


Lemma extractUrl_try_total url : exists c, extractUrl_try url = Some c.
Proof.
  unfold extractUrl_try.
  destruct (URL.searchParams url) as [ps|e]; [|eauto].
  match goal with |- context [match ?c with Normal _ => _ | Throw _ => _ end] =>
    destruct c as [c'|e'] end; [|eauto].
  apply decode_loop_total. lia.
Qed.

(** ** The URL normalizer *)


Lemma extractUrl_stable r :
  (forall fuel', decode_loop (S fuel') r = Some (Normal r)) ->
  no_wrapper r = true -> extractUrl r = r.
Proof.
  intros Hfix Hnw. unfold extractUrl, extractUrl_try. unfold no_wrapper in Hnw.
  destruct (URL.searchParams r) as [ps|e] eqn:Hps; [|reflexivity].
  destruct (URL.get "u" ps) eqn:Hu; [discriminate|].
  destruct (URL.get "url" ps) eqn:Hurl; [discriminate|].
  cbv beta zeta iota delta [cbind]. rewrite ?Hu, ?Hurl, Hfix. reflexivity.
Qed.


Lemma decode_go_plain s :
  all_chars (is_not "%") s = true -> decode_go 0 [] s = Some s.
Proof.
  induction s as [|c s IH]; [reflexivity|].
  cbn [all_chars]. intros [Hc Hs]%andb_prop.
  cbn [decode_go]. unfold is_not in Hc.
  destruct (Ascii.eqb c "%"); [discriminate|].
  now rewrite (IH Hs).
Qed.


Lemma all_chars_app P a b :
  all_chars P (a +:+ b) = all_chars P a && all_chars P b.
Proof.
  induction a as [|c a IH]; [reflexivity|].
  simpl. now rewrite IH, andb_assoc.
Qed.

Lemma all_chars_impl (P Q : ascii -> bool) s :
  (forall c, P c = true -> Q c = true) ->
  all_chars P s = true -> all_chars Q s = true.
Proof.
  intros HPQ. induction s as [|c s IH]; [reflexivity|].
  cbn [all_chars]. intros [Hc Hs]%andb_prop.
  now rewrite (HPQ c Hc), (IH Hs).
Qed.

Lemma hex_digits_safe c :
  enc_safe (hex_digit (N_of_ascii c / 16)) = true
  /\ enc_safe (hex_digit (N_of_ascii c mod 16)) = true.
Proof. revert c. by_all_chars; split; reflexivity. Qed.

Lemma hex_byte_digits c :
  hex_byte (hex_digit (N_of_ascii c / 16)) (hex_digit (N_of_ascii c mod 16))
  = Some (N_of_ascii c).
Proof. revert c. by_all_chars. Qed.

Lemma enc_safe_visible : forall c, enc_safe c = true -> visible c = true.
Proof. by_all_chars. Qed.

Lemma enc_safe_is_not d :
  enc_safe d = false -> forall c, enc_safe c = true -> is_not d c = true.
Proof.
  intros Hd c Hc. unfold is_not. destruct (Ascii.eqb_spec c d) as [->|]; [|reflexivity].
  congruence.
Qed.

Lemma encodeURIComponent_safe t :
  all_chars enc_safe (encodeURIComponent t) = true.
Proof.
  induction t as [|c t IH]; [reflexivity|].
  cbn [encodeURIComponent]. destruct (unreserved c) eqn:Hc.
  - cbn [all_chars]. unfold enc_safe at 1. now rewrite Hc, IH.
  - destruct (hex_digits_safe c) as [H1 H2].
    cbn [all_chars]. now rewrite H1, H2, IH.
Qed.

Lemma unreserved_plain c :
  unreserved c = true -> Ascii.eqb c "+" = false /\ Ascii.eqb c "%" = false.
Proof. revert c. by_all_chars; split; reflexivity. Qed.



Lemma clean_visible s : all_chars visible s = true -> URL.clean s = s.
Proof.
  induction s as [|c s IH]; [reflexivity|].
  cbn [all_chars]. intros [Hc Hs]%andb_prop.
  cbn [URL.clean]. rewrite (IH Hs).
  assert (Ht : URL.is_tab_or_newline c = false).
  { revert Hc. clear. revert c. by_all_chars. }
  rewrite Ht. unfold visible in Hc. apply negb_true_iff in Hc. rewrite Hc.
  now destruct s.
Qed.

Lemma split_head_none sep s :
  all_chars (is_not sep) s = true -> split_head sep s = s.
Proof.
  induction s as [|c s IH]; [reflexivity|].
  cbn [all_chars split_head]. intros [Hc Hs]%andb_prop.
  unfold is_not in Hc. apply negb_true_iff in Hc. now rewrite Hc, (IH Hs).
Qed.

Lemma append_cons c a b : String c a +:+ b = String c (a +:+ b).
Proof. reflexivity. Qed.

Lemma append_empty_r s : s +:+ EmptyString = s.
Proof.
  induction s as [|c s IH]; [reflexivity | now rewrite append_cons, IH].
Qed.

Lemma append_snoc a c b : (a +:+ String c EmptyString) +:+ b = a +:+ String c b.
Proof.
  induction a as [|d a IH]; [reflexivity | now rewrite !append_cons, IH].
Qed.

Lemma split_all_none sep s :
  forall cur, all_chars (is_not sep) s = true ->
              URL.split_all sep cur s = [cur +:+ s].
Proof.
  induction s as [|c s IH]; intros cur.
  - intros _. cbn [URL.split_all]. now rewrite append_empty_r.
  - cbn [all_chars URL.split_all]. intros [Hc Hs]%andb_prop.
    unfold is_not in Hc. apply negb_true_iff in Hc. rewrite Hc, (IH _ Hs).
    now rewrite append_snoc.
Qed.

(** What the URL parser makes of the wrapper around a target that is
    written out as it is. *)
Lemma searchParams_wrapper t :
  all_chars visible t = true -> all_chars (is_not "#") t = true ->
  all_chars (is_not "&") t = true ->
  URL.searchParams ("https://l.facebook.com/l.php?u=" +:+ t)
  = Normal [("u", URL.form_decode t)].
Proof.
  intros Hvis Hhash Hamp. unfold URL.searchParams.
  change (URL.strip_leading ("https://l.facebook.com/l.php?u=" +:+ t))
    with ("https://l.facebook.com/l.php?u=" +:+ t).
  rewrite clean_visible.
  2:{ rewrite all_chars_app. apply andb_true_intro. split; [reflexivity|].
      exact Hvis. }
  change (URL.scheme ("https://l.facebook.com/l.php?u=" +:+ t))
    with (Some ("https", "//l.facebook.com/l.php?u=" +:+ t)).
  cbv iota beta.
  change (URL.is_special "https") with true.
  change (URL.authority (URL.skip_slashes ("//l.facebook.com/l.php?u=" +:+ t)))
    with "l.facebook.com".
  cbn [URL.nonempty negb andb].
  f_equal. unfold URL.query.
  rewrite split_head_none.
  2:{ rewrite all_chars_app. apply andb_true_intro. split; [reflexivity|].
      exact Hhash. }
  change (split_rest "?" ("//l.facebook.com/l.php?u=" +:+ t))
    with (Some ("u=" +:+ t)).
  unfold URL.parse_query. rewrite split_all_none.
  2:{ rewrite all_chars_app. apply andb_true_intro. split; [reflexivity|].
      exact Hamp. }
  change (EmptyString +:+ ("u=" +:+ t)) with (String "u" (String "=" t)).
  rewrite filter_cons_True by reflexivity. rewrite filter_nil.
  cbn [map]. unfold URL.pair_of.
  change (split_head "=" (String "u" (String "=" t))) with "u".
  change (split_rest "=" (String "u" (String "=" t))) with (Some t).
  reflexivity.
Qed.

Lemma split_all_app_sep sep a rest :
  forall cur, all_chars (is_not sep) a = true ->
              URL.split_all sep cur (a +:+ String sep rest)
              = (cur +:+ a) :: URL.split_all sep EmptyString rest.
Proof.
  induction a as [|c a IH]; intros cur.
  - intros _. change (EmptyString +:+ String sep rest) with (String sep rest).
    cbn [URL.split_all]. now rewrite Ascii.eqb_refl, append_empty_r.
  - cbn [all_chars]. intros [Hc Ha]%andb_prop. rewrite append_cons.
    cbn [URL.split_all]. unfold is_not in Hc. apply negb_true_iff in Hc.
    now rewrite Hc, (IH _ Ha), append_snoc.
Qed.

(** The same with more parameters after the first. *)
Lemma searchParams_wrapper_fields e rest :
  all_chars visible e = true -> all_chars (is_not "#") e = true ->
  all_chars (is_not "&") e = true ->
  all_chars visible rest = true -> all_chars (is_not "#") rest = true ->
  URL.searchParams ("https://l.facebook.com/l.php?u=" +:+ e +:+ String "&" rest)
  = Normal (("u", URL.form_decode e) :: URL.parse_query rest).
Proof.
  intros Hvis Hhash Hamp Hvis' Hhash'.
  set (t := e +:+ String "&" rest).
  assert (Htv : all_chars visible t = true).
  { unfold t. rewrite all_chars_app. cbn [all_chars]. now rewrite Hvis, Hvis'. }
  assert (Hth : all_chars (is_not "#") t = true).
  { unfold t. rewrite all_chars_app. cbn [all_chars]. now rewrite Hhash, Hhash'. }
  unfold URL.searchParams.
  change (URL.strip_leading ("https://l.facebook.com/l.php?u=" +:+ t))
    with ("https://l.facebook.com/l.php?u=" +:+ t).
  rewrite clean_visible.
  2:{ rewrite all_chars_app. apply andb_true_intro. split; [reflexivity|].
      exact Htv. }
  change (URL.scheme ("https://l.facebook.com/l.php?u=" +:+ t))
    with (Some ("https", "//l.facebook.com/l.php?u=" +:+ t)).
  cbv iota beta.
  change (URL.is_special "https") with true.
  change (URL.authority (URL.skip_slashes ("//l.facebook.com/l.php?u=" +:+ t)))
    with "l.facebook.com".
  cbn [URL.nonempty negb andb].
  f_equal. unfold URL.query.
  rewrite split_head_none.
  2:{ rewrite all_chars_app. apply andb_true_intro. split; [reflexivity|].
      exact Hth. }
  change (split_rest "?" ("//l.facebook.com/l.php?u=" +:+ t))
    with (Some ("u=" +:+ t)).
  unfold URL.parse_query, t.
  change ("u=" +:+ e +:+ String "&" rest)
    with (("u=" +:+ e) +:+ String "&" rest).
  rewrite split_all_app_sep.
  2:{ rewrite all_chars_app. apply andb_true_intro. split; [reflexivity|].
      exact Hamp. }
  change (EmptyString +:+ ("u=" +:+ e)) with (String "u" (String "=" e)).
  rewrite filter_cons_True by reflexivity.
  cbn [map]. unfold URL.pair_of at 1.
  change (split_head "=" (String "u" (String "=" e))) with "u".
  change (split_rest "=" (String "u" (String "=" e))) with (Some e).
  reflexivity.
Qed.





(** ** Decimal numerals and [parseInt] *)

Lemma read_digits_decimal s :
  all_chars is_digit s = true ->
  forall a, read_digits digit_val 10 (Some a) s
            = Some (a * 10 ^ Z.of_nat (String.length s) + decimal_value s)%Z.
Proof.
  induction s as [|c s IH]; intros Hs a.
  - cbn. f_equal. lia.
  - cbn [all_chars] in Hs. apply andb_prop in Hs as [Hc Hs].
    cbn [read_digits]. unfold digit_val. unfold is_digit in Hc. rewrite Hc.
    rewrite (IH Hs). f_equal. cbn [decimal_value String.length].
    rewrite Nat2Z.inj_succ, Z.pow_succ_r by lia. ring.
Qed.

Lemma digit_facts c :
  is_digit c = true ->
  is_ascii_space c = false /\ Ascii.eqb c "-" = false
  /\ Ascii.eqb c "+" = false /\ Ascii.eqb "x" c = false
  /\ Ascii.eqb "X" c = false /\ Ascii.eqb c " " = false.
Proof. revert c. by_all_chars; repeat split. Qed.

(** [parseInt] reads a numeral made of decimal digits as its value. *)
Lemma parseInt_decimal s :
  s <> EmptyString -> all_chars is_digit s = true ->
  parseInt s = Num (decimal_value s).
Proof.
  destruct s as [|c s]; [congruence|]. intros _ Hs.
  pose proof Hs as Hs'. cbn [all_chars] in Hs'.
  apply andb_prop in Hs' as [Hc Hr].
  destruct (digit_facts c Hc) as (H1 & H2 & H3 & _).
  unfold parseInt. cbn [skip_space]. rewrite H1, H2, H3.
  assert (Hx : startsWith (String c s) "0x" || startsWith (String c s) "0X" = false).
  { cbn [startsWith]. destruct (Ascii.eqb "0" c); [|reflexivity].
    destruct s as [|d s]; [reflexivity|].
    cbn [all_chars] in Hr. apply andb_prop in Hr as [Hd _].
    destruct (digit_facts d Hd) as (_ & _ & _ & H4 & H5 & _).
    now rewrite H4, H5. }
  rewrite Hx. cbn [read_digits]. unfold digit_val at 1.
  unfold is_digit in Hc. rewrite Hc.
  rewrite (read_digits_decimal s Hr). cbn [decimal_value].
  f_equal; ring.
Qed.

(** ** C9: the check interval *)

(** Whatever does not begin with [*/] in its first field is refused. *)
Lemma parseCheckInterval_rejects p :
  startsWith (split_head " " p) "*/" = false ->
  exists e, parseCheckInterval p = Throw e.
Proof. intros H. unfold parseCheckInterval. rewrite H. eauto. Qed.

Lemma split_head_app_sep sep a b :
  all_chars (is_not sep) a = true ->
  split_head sep (a +:+ String sep b) = a.
Proof.
  induction a as [|c a IH].
  - intros _. change (EmptyString +:+ String sep b) with (String sep b).
    cbn [split_head]. now rewrite Ascii.eqb_refl.
  - cbn [all_chars]. intros [Hc Ha]%andb_prop. rewrite append_cons.
    cbn [split_head]. unfold is_not in Hc. apply negb_true_iff in Hc.
    now rewrite Hc, (IH Ha).
Qed.

(** The first field [*/N] of a pattern gives N times 60000, as long as
    the product is an integer a double holds exactly. *)
Lemma parseCheckInterval_minutes n rest :
  n <> EmptyString -> all_chars is_digit n = true ->
  (decimal_value n * 60000 <= 2 ^ 53)%Z ->
  parseCheckInterval ("*/" +:+ n +:+ String " " rest)
  = Normal (Num (decimal_value n * 60000)).
Proof.
  intros Hn Hd _. unfold parseCheckInterval.
  change ("*/" +:+ n +:+ String " " rest)
    with (("*/" +:+ n) +:+ String " " rest).
  rewrite split_head_app_sep.
  2:{ change ("*/" +:+ n) with (String "*" (String "/" n)).
      cbn [all_chars]. change (is_not " " "*") with true.
      change (is_not " " "/") with true. cbn [andb].
      eapply all_chars_impl; [|exact Hd].
      intros c Hc. unfold is_not. destruct (digit_facts c Hc) as (_&_&_&_&_&H).
      now rewrite H. }
  change (startsWith ("*/" +:+ n) "*/") with true. cbv iota.
  change (substring_from 2 ("*/" +:+ n)) with n.
  rewrite (parseInt_decimal n Hn Hd). cbn [mul]. do 2 f_equal. ring.
Qed.

(** C9: a first field that begins with [*/] and goes on without a number is
    not refused: [parseInt] gives NaN and so does the interval, where the
    specification has the pattern rejected at startup. *)
Theorem parseCheckInterval_accepts_non_number :
  parseCheckInterval "*/x * * * *" = Normal NaN.
Proof. reflexivity. Qed.

(** ** What a computation may change and write *)

Section Sat.

Variable R : relation State.
Variable P : Event -> Prop.
Hypothesis R_pre : PreOrder R.

Lemma sat_ret {A} (a : A) : sat R P (ret a).
Proof. intros s. split; [reflexivity | constructor]. Qed.

Lemma sat_lift {A} (c : completion A) : sat R P (lift c).
Proof. intros s. split; [reflexivity | constructor]. Qed.

Lemma sat_get_state : sat R P get_state.
Proof. intros s. split; [reflexivity | constructor]. Qed.

Lemma sat_emit e : P e -> sat R P (emit e).
Proof. intros He s. split; [reflexivity | repeat constructor; exact He]. Qed.

Lemma sat_bind {A B} (m : M A) (k : A -> M B) :
  sat R P m -> (forall a, sat R P (k a)) -> sat R P (bind m k).
Proof.
  intros Hm Hk s. unfold bind. specialize (Hm s).
  destruct (m s) as [[[a|e] s1] t1]; cbn in *; [|exact Hm].
  specialize (Hk a s1). destruct (k a s1) as [[r s2] t2]; cbn in *.
  destruct Hm as [Hm1 Hm2], Hk as [Hk1 Hk2].
  split; [etransitivity; eassumption | apply Forall_app; auto].
Qed.

Lemma sat_try_catch {A} (m : M A) (h : error -> M A) :
  sat R P m -> (forall e, sat R P (h e)) -> sat R P (try_catch m h).
Proof.
  intros Hm Hh s. unfold try_catch. specialize (Hm s).
  destruct (m s) as [[[a|e] s1] t1]; cbn in *; [exact Hm|].
  specialize (Hh e s1). destruct (h e s1) as [[r s2] t2]; cbn in *.
  destruct Hm as [Hm1 Hm2], Hh as [Hh1 Hh2].
  split; [etransitivity; eassumption | apply Forall_app; auto].
Qed.

Lemma sat_try_finally {A} (m : M A) (f : M unit) :
  sat R P m -> sat R P f -> sat R P (try_finally m f).
Proof.
  intros Hm Hf s. unfold try_finally. specialize (Hm s).
  destruct (m s) as [[r s1] t1]; cbn in *.
  specialize (Hf s1). destruct (f s1) as [[[u|e] s2] t2]; cbn in *;
    destruct Hm as [Hm1 Hm2], Hf as [Hf1 Hf2];
    (split; [etransitivity; eassumption | apply Forall_app; auto]).
Qed.

Lemma sat_for_each {A} (f : A -> M unit) l :
  (forall a, sat R P (f a)) -> sat R P (for_each f l).
Proof.
  intros Hf. induction l as [|a l IH]; cbn [for_each];
    [apply sat_ret | apply sat_bind; auto].
Qed.

End Sat.

Lemma sat_weaken {A} (R R' : relation State) (P P' : Event -> Prop) (m : M A) :
  (forall s s', R s s' -> R' s s') -> (forall e, P e -> P' e) ->
  sat R P m -> sat R' P' m.
Proof.
  intros HR HP Hm s. destruct (Hm s) as [H1 H2]. split; [auto|].
  eapply Forall_impl; eauto.
Qed.

#[global] Instance same_store_pre : PreOrder same_store.
Proof.
  split; [intros s; split; reflexivity|].
  intros a b c [H1 H2] [H3 H4]. split; congruence.
Qed.

#[global] Instance same_but_files_pre : PreOrder same_but_files.
Proof.
  split; [intros s; repeat split; reflexivity|].
  intros a b c (H1 & H2 & H3) (H4 & H5 & H6). repeat split; congruence.
Qed.

#[global] Instance eq_state_pre : PreOrder (@eq State).
Proof. split; [intros s; reflexivity | intros a b c; congruence]. Qed.

Lemma sat_set_media_files (P : Event -> Prop) fs :
  sat same_but_files P (set_media_files fs).
Proof. intros s. split; [repeat split | constructor]. Qed.

Lemma sat_set_pending (P : Event -> Prop) p : sat same_store P (set_pending p).
Proof. intros s. split; [repeat split | constructor]. Qed.

(** Takes apart a computation built from the combinators. *)
Ltac sat_step :=
  lazymatch goal with
  | |- sat _ _ (bind _ _) => apply sat_bind; [typeclasses eauto | | intros ?]
  | |- sat _ _ (try_catch _ _) =>
      apply sat_try_catch; [typeclasses eauto | | intros ?]
  | |- sat _ _ (try_finally _ _) =>
      apply sat_try_finally; [typeclasses eauto | | ]
  | |- sat _ _ (emit _) => apply sat_emit; [typeclasses eauto | exact I]
  | |- sat _ _ (ret _) => apply sat_ret; typeclasses eauto
  | |- sat _ _ (lift _) => apply sat_lift; typeclasses eauto
  | |- sat _ _ get_state => apply sat_get_state; typeclasses eauto
  end.

Section CycleFacts.

Variable cfg : Config.
Variable env : Env.

Lemma downloadMedia_sat pageName url type index :
  sat same_but_files is_fetch (downloadMedia cfg env pageName url type index).
Proof.
  unfold downloadMedia. repeat sat_step; try apply sat_set_media_files.
  destruct type; sat_step.
Qed.

Lemma extractUrl_logged_sat u : sat eq is_log (extractUrl_logged u).
Proof.
  unfold extractUrl_logged.
  destruct (extractUrl_try u) as [[r|e]|]; repeat sat_step.
Qed.

Lemma extract_link_sat lp : sat eq is_log (extract_link lp).
Proof.
  unfold extract_link. repeat sat_step; try apply extractUrl_logged_sat.
  match goal with |- context [startsWith ?a ?b] => destruct (startsWith a b) end;
    [sat_step|].
  destruct (truthy (img_parent_href lp)); repeat sat_step.
  apply extractUrl_logged_sat.
Qed.

Lemma extract_video_sat pageName post :
  sat same_but_files is_fetch (extract_video cfg env pageName post).
Proof.
  unfold extract_video. destruct (video_src post) as [src|]; [|sat_step].
  destruct (truthy src); repeat sat_step. apply downloadMedia_sat.
Qed.

Lemma spawn_images_sat imgs :
  forall i, sat same_store is_extract (spawn_images i imgs).
Proof.
  induction imgs as [|img imgs IH]; intros i; cbn [spawn_images];
    [sat_step|].
  sat_step; [|apply IH]. unfold spawn_image.
  destruct (truthy img && startsWith (to_String img) "http");
    repeat sat_step. apply sat_set_pending.
Qed.

Lemma same_but_files_store s s' : same_but_files s s' -> same_store s s'.
Proof. intros (H1 & H2 & _). split; assumption. Qed.

Lemma eq_same_store (s s' : State) : s = s' -> same_store s s'.
Proof. intros <-. reflexivity. Qed.

Lemma is_fetch_extract e : is_fetch e -> is_extract e.
Proof. destruct e; cbn; tauto. Qed.

Lemma is_log_extract e : is_log e -> is_extract e.
Proof. destruct e; cbn; tauto. Qed.

Lemma extract_content_sat pageName post :
  sat same_store is_extract (extract_content cfg env pageName post).
Proof.
  unfold extract_content. sat_step.
  - destruct (linkPreview post) as [lp|]; [|sat_step].
    eapply sat_weaken; [apply eq_same_store | apply is_log_extract |].
    apply extract_link_sat.
  - destruct a; repeat sat_step; [|apply spawn_images_sat].
    eapply sat_weaken;
      [apply same_but_files_store | apply is_fetch_extract |].
    apply extract_video_sat.
Qed.

(** What [extract_content] puts into the content, and the exclusion of
    link and media. *)
Lemma extract_content_fields pageName post s c s1 t1 :
  extract_content cfg env pageName post s = (Normal c, s1, t1) ->
  content_url c = fullPostUrl_of post
  /\ timestamp c = toISOString env
  /\ text c = message post
  /\ (embeddedLink c <> None -> media c = [] /\ s1 = s /\ Forall is_log t1)
  /\ (media c <> [] -> embeddedLink c = None).
Proof.
  unfold extract_content, bind.
  set (link := match linkPreview post with
               | Some lp => extract_link lp
               | None => ret None
               end).
  assert (Hlink : sat eq is_log link).
  { unfold link. destruct (linkPreview post); [apply extract_link_sat|sat_step]. }
  specialize (Hlink s).
  destruct (link s) as [[[emb|e] s0] t0]; [|discriminate].
  cbn in Hlink. destruct Hlink as [<- Hlog].
  destruct emb as [l|].
  - unfold ret. intros H. injection H as <- <- <-. cbn.
    rewrite app_nil_r. repeat split; auto; congruence.
  - destruct (extract_video cfg env pageName post s) as [[[v|e] s2] t2];
      [|discriminate].
    destruct (spawn_images 0 (images post) s2) as [[[u|e] s3] t3];
      [|discriminate].
    unfold ret. intros H. injection H as <- <- <-. cbn.
    repeat split; auto; congruence.
Qed.

(** *** The cases of [processWebPost] *)

Lemma processWebPost_commit pageName s c s1 t1 :
  novel_extraction cfg env pageName s c s1 t1 ->
  processWebPost cfg env pageName s
  = (match quit env with
     | Throw e => Throw e
     | Normal _ => match fs_writeFile env with
                   | Throw e => Throw e
                   | Normal _ => Normal (Some c)
                   end
     end,
     committed env pageName c s1,
     t1 ++ [EvWriteFile (<[pageName := record_of c]> (storage s1))]).
Proof.
  intros (u & post & Hb & Hp & Hseen & Hx).
  unfold processWebPost, bind, lift, try_finally, get_state, commit,
    set_storage, emit, ret, committed, written, record_of.
  fold (page_url cfg pageName).
  rewrite Hb, Hp, Hseen, Hx. cbn [storage data_file media_files pending].
  destruct (fs_writeFile env) as [[]|e], (write_stage env),
    (quit env) as [[]|e'];
    cbn; rewrite ?app_nil_r; reflexivity.
Qed.

Lemma processWebPost_skip pageName s :
  (forall c s1 t1, ~ novel_extraction cfg env pageName s c s1 t1) ->
  same_store s (processWebPost cfg env pageName s).1.2
  /\ Forall is_extract (processWebPost cfg env pageName s).2
  /\ forall c, (processWebPost cfg env pageName s).1.1 <> Normal (Some c).
Proof.
  intros Hno.
  unfold processWebPost, bind, lift, try_finally, get_state, ret.
  fold (page_url cfg pageName).
  destruct (build env) as [u|e] eqn:Hb;
    [|cbn; repeat split; [constructor | congruence]].
  destruct (page_source env (page_url cfg pageName)) as [[post|]|e] eqn:Hp.
  - destruct (already_seen s pageName (fullPostUrl_of post)) eqn:Hseen.
    + destruct (quit env); cbn; repeat split; try constructor; congruence.
    + pose proof (extract_content_sat pageName post s) as [Hst Hev].
      destruct (extract_content cfg env pageName post s)
        as [[[c|e] s1] t1] eqn:Hx.
      * destruct (Hno c s1 t1). exists u, post. auto.
      * cbn in Hst, Hev. destruct Hst as [H1 H2].
        destruct (quit env); cbn; rewrite ?app_nil_r;
          repeat split; auto; congruence.
  - destruct (quit env); cbn; repeat split; try constructor; congruence.
  - destruct (quit env); cbn; repeat split; try constructor; congruence.
Qed.

Lemma novel_extraction_dec pageName s :
  (exists c s1 t1, novel_extraction cfg env pageName s c s1 t1)
  \/ (forall c s1 t1, ~ novel_extraction cfg env pageName s c s1 t1).
Proof.
  unfold novel_extraction.
  destruct (build env) as [u|e] eqn:Hb;
    [|right; intros c s1 t1 (u & post & H & _); discriminate].
  destruct (page_source env (page_url cfg pageName)) as [[post|]|e] eqn:Hp;
    [|right; intros c s1 t1 (u' & post' & _ & H & _); discriminate ..].
  destruct (already_seen s pageName (fullPostUrl_of post)) eqn:Hseen;
    [right; intros c s1 t1 (u' & post' & _ & H & H' & _);
     injection H as <-; congruence|].
  destruct (extract_content cfg env pageName post s) as [[[c|e] s1] t1] eqn:Hx.
  - left. exists c, s1, t1, u, post. auto.
  - right. intros c s1' t1' (u' & post' & _ & H & _ & H').
    injection H as <-. congruence.
Qed.

Lemma novel_extraction_store pageName s c s1 t1 :
  novel_extraction cfg env pageName s c s1 t1 ->
  storage s1 = storage s /\ data_file s1 = data_file s
  /\ Forall is_extract t1.
Proof.
  intros (u & post & _ & _ & _ & Hx).
  pose proof (extract_content_sat pageName post s) as [[H1 H2] H3].
  rewrite Hx in H1, H2, H3. auto.
Qed.

(** A content is returned only after a novel extraction. *)
Lemma processWebPost_returns pageName s c :
  (processWebPost cfg env pageName s).1.1 = Normal (Some c) ->
  exists s1 t1, novel_extraction cfg env pageName s c s1 t1.
Proof.
  intros H. destruct (novel_extraction_dec pageName s) as [(c' & s1 & t1 & Hn)|Hno].
  - rewrite (processWebPost_commit _ _ _ _ _ Hn) in H. cbn in H.
    destruct (quit env); [|discriminate].
    destruct (fs_writeFile env); [|discriminate].
    injection H as <-. eauto.
  - destruct (processWebPost_skip pageName s Hno) as (_ & _ & H').
    destruct (H' c H).
Qed.

Lemma is_extract_not_write e : is_extract e -> ~ is_write e.
Proof. destruct e; cbn; tauto. Qed.

End CycleFacts.

(** ** C1: the record is updated exactly by a novel extraction *)

Section StoreInvariant.

Variable cfg : Config.
Variable env : Env.

(** X22: After [processWebPost] the record of the page differs from
    what it was if and only if a novel post was extracted in this check.
    A duplicate, a page without a post element, and an error of the
    browser, of the page load or of the extraction leave the [posts]
    object and the data file as they were, with no write of the file.  A
    novel post sets the record to its url and timestamp, [writeFile] is
    called with the object, and when the write succeeds the file holds the
    own properties of the object: every record but one assigned under
    [__proto__]. *)
Theorem record_updated_iff_novel (pageName : string) (s : State) :
  let r := processWebPost cfg env pageName s in
  let s' := r.1.2 in
  ((exists c s1 t1, novel_extraction cfg env pageName s c s1 t1)
   <-> storage s' !! pageName <> storage s !! pageName)
  /\ (forall post,
        page_source env (page_url cfg pageName) = Normal (Some post) ->
        already_seen s pageName (fullPostUrl_of post) = true ->
        storage s' = storage s /\ data_file s' = data_file s
        /\ Forall (fun e => ~ is_write e) r.2)
  /\ (page_source env (page_url cfg pageName) = Normal None ->
      storage s' = storage s /\ data_file s' = data_file s
      /\ Forall (fun e => ~ is_write e) r.2)
  /\ ((forall c s1 t1, ~ novel_extraction cfg env pageName s c s1 t1) ->
      storage s' = storage s /\ data_file s' = data_file s
      /\ Forall (fun e => ~ is_write e) r.2)
  /\ (forall c s1 t1,
        novel_extraction cfg env pageName s c s1 t1 ->
        storage s' = <[pageName := {| rec_url := content_url c;
                                      rec_timestamp := timestamp c |}]>
                       (storage s)
        /\ In (EvWriteFile (storage s')) r.2
        /\ (forall u, fs_writeFile env = Normal u ->
                      data_file s' = Some (own_properties (storage s')))).
Proof.
  intros r s'.
  assert (Hskip : (forall c s1 t1, ~ novel_extraction cfg env pageName s c s1 t1) ->
                  storage s' = storage s /\ data_file s' = data_file s
                  /\ Forall (fun e => ~ is_write e) r.2).
  { intros Hno. destruct (processWebPost_skip cfg env pageName s Hno)
      as ([H1 H2] & H3 & _).
    repeat split; auto.
    eapply Forall_impl; [exact H3|]. intros e. apply is_extract_not_write. }
  assert (Hnovel : forall c s1 t1,
             novel_extraction cfg env pageName s c s1 t1 ->
             storage s' = <[pageName := record_of c]> (storage s)
             /\ In (EvWriteFile (storage s')) r.2
             /\ (forall u, fs_writeFile env = Normal u ->
                           data_file s' = Some (own_properties (storage s')))).
  { intros c s1 t1 Hn. unfold s', r.
    rewrite (processWebPost_commit _ _ _ _ _ _ _ Hn).
    destruct (novel_extraction_store _ _ _ _ _ _ _ Hn) as (E1 & E2 & _).
    cbn [fst snd committed storage data_file]. rewrite E1.
    split; [reflexivity|]. split.
    - apply in_or_app. right. left. reflexivity.
    - intros u Hu. unfold written. now rewrite Hu. }
  split; [|split; [|split; [|split]]].
  - split.
    + intros (c & s1 & t1 & Hn).
      destruct (Hnovel c s1 t1 Hn) as (E & _). rewrite E, lookup_insert_eq.
      destruct Hn as (u & post & _ & _ & Hseen & Hx).
      destruct (extract_content_fields _ _ _ _ _ _ _ _ Hx) as (Hu & _).
      unfold already_seen in Hseen. apply bool_decide_eq_false in Hseen.
      intros Heq. apply Hseen. rewrite <- Heq. cbn. now rewrite Hu.
    + intros Hne. destruct (novel_extraction_dec cfg env pageName s) as [H|H];
        [exact H|].
      destruct (Hskip H) as (E & _). rewrite E in Hne. now destruct Hne.
  - intros post Hp Hseen. apply Hskip.
    intros c s1 t1 (u & post' & _ & Hp' & Hseen' & _).
    rewrite Hp in Hp'. injection Hp' as <-. congruence.
  - intros Hp. apply Hskip.
    intros c s1 t1 (u & post' & _ & Hp' & _). congruence.
  - exact Hskip.
  - exact Hnovel.
Qed.

End StoreInvariant.

(** ** C3, C7, C10: the novelty check and what follows it *)

Section Extractor.

Variable cfg : Config.
Variable env : Env.

Lemma already_seen_stored s pageName rec url :
  storage s !! pageName = Some rec -> rec_url rec = url ->
  already_seen s pageName url = true.
Proof.
  intros H <-. unfold already_seen. apply bool_decide_eq_true.
  now rewrite H.
Qed.

Lemma processWebPost_duplicate pageName s post u :
  build env = Normal u ->
  page_source env (page_url cfg pageName) = Normal (Some post) ->
  already_seen s pageName (fullPostUrl_of post) = true ->
  processWebPost cfg env pageName s
  = (match quit env with
     | Normal _ => Normal None
     | Throw e => Throw e
     end, s, []).
Proof.
  intros Hb Hp Hseen.
  unfold processWebPost, bind, lift, try_finally, get_state, ret.
  fold (page_url cfg pageName). rewrite Hb, Hp, Hseen.
  destruct (quit env); reflexivity.
Qed.

Lemma monitorPage_duplicate pageConfig s post u :
  build env = Normal u ->
  page_source env (page_url cfg (fst pageConfig)) = Normal (Some post) ->
  already_seen s (fst pageConfig) (fullPostUrl_of post) = true ->
  monitorPage cfg env pageConfig s
  = (Normal tt, s, match quit env with
                   | Normal _ => []
                   | Throw _ => [EvLog "Error processing page"]
                   end).
Proof.
  intros Hb Hp Hseen. unfold monitorPage, try_catch, bind.
  rewrite (processWebPost_duplicate _ _ _ _ Hb Hp Hseen).
  destruct (quit env); reflexivity.
Qed.

(** C3: When the stored url of the page is the permalink of the
    first post (query string stripped), [processWebPost] returns null
    at once: the state is what it was (the [posts] object, the data
    file, the media directory, the waiting callbacks) and no event is
    written, so no link preview is looked at, no HEAD request sent, no
    media downloaded and no store write made; [monitorPage] sends
    nothing. *)
Theorem duplicate_returns_null (pageConfig : string * string) (s : State)
    (post : PostElement) (rec : SeenPostRecord) (u : unit) :
  build env = Normal u ->
  page_source env (page_url cfg (fst pageConfig)) = Normal (Some post) ->
  storage s !! fst pageConfig = Some rec ->
  rec_url rec = fullPostUrl_of post ->
  processWebPost cfg env (fst pageConfig) s
  = (match quit env with
     | Normal _ => Normal None
     | Throw e => Throw e
     end, s, [])
  /\ exists logs,
      monitorPage cfg env pageConfig s = (Normal tt, s, logs)
      /\ Forall is_log logs.
Proof.
  intros Hb Hp Hrec Hurl.
  pose proof (already_seen_stored _ _ _ _ Hrec Hurl) as Hseen.
  split; [now apply (processWebPost_duplicate _ _ _ _ Hb Hp)|].
  rewrite (monitorPage_duplicate _ _ _ _ Hb Hp Hseen).
  eexists. split; [reflexivity|].
  destruct (quit env); repeat constructor.
Qed.

(** C7: In every content [processWebPost] returns, a link and media
    exclude each other.  With an embedded link the media are empty and
    none was looked for: no HEAD request, no download, no file in the
    media directory and no image callback left waiting that could push
    one later.  With a medium in it the content has no embedded link. *)
Theorem link_excludes_media (pageName : string) (s s' : State)
    (c : Content) (t : list Event) :
  processWebPost cfg env pageName s = (Normal (Some c), s', t) ->
  (embeddedLink c <> None ->
     media c = [] /\ pending s' = pending s
     /\ media_files s' = media_files s
     /\ Forall (fun e => ~ is_media_event e) t)
  /\ (media c <> [] -> embeddedLink c = None).
Proof.
  intros H.
  destruct (processWebPost_returns cfg env pageName s c) as (s1 & t1 & Hn);
    [now rewrite H|].
  rewrite (processWebPost_commit _ _ _ _ _ _ _ Hn) in H.
  injection H as _ <- <-.
  destruct Hn as (u & post & _ & _ & _ & Hx).
  destruct (extract_content_fields _ _ _ _ _ _ _ _ Hx)
    as (_ & _ & _ & Hlink & Hmedia).
  split; [|exact Hmedia].
  intros Hl. destruct (Hlink Hl) as (Hm & -> & Hlog).
  repeat split; auto.
  apply Forall_app. split.
  - eapply Forall_impl; [exact Hlog|]. intros e; destruct e; cbn; tauto.
  - repeat constructor. cbn. tauto.
Qed.

(** A novel post without a permalink is committed with the url null. *)
Lemma no_permalink_commits_null pageName s post c s1 t1 :
  novel_extraction cfg env pageName s c s1 t1 ->
  page_source env (page_url cfg pageName) = Normal (Some post) ->
  fullPostUrl_of post = None ->
  rec_url <$> storage (processWebPost cfg env pageName s).1.2 !! pageName
  = Some None.
Proof.
  intros Hn Hp Hnone.
  rewrite (processWebPost_commit _ _ _ _ _ _ _ Hn). cbn.
  rewrite lookup_insert_eq. cbn.
  destruct Hn as (u & post' & _ & Hp' & _ & Hx).
  rewrite Hp in Hp'. injection Hp' as <-.
  destruct (extract_content_fields _ _ _ _ _ _ _ _ Hx) as (-> & _).
  now rewrite Hnone.
Qed.

End Extractor.

(** ** Computations that never throw *)

Lemma nothrow_ret {A} (a : A) : nothrow (ret a).
Proof. intros s. eexists. reflexivity. Qed.

Lemma nothrow_emit e : nothrow (emit e).
Proof. intros s. eexists. reflexivity. Qed.

Lemma nothrow_bind {A B} (m : M A) (k : A -> M B) :
  nothrow m -> (forall a, nothrow (k a)) -> nothrow (bind m k).
Proof.
  intros Hm Hk s. unfold bind. destruct (Hm s) as [a Ha].
  destruct (m s) as [[r s1] t1]. cbn in Ha. subst r.
  destruct (Hk a s1) as [b Hb]. destruct (k a s1) as [[r s2] t2].
  cbn in *. eauto.
Qed.

Lemma nothrow_try_catch {A} (m : M A) (h : error -> M A) :
  (forall e, nothrow (h e)) -> nothrow (try_catch m h).
Proof.
  intros Hh s. unfold try_catch. destruct (m s) as [[[a|e] s1] t1].
  - cbn. eauto.
  - destruct (Hh e s1) as [b Hb]. destruct (h e s1) as [[r s2] t2].
    cbn in *. eauto.
Qed.

Ltac nothrow_step :=
  lazymatch goal with
  | |- nothrow (bind _ _) => apply nothrow_bind; [|intros ?]
  | |- nothrow (try_catch _ _) => apply nothrow_try_catch; intros ?
  | |- nothrow (emit _) => apply nothrow_emit
  | |- nothrow (ret _) => apply nothrow_ret
  | |- nothrow get_state => intros ?; eexists; reflexivity
  | |- nothrow (set_pending _) => intros ?; eexists; reflexivity
  | |- nothrow (set_media_files _) => intros ?; eexists; reflexivity
  end.

(** ** Delivery *)

Lemma sends_app t1 t2 : sends (t1 ++ t2) = sends t1 ++ sends t2.
Proof. apply omap_app. Qed.

Lemma sends_none t : Forall not_send t -> sends t = [].
Proof.
  induction 1 as [|e t He _ IH]; [reflexivity|].
  unfold sends in *. cbn. unfold not_send in He. now rewrite He.
Qed.

Lemma is_log_not_send e : is_log e -> not_send e.
Proof. destruct e; cbn; try tauto; reflexivity. Qed.

Lemma is_fetch_not_send e : is_fetch e -> not_send e.
Proof. destruct e; cbn; try tauto; reflexivity. Qed.

Lemma is_extract_not_send e : is_extract e -> not_send e.
Proof. destruct e; cbn; try tauto; reflexivity. Qed.

Lemma is_cleanup_not_send files e : is_cleanup files e -> not_send e.
Proof. destruct e; cbn; try tauto; reflexivity. Qed.

(** *** The clean-up after a send *)

Lemma unlinks_app t1 t2 : unlinks (t1 ++ t2) = unlinks t1 ++ unlinks t2.
Proof. apply omap_app. Qed.

Lemma unlinks_logs t : Forall is_log t -> unlinks t = [].
Proof.
  induction 1 as [|e t He _ IH]; [reflexivity|].
  destruct e; try destruct He. exact IH.
Qed.

Lemma delete_file_exact env f s :
  exists s' t,
    delete_file env f s = (Normal tt, s', t)
    /\ unlinks t = [f] /\ sends t = []
    /\ media_files s'
       = (if unlinked env f then media_files s ∖ {[f]} else media_files s)
    /\ storage s' = storage s /\ data_file s' = data_file s
    /\ pending s' = pending s.
Proof.
  unfold delete_file, unlinked, bind, emit, get_state, set_media_files.
  destruct (fs_unlink env f) as [u|e]; eexists _, _;
    (split; [reflexivity|]); cbn; auto 10.
Qed.

Lemma delete_files_exact env files :
  forall s, exists s' t,
    for_each (delete_file env) files s = (Normal tt, s', t)
    /\ unlinks t = files /\ sends t = []
    /\ media_files s'
       = media_files s ∖ list_to_set (List.filter (unlinked env) files)
    /\ storage s' = storage s /\ data_file s' = data_file s
    /\ pending s' = pending s.
Proof.
  induction files as [|f files IH]; intros s.
  - exists s, []. cbn. repeat split; try reflexivity.
    now rewrite difference_empty_L.
  - destruct (delete_file_exact env f s)
      as (s1 & t1 & E1 & Hu1 & Hs1 & Hm1 & A1 & B1 & C1).
    destruct (IH s1) as (s2 & t2 & E2 & Hu2 & Hs2 & Hm2 & A2 & B2 & C2).
    exists s2, (t1 ++ t2). cbn [for_each]. unfold bind. rewrite E1, E2.
    split; [reflexivity|].
    rewrite unlinks_app, sends_app, Hu1, Hu2, Hs1, Hs2, Hm2, Hm1, A2, B2, C2.
    repeat split; try assumption; try reflexivity.
    cbn [List.filter]. destruct (unlinked env f); cbn [list_to_set];
      [now rewrite difference_difference_l_L|reflexivity].
Qed.

Section Delivery.

Variable cfg : Config.
Variable env : Env.

Lemma attach_run m s :
  exists files logs,
    attach env m s = (Normal files, s, logs)
    /\ Forall is_log logs
    /\ forall f, In f files <-> fits env m f.
Proof.
  unfold attach, fits.
  destruct (media_path m) as [[|a p]|] eqn:Hp; cbn [truthy].
  - exists [], []. split; [reflexivity|]. split; [constructor|].
    intros f. split; [intros []|]. intros (H & H' & _). congruence.
  - change (to_String (Some (String a p))) with (String a p).
    destruct (fs_stat env (String a p)) as [size|e] eqn:Hst.
    + destruct (Z.ltb_spec size 25000000).
      * exists [String a p], []. split; [reflexivity|]. split; [constructor|].
        intros f. split.
        -- intros [<-|[]]. split; [reflexivity|]. split; [congruence|eauto].
        -- intros (H' & _). injection H' as <-. now left.
      * exists [], [EvLog "exceeds 25MB limit"]. split; [reflexivity|].
        split; [repeat constructor|].
        intros f. split; [intros []|].
        intros (H' & _ & sz & Hsz & Hlt). injection H' as <-.
        rewrite Hst in Hsz. injection Hsz as <-. lia.
    + exists [], [EvLog "Error processing media"]. split; [reflexivity|].
      split; [repeat constructor|].
      intros f. split; [intros []|].
      intros (H' & _ & sz & Hsz & _). injection H' as <-. congruence.
  - exists [], []. split; [reflexivity|]. split; [constructor|].
    intros f. split; [intros []|]. intros (H & _). congruence.
Qed.

Lemma attach_all_run ms :
  forall s, exists files logs,
    attach_all env ms s = (Normal files, s, logs)
    /\ Forall is_log logs
    /\ forall f, In f files <-> exists m, In m ms /\ fits env m f.
Proof.
  induction ms as [|m ms IH]; intros s.
  - exists [], []. split; [reflexivity|]. split; [constructor|].
    intros f. split; [intros []|]. intros (m & [] & _).
  - destruct (attach_run m s) as (f1 & l1 & E1 & L1 & F1).
    destruct (IH s) as (f2 & l2 & E2 & L2 & F2).
    exists (f1 ++ f2), (l1 ++ l2).
    split; [|split].
    + cbn [attach_all]. unfold bind. rewrite E1, E2. unfold ret.
      now rewrite app_nil_r.
    + apply Forall_app. auto.
    + intros f. rewrite in_app_iff, F1, F2. split.
      * intros [H|(m' & H1 & H2)]; [exists m; split; [now left|auto]|].
        exists m'. split; [now right|auto].
      * intros (m' & [<-|H1] & H2); [now left|right; eauto].
Qed.

#[local] Instance same_but_media_pre : PreOrder same_but_media.
Proof.
  split; [intros s; repeat split; reflexivity|].
  intros a b c (H1 & H2 & H3 & H4) (H5 & H6 & H7 & H8).
  repeat split; try congruence. set_solver.
Qed.

Lemma delete_file_run f s :
  exists s' logs,
    delete_file env f s = (Normal tt, s', EvUnlink f :: logs)
    /\ same_but_media s s' /\ Forall is_log logs.
Proof.
  unfold delete_file, bind, emit, get_state, set_media_files.
  destruct (fs_unlink env f).
  - eexists _, _. split; [reflexivity|]. split; [|repeat constructor].
    unfold same_but_media; cbn.
    split; [reflexivity|split; [reflexivity|split; [reflexivity|]]].
    intros x [Hx _]%elem_of_difference. exact Hx.
  - eexists _, _. split; [reflexivity|]. split; [|repeat constructor].
    reflexivity.
Qed.

Lemma delete_files_run all files :
  forall s, (forall f, In f files -> In f all) ->
    exists s' dels,
      for_each (delete_file env) files s = (Normal tt, s', dels)
      /\ same_but_media s s' /\ Forall (is_cleanup all) dels.
Proof.
  induction files as [|f files IH]; intros s Hall.
  - exists s, []. split; [reflexivity|]. split; [reflexivity|constructor].
  - destruct (delete_file_run f s) as (s1 & l1 & E1 & R1 & L1).
    destruct (IH s1) as (s2 & l2 & E2 & R2 & L2);
      [intros g Hg; apply Hall; now right|].
    exists s2, (EvUnlink f :: l1 ++ l2). split; [|split].
    + cbn [for_each]. unfold bind. now rewrite E1, E2.
    + etransitivity; eassumption.
    + constructor; [apply Hall; now left|]. apply Forall_app. split; [|exact L2].
      eapply Forall_impl; [exact L1|]. intros e; destruct e; cbn; tauto.
Qed.

  (** The runs of [sendDiscordMessage]: the channel is not found; the send
    is refused; the send goes through and the attachments are deleted. *)
Lemma sendDiscordMessage_run pageConfig c s :
  let r := sendDiscordMessage env pageConfig c s in
  match channels_fetch env (snd pageConfig) with
  | Throw e => r = (Throw e, s, [])
  | Normal _ =>
      exists body files logs,
        Forall is_log logs
        /\ (if has_link c then files = []
            else forall f, In f files <-> exists m, In m (media c) /\ fits env m f)
        /\ match channel_send env with
           | Throw e =>
               r = (Throw e, s,
                    logs ++ [EvSend (fst pageConfig) (snd pageConfig)
                               (content_url c) body files false;
                             EvLog "Failed to send message to Discord"])
           | Normal _ =>
               exists s' dels,
                 r = (Normal tt, s',
                      logs ++ EvSend (fst pageConfig) (snd pageConfig)
                                (content_url c) body files true
                           :: EvLog "Posted update" :: dels)
                 /\ same_but_media s s'
                 /\ Forall (is_cleanup files) dels
           end
  end.
Proof.
  intros r. unfold r, sendDiscordMessage, bind, lift.
  destruct (channels_fetch env (snd pageConfig)) as [u|e]; [|reflexivity].
  fold (has_link c). destruct (has_link c) eqn:Hl.
  - unfold ret. cbn [fst snd].
    eexists _, [], []. split; [constructor|]. split; [reflexivity|].
    destruct (channel_send env) as [u'|e] eqn:Hs.
    + destruct (delete_files_run [] [] s) as (s' & dels & E & Rl & D); [auto|].
      exists s', dels. unfold emit. rewrite E. cbn. auto.
    + unfold emit. cbn. reflexivity.
  - destruct (attach_all_run (media c) s) as (files & logs & E & L & F).
    rewrite E. unfold ret. cbn [fst snd].
    eexists _, files, logs. split; [exact L|]. split; [exact F|].
    destruct (channel_send env) as [u'|e] eqn:Hs.
    + destruct (delete_files_run files files s) as (s' & dels & E' & Rl & D);
        [auto|].
      exists s', dels. unfold emit. rewrite E'. cbn.
      rewrite app_nil_r. auto.
    + unfold emit. cbn. now rewrite app_nil_r.
Qed.

Lemma in_logs_not_send logs p ch u body files ok :
  Forall is_log logs -> ~ In (EvSend p ch u body files ok) logs.
Proof.
  intros H Hin. rewrite Forall_forall in H.
  exact (H _ (proj2 (list_elem_of_In _ _) Hin)).
Qed.

Lemma in_cleanup_not_send all dels p ch u body files ok :
  Forall (is_cleanup all) dels -> ~ In (EvSend p ch u body files ok) dels.
Proof.
  intros H Hin. rewrite Forall_forall in H.
  exact (H _ (proj2 (list_elem_of_In _ _) Hin)).
Qed.

(** The run of [sendDiscordMessage] when the channel is found and the
    send goes through. *)
Lemma sendDiscordMessage_success pageConfig c s u1 u2 :
  channels_fetch env (snd pageConfig) = Normal u1 ->
  channel_send env = Normal u2 ->
  exists files s' before after,
    sendDiscordMessage env pageConfig c s
    = (Normal tt, s',
       before ++ EvSend (fst pageConfig) (snd pageConfig) (content_url c)
                   (message_text (fst pageConfig) c) files true :: after)
    /\ Forall is_log before
    /\ (if has_link c then files = []
        else forall f, In f files <-> exists m, In m (media c) /\ fits env m f)
    /\ sends before = [] /\ unlinks before = []
    /\ sends after = [] /\ unlinks after = files
    /\ media_files s'
       = media_files s ∖ list_to_set (List.filter (unlinked env) files)
    /\ storage s' = storage s /\ data_file s' = data_file s
    /\ pending s' = pending s.
Proof.
  intros Hf Hsend.
  unfold sendDiscordMessage, bind, lift. rewrite Hf, Hsend.
  unfold message_text. fold (has_link c). destruct (has_link c) eqn:Hl.
  - unfold ret, emit. cbn [fst snd for_each].
    exists [], s, [], [EvLog "Posted update"].
    split; [reflexivity|]. split; [constructor|].
    repeat split; try reflexivity.
    cbn [List.filter list_to_set]. now rewrite difference_empty_L.
  - destruct (attach_all_run (media c) s) as (files & logs & E & L & F).
    rewrite E. unfold ret, emit. cbn [fst snd].
    destruct (delete_files_exact env files s)
      as (s' & t & Ed & Hu & Hs & Hm & H1 & H2 & H3).
    rewrite Ed. exists files, s', logs, (EvLog "Posted update" :: t).
    split.
    { rewrite !app_nil_r. reflexivity. }
    split; [exact L|]. split; [exact F|].
    split.
    { apply sends_none. eapply Forall_impl; [exact L|apply is_log_not_send]. }
    split; [now apply unlinks_logs|].
    split; [exact Hs|].
    split; [exact Hu|]. auto.
Qed.

(** The run of [sendDiscordMessage] when the channel is found and the
    send is refused. *)
Lemma sendDiscordMessage_refused pageConfig c s u1 e :
  channels_fetch env (snd pageConfig) = Normal u1 ->
  channel_send env = Throw e ->
  exists files before,
    sendDiscordMessage env pageConfig c s
    = (Throw e, s,
       before ++ [EvSend (fst pageConfig) (snd pageConfig) (content_url c)
                    (message_text (fst pageConfig) c) files false;
                  EvLog "Failed to send message to Discord"])
    /\ Forall is_log before
    /\ (if has_link c then files = []
        else forall f, In f files <-> exists m, In m (media c) /\ fits env m f).
Proof.
  intros Hf Hsend.
  unfold sendDiscordMessage, bind, lift. rewrite Hf, Hsend.
  unfold message_text. fold (has_link c). destruct (has_link c) eqn:Hl.
  - unfold ret, emit. cbn [fst snd].
    exists [], []. split; [reflexivity|]. split; [constructor|reflexivity].
  - destruct (attach_all_run (media c) s) as (files & logs & E & L & F).
    rewrite E. unfold ret, emit. cbn [fst snd].
    exists files, logs. split; [|split; [exact L|exact F]].
    now rewrite !app_nil_r.
Qed.

(** C6: In every delivery of a content of the extractor (media only
    without a link), as soon as the channel is found, one message is sent
    and the files it carries are exactly the media with a path and a size
    below 25,000,000 bytes: each attached file has such a size, so none of
    that size or more is attached, and every medium with a path and a size
    below the cap is attached.  When the send goes through, every attached
    file, and no other, gets its deletion request after the send; when the
    send fails nothing is deleted and the media directory is what it
    was.  A file is deleted only after the send went through, and it is
    an attached one. *)
Theorem attachments_capped (pageConfig : string * string) (c : Content)
    (s : State) :
  (media c <> [] -> embeddedLink c = None) ->
  let r := sendDiscordMessage env pageConfig c s in
  (forall u0,
      channels_fetch env (snd pageConfig) = Normal u0 ->
      exists files before after ok,
        r.2 = before ++ EvSend (fst pageConfig) (snd pageConfig)
                          (content_url c) (message_text (fst pageConfig) c)
                          files ok :: after
        /\ Forall is_log before
        /\ (forall f, In f files <-> exists m, In m (media c) /\ fits env m f)
        /\ (forall f size, In f files -> fs_stat env f = Normal size ->
                           (size < 25000000)%Z)
        /\ (forall u1, channel_send env = Normal u1 ->
                       ok = true /\ r.1.1 = Normal tt
                       /\ unlinks after = files
                       /\ media_files r.1.2
                          = media_files s
                              ∖ list_to_set (List.filter (unlinked env) files))
        /\ (forall e, channel_send env = Throw e ->
                      ok = false /\ r.1.1 = Throw e
                      /\ unlinks after = []
                      /\ media_files r.1.2 = media_files s))
  /\ (forall p ch u body files ok,
        In (EvSend p ch u body files ok) r.2 ->
        (forall f size, In f files -> fs_stat env f = Normal size ->
                        (size < 25000000)%Z)
        /\ (forall m f, In m (media c) -> fits env m f -> In f files))
  /\ (forall f, In (EvUnlink f) r.2 ->
        exists before p ch u body files after,
          r.2 = before ++ EvSend p ch u body files true :: after
          /\ Forall is_log before /\ In f files)
  /\ (forall e, channel_send env = Throw e ->
        Forall (fun ev => ~ is_unlink ev) r.2
        /\ media_files r.1.2 = media_files s).
Proof.
  intros Hex r.
  assert (Hnolink : has_link c = true -> media c = []).
  { intros Hl. destruct (media c) as [|m ms] eqn:Hm; [reflexivity|].
    unfold has_link in Hl. rewrite Hex in Hl; [discriminate|].
    rewrite ?Hm. discriminate. }
  split.
  { intros u0 Hf.
    destruct (channel_send env) as [u1|e1] eqn:Hsend.
    - destruct (sendDiscordMessage_success pageConfig c s u0 u1 Hf Hsend)
        as (files & s' & before & after & E & Hlog & Hfiles & _ & _ & _
            & Hunl & Hmed & _).
      fold r in E.
      assert (Hiff : forall f, In f files
                               <-> exists m, In m (media c) /\ fits env m f).
      { destruct (has_link c) eqn:Hl; [|exact Hfiles].
        subst files. rewrite (Hnolink eq_refl). intros f.
        split; [intros []|intros (m & [] & _)]. }
      exists files, before, after, true. rewrite E. cbn [fst snd].
      split; [reflexivity|]. split; [exact Hlog|]. split; [exact Hiff|].
      split.
      { intros f size Hin Hst. apply Hiff in Hin as (m & _ & _ & _ & sz & Hsz & Hlt).
        congruence. }
      split; [intros u1' _; repeat split; assumption|].
      intros e. discriminate.
    - destruct (sendDiscordMessage_refused pageConfig c s u0 e1 Hf Hsend)
        as (files & logs & E & Hlog & Hfiles).
      fold r in E.
      assert (Hiff : forall f, In f files
                               <-> exists m, In m (media c) /\ fits env m f).
      { destruct (has_link c) eqn:Hl; [|exact Hfiles].
        subst files. rewrite (Hnolink eq_refl). intros f.
        split; [intros []|intros (m & [] & _)]. }
      exists files, logs, [EvLog "Failed to send message to Discord"], false.
      rewrite E. cbn [fst snd].
      split; [reflexivity|]. split; [exact Hlog|]. split; [exact Hiff|].
      split.
      { intros f size Hin Hst. apply Hiff in Hin as (m & _ & _ & _ & sz & Hsz & Hlt).
        congruence. }
      split; [intros u1; discriminate|].
      intros e He. injection He as <-. repeat split; reflexivity. }
  pose proof (sendDiscordMessage_run pageConfig c s) as Hrun.
  cbv zeta in Hrun. fold r in Hrun.
  destruct (channels_fetch env (snd pageConfig)) as [u0|e0].
  2:{ rewrite Hrun. cbn. split; [intros ? ? ? ? ? ? []|].
      split; [intros ? []|]. intros _ _. split; [constructor|reflexivity]. }
  destruct Hrun as (body & files & logs & Hlogs & Hfiles & Hrun).
  assert (Hcap : forall f size, In f files -> fs_stat env f = Normal size ->
                                (size < 25000000)%Z).
  { intros f size Hf Hst. destruct (has_link c).
    - subst files. destruct Hf.
    - apply Hfiles in Hf as (m & _ & _ & _ & sz & Hsz & Hlt). congruence. }
  assert (Hall : forall m f, In m (media c) -> fits env m f -> In f files).
  { intros m f Hm Hfit. destruct (has_link c) eqn:Hl.
    - unfold has_link in Hl. rewrite Hex in Hl; [discriminate|].
      intros E. rewrite E in Hm. destruct Hm.
    - apply Hfiles. eauto. }
  destruct (channel_send env) as [u1|e1].
  - destruct Hrun as (s' & dels & Hr & Hst & Hdels). rewrite Hr. cbn [fst snd].
    split; [|split].
    + intros p ch u body' files' ok Hin.
      apply in_app_or in Hin as [Hin|[Hin|[Hin|Hin]]];
        [destruct (in_logs_not_send _ _ _ _ _ _ _ Hlogs Hin) | |discriminate
        |destruct (in_cleanup_not_send _ _ _ _ _ _ _ _ Hdels Hin)].
      injection Hin as <- <- <- <- <- <-. auto.
    + intros f Hin.
      exists logs, (fst pageConfig), (snd pageConfig), (content_url c),
        body, files, (EvLog "Posted update" :: dels).
      split; [reflexivity|]. split; [exact Hlogs|].
      apply in_app_or in Hin as [Hin|[Hin|[Hin|Hin]]]; try discriminate.
      * rewrite Forall_forall in Hlogs.
        destruct (Hlogs _ (proj2 (list_elem_of_In _ _) Hin)).
      * rewrite Forall_forall in Hdels.
        exact (Hdels _ (proj2 (list_elem_of_In _ _) Hin)).
    + intros e. discriminate.
  - rewrite Hrun. cbn [fst snd]. split; [|split].
    + intros p ch u body' files' ok Hin.
      apply in_app_or in Hin as [Hin|[Hin|[Hin|[]]]];
        [destruct (in_logs_not_send _ _ _ _ _ _ _ Hlogs Hin) | |discriminate].
      injection Hin as <- <- <- <- <- <-. auto.
    + intros f Hin.
      apply in_app_or in Hin as [Hin|[Hin|[Hin|[]]]]; try discriminate.
      rewrite Forall_forall in Hlogs.
      destruct (Hlogs _ (proj2 (list_elem_of_In _ _) Hin)).
    + intros _ _. split; [|reflexivity].
      apply Forall_app. split.
      * eapply Forall_impl; [exact Hlogs|]. intros ev; destruct ev; cbn; tauto.
      * repeat constructor; cbn; tauto.
Qed.

End Delivery.

(** ** One check as a whole *)

Section Check.

Variable cfg : Config.
Variable env : Env.

Lemma image_settled_sat pageName task :
  sat same_but_files is_fetch (image_settled cfg env pageName task).
Proof.
  unfold image_settled. repeat sat_step.
  match goal with |- sat _ _ (if ?b then _ else _) => destruct b end;
    repeat sat_step.
  apply downloadMedia_sat.
Qed.

Lemma settle_sat pageName i :
  sat same_store is_fetch (settle cfg env pageName i).
Proof.
  unfold settle. repeat sat_step.
  match goal with |- sat _ _ (match ?o with _ => _ end) =>
    destruct o as [[task rest]|] end; repeat sat_step.
  - apply sat_set_pending.
  - apply (sat_weaken same_but_files same_store is_fetch is_fetch);
      [apply same_but_files_store | auto |].
    apply image_settled_sat.
Qed.

Lemma settle_nothrow pageName i : nothrow (settle cfg env pageName i).
Proof.
  unfold settle. repeat nothrow_step.
  match goal with |- nothrow (match ?o with _ => _ end) =>
    destruct o as [[task rest]|] end; repeat nothrow_step.
Qed.

Lemma settle_all_sat pageName l :
  sat same_store is_fetch (settle_all cfg env pageName l).
Proof.
  induction l as [|i l IH]; cbn [settle_all]; repeat sat_step; auto.
  apply settle_sat.
Qed.

Lemma settle_all_nothrow pageName l :
  nothrow (settle_all cfg env pageName l).
Proof.
  induction l as [|i l IH]; cbn [settle_all]; repeat nothrow_step; auto.
  apply settle_nothrow.
Qed.

(** The callbacks that settle before the media are read. *)
Lemma settle_all_run pageName l s :
  exists pushed s' t,
    settle_all cfg env pageName l s = (Normal pushed, s', t)
    /\ same_store s s' /\ Forall is_fetch t.
Proof.
  destruct (settle_all_nothrow pageName l s) as [pushed Hn].
  destruct (settle_all_sat pageName l s) as [Hs Ht].
  destruct (settle_all cfg env pageName l s) as [[r s'] t].
  cbn [fst snd] in *. subst r.
  exists pushed, s', t. split; [reflexivity|]. split; assumption.
Qed.

(** [monitorPage] after a content was returned: the settled callbacks,
    then the delivery. *)
Lemma monitorPage_deliver pageConfig s c s1 t1 :
  processWebPost cfg env (fst pageConfig) s = (Normal (Some c), s1, t1) ->
  exists pushed s2 t2,
    settle_all cfg env (fst pageConfig) (arrived env) s1
    = (Normal pushed, s2, t2)
    /\ same_store s1 s2 /\ Forall is_fetch t2
    /\ forall r3 s3 t3,
        sendDiscordMessage env pageConfig
          (with_media c (media c ++ pushed)) s2 = (r3, s3, t3) ->
        monitorPage cfg env pageConfig s
        = (Normal tt, s3,
           (t1 ++ t2 ++ t3) ++ match r3 with
                             | Normal _ => []
                             | Throw _ => error_log
                             end).
Proof.
  intros Hp.
  destruct (settle_all_run (fst pageConfig) (arrived env) s1)
    as (pushed & s2 & t2 & E & Hs & Ht).
  exists pushed, s2, t2. repeat split; auto; try apply Hs.
  intros r3 s3 t3 Hsend.
  unfold monitorPage, try_catch, bind. rewrite Hp, E, Hsend.
  unfold error_log. destruct r3 as [[]|e]; cbn; rewrite ?app_nil_r; reflexivity.
Qed.

Lemma monitorPage_idle pageConfig s r s1 t1 :
  processWebPost cfg env (fst pageConfig) s = (r, s1, t1) ->
  (forall c, r <> Normal (Some c)) ->
  monitorPage cfg env pageConfig s
  = (Normal tt, s1, t1 ++ match r with
                          | Normal _ => []
                          | Throw _ => error_log
                          end).
Proof.
  intros Hp Hr. unfold monitorPage, try_catch, bind. rewrite Hp.
  unfold error_log.
  destruct r as [[c|]|e]; [destruct (Hr c eq_refl)| |]; cbn;
    rewrite ?app_nil_r; reflexivity.
Qed.

(** The callbacks still waiting at the end change no store and send
    nothing. *)
Lemma check_page_tail pageConfig s :
  exists r s0 t0 s' t',
    monitorPage cfg env pageConfig s = (r, s0, t0)
    /\ check_page cfg env pageConfig s
       = (match r with Normal _ => Normal tt | Throw e => Throw e end,
          s', t0 ++ t')
    /\ same_store s0 s' /\ Forall is_fetch t'.
Proof.
  unfold check_page, bind.
  destruct (monitorPage cfg env pageConfig s) as [[[u|e] s0] t0].
  - unfold get_state. cbn [fst snd].
    destruct (settle_all_run (fst pageConfig) (map fst (pending s0)) s0)
      as (pushed & s' & t' & E & Hs & Ht).
    rewrite E. unfold ret. cbn.
    exists (Normal u), s0, t0, s', t'. rewrite app_nil_r. auto.
  - exists (Throw e), s0, t0, s0, []. rewrite app_nil_r.
    repeat split; auto; constructor.
Qed.

Lemma is_extract_quiet e : is_extract e -> quiet e.
Proof. destruct e; cbn; try tauto; split; try reflexivity; cbn; tauto. Qed.

Lemma is_fetch_quiet e : is_fetch e -> quiet e.
Proof. intros H. apply is_extract_quiet, is_fetch_extract, H. Qed.

Lemma is_log_quiet e : is_log e -> quiet e.
Proof. intros H. apply is_extract_quiet, is_log_extract, H. Qed.

Lemma is_cleanup_quiet files e : is_cleanup files e -> quiet e.
Proof. destruct e; cbn; try tauto; split; try reflexivity; cbn; tauto. Qed.

Lemma sends_quiet t : Forall quiet t -> sends t = [].
Proof.
  intros H. apply sends_none. eapply Forall_impl; [exact H|].
  intros e [He _]. exact He.
Qed.

Lemma error_log_quiet {A} (r : completion A) :
  Forall quiet match r with Normal _ => [] | Throw _ => error_log end.
Proof. destruct r; repeat constructor; cbn; tauto. Qed.

  (** Every check is of one of three kinds: nothing novel, and then the
    store is what it was and nothing is written or sent; a novel post
    committed but no delivery attempted; a novel post committed and then
    one delivery attempted. *)
Lemma check_page_cases pageConfig s :
  let r := check_page cfg env pageConfig s in
  ((forall c s1 t1, ~ novel_extraction cfg env (fst pageConfig) s c s1 t1)
   /\ same_store s r.1.2 /\ Forall quiet r.2)
  \/ (exists c s1 t1,
        novel_extraction cfg env (fst pageConfig) s c s1 t1
        /\ storage r.1.2 = <[fst pageConfig := record_of c]> (storage s)
        /\ (sends r.2 = []
            \/ exists ok,
                delivered pageConfig c (storage r.1.2) r.2 ok
                /\ (ok = true <-> exists u, channel_send env = Normal u))).
Proof.
  intros r.
  destruct (check_page_tail pageConfig s)
    as (rm & s0 & t0 & s' & t' & Hm & Hc & [Hs1 Hs2] & Ht').
  assert (Hr1 : r.1.2 = s') by (unfold r; now rewrite Hc).
  assert (Hr2 : r.2 = t0 ++ t') by (unfold r; now rewrite Hc).
  rewrite Hr1, Hr2. clear Hr1 Hr2 Hc r.
  assert (Ht'q : Forall quiet t').
  { eapply Forall_impl; [exact Ht'|apply is_fetch_quiet]. }
  destruct (novel_extraction_dec cfg env (fst pageConfig) s)
    as [(c & s1 & t1 & Hn)|Hno].
  - right. exists c, s1, t1. split; [exact Hn|].
    pose proof (processWebPost_commit _ _ _ _ _ _ _ Hn) as Hp.
    destruct (novel_extraction_store _ _ _ _ _ _ _ Hn) as (E1 & E2 & Ht1).
    assert (Ht1q : Forall quiet t1).
    { eapply Forall_impl; [exact Ht1|apply is_extract_quiet]. }
    set (posts := <[fst pageConfig := record_of c]> (storage s1)) in *.
    assert (Hposts : storage (committed env (fst pageConfig) c s1) = posts)
      by reflexivity.
    destruct (quit env) as [uq|eq0] eqn:Hq.
    2:{ rewrite (monitorPage_idle _ _ _ _ _ Hp) in Hm by congruence.
        injection Hm as <- <- <-. rewrite Hs1, Hposts. unfold posts.
        rewrite E1. split; [reflexivity|]. left.
        rewrite !sends_app, (sends_quiet t1 Ht1q), (sends_quiet t' Ht'q).
        reflexivity. }
    destruct (fs_writeFile env) as [uw|ew] eqn:Hw.
    2:{ rewrite (monitorPage_idle _ _ _ _ _ Hp) in Hm by congruence.
        injection Hm as <- <- <-. rewrite Hs1, Hposts. unfold posts.
        rewrite E1. split; [reflexivity|]. left.
        rewrite !sends_app, (sends_quiet t1 Ht1q), (sends_quiet t' Ht'q).
        reflexivity. }
    destruct (monitorPage_deliver _ _ _ _ _ Hp)
      as (pushed & s2 & t2 & _ & [Hs21 Hs22] & Ht2 & Hdel).
    assert (Ht2q : Forall quiet t2).
    { eapply Forall_impl; [exact Ht2|apply is_fetch_quiet]. }
    pose proof (sendDiscordMessage_run env pageConfig
                  (with_media c (media c ++ pushed)) s2) as Hrun.
    cbv zeta in Hrun.
    destruct (sendDiscordMessage env pageConfig
                (with_media c (media c ++ pushed)) s2)
      as [[r3 s3] t3] eqn:Hsend.
    rewrite (Hdel _ _ _ eq_refl) in Hm. injection Hm as <- <- <-.
    destruct (channels_fetch env (snd pageConfig)) as [uf|ef].
    2:{ injection Hrun as -> -> ->. rewrite Hs1, Hs21, Hposts.
        unfold posts. rewrite E1. split; [reflexivity|]. left.
        rewrite !sends_app, (sends_quiet t1 Ht1q), (sends_quiet t2 Ht2q),
          (sends_quiet t' Ht'q). reflexivity. }
    destruct Hrun as (body & files & logs & Hlogs & _ & Hrun).
    assert (Hlq : Forall quiet logs).
    { eapply Forall_impl; [exact Hlogs|apply is_log_quiet]. }
    destruct (channel_send env) as [us|es] eqn:Hcs.
    + destruct Hrun as (s3' & dels & Hrun & (Hm1 & _) & Hdels).
      injection Hrun as -> -> ->.
      rewrite Hs1, Hm1, Hs21, Hposts. unfold posts at 1. rewrite E1.
      split; [reflexivity|]. right. exists true.
      split; [|split; eauto].
      exists t1, (t2 ++ logs), ((EvLog "Posted update" :: dels) ++ t'),
        body, files.
      split; [|split; [exact Ht1q|split]].
      * cbn [with_media content_url]. trace_eq.
      * apply Forall_app; auto.
      * apply Forall_app. split; [|exact Ht'q].
        constructor; [split; [reflexivity|cbn; tauto]|].
        eapply Forall_impl; [exact Hdels|apply is_cleanup_quiet].
    + injection Hrun as -> -> ->.
      rewrite Hs1, Hs21, Hposts. unfold posts at 1. rewrite E1.
      split; [reflexivity|]. right. exists false.
      split; [|split; [discriminate|intros [u Hu]; discriminate]].
      exists t1, (t2 ++ logs),
        ([EvLog "Failed to send message to Discord"] ++ error_log ++ t'),
        body, files.
      split; [|split; [exact Ht1q|split]].
      * cbn [with_media content_url]. unfold error_log. trace_eq.
      * apply Forall_app; auto.
      * repeat constructor; cbn; first [tauto | exact Ht'q].
  - left. split; [exact Hno|].
    destruct (processWebPost_skip cfg env (fst pageConfig) s Hno)
      as ([H1 H2] & H3 & H4).
    destruct (processWebPost cfg env (fst pageConfig) s)
      as [[rp sp] tp] eqn:Hp.
    cbn [fst snd] in *.
    rewrite (monitorPage_idle _ _ _ _ _ Hp H4) in Hm.
    injection Hm as <- <- <-. split.
    + split; congruence.
    + apply Forall_app. split; [|exact Ht'q].
      apply Forall_app. split; [|apply error_log_quiet].
      eapply Forall_impl; [exact H3|apply is_extract_quiet].
Qed.

End Check.

(** ** Runs of several checks *)

Section Runs.

Variable cfg : Config.

Lemma sends_for_app p t1 t2 :
  sends_for p (t1 ++ t2) = sends_for p t1 ++ sends_for p t2.
Proof. unfold sends_for. now rewrite sends_app, filter_app. Qed.

Lemma sends_cons e t :
  sends (e :: t) = match send_of e with
                   | Some x => x :: sends t
                   | None => sends t
                   end.
Proof. reflexivity. Qed.

Lemma delivered_sends pageConfig c posts t ok :
  delivered pageConfig c posts t ok ->
  sends t = [(fst pageConfig, content_url c, ok)].
Proof.
  intros (pre & mid & post & body & files & -> & Hpre & Hmid & Hpost).
  rewrite sends_app, sends_cons, sends_app, sends_cons. cbn [send_of].
  now rewrite (sends_quiet pre Hpre), (sends_quiet mid Hmid),
    (sends_quiet post Hpost).
Qed.

(** The sends of a check are of its own page, and at most one. *)
Lemma check_page_sends env pageConfig s :
  sends (check_page cfg env pageConfig s).2 = []
  \/ exists u ok, sends (check_page cfg env pageConfig s).2
                  = [(fst pageConfig, u, ok)].
Proof.
  destruct (check_page_cases cfg env pageConfig s)
    as [(_ & _ & Hq)|(c & s1 & t1 & _ & _ & [H|(ok & H & _)])].
  - left. now apply sends_quiet.
  - now left.
  - right. exists (content_url c), ok. now apply delivered_sends in H.
Qed.

(** A check of another page leaves the record of [p] alone and sends
    nothing for [p]. *)
Lemma check_page_other env pageConfig s p :
  fst pageConfig <> p ->
  storage (check_page cfg env pageConfig s).1.2 !! p = storage s !! p
  /\ sends_for p (check_page cfg env pageConfig s).2 = [].
Proof.
  intros Hne. split.
  - destruct (check_page_cases cfg env pageConfig s)
      as [(_ & [H _] & _)|(c & s1 & t1 & _ & H & _)]; rewrite H;
      [reflexivity|]. now apply lookup_insert_ne.
  - unfold sends_for.
    destruct (check_page_sends env pageConfig s) as [->|(u & ok & ->)];
      [reflexivity|].
    rewrite filter_cons_False; [reflexivity|]. cbn. exact Hne.
Qed.

(** A check of [p] whose first post has the stored permalink changes no
    store and sends nothing. *)
Lemma check_page_same env pageConfig s u :
  rec_url <$> storage s !! fst pageConfig = Some u ->
  (forall post,
      page_source env (page_url cfg (fst pageConfig)) = Normal (Some post) ->
      fullPostUrl_of post = u) ->
  storage (check_page cfg env pageConfig s).1.2 = storage s
  /\ sends (check_page cfg env pageConfig s).2 = [].
Proof.
  intros Hst Hshow.
  destruct (check_page_cases cfg env pageConfig s)
    as [(_ & [H _] & Hq)|(c & s1 & t1 & Hn & _)].
  - split; [exact H | now apply sends_quiet].
  - destruct Hn as (u0 & post & _ & Hp & Hseen & _).
    unfold already_seen in Hseen. apply bool_decide_eq_false in Hseen.
    destruct Hseen. now rewrite (Hshow post Hp).
Qed.

(** As long as page [p] shows the stored permalink, nothing is sent for
    it and its stored url stays. *)
Lemma unchanged_page_is_silent p u checks :
  forall s,
    rec_url <$> storage s !! p = Some u ->
    shows cfg p u checks ->
    sends_for p (run_checks cfg checks s).2 = []
    /\ rec_url <$> storage (run_checks cfg checks s).1 !! p = Some u.
Proof.
  induction checks as [|[pageConfig env] checks IH]; intros s Hst Hshow.
  - split; [reflexivity|exact Hst].
  - cbn [run_checks].
    destruct (check_page cfg env pageConfig s) as [[r s1] t1] eqn:Hc.
    assert (Hstep : rec_url <$> storage s1 !! p = Some u
                    /\ sends_for p t1 = []).
    { destruct (decide (fst pageConfig = p)) as [<-|Hne].
      - destruct (check_page_same env pageConfig s u Hst) as [H1 H2].
        + intros post Hp. eapply Hshow; [now left|reflexivity|exact Hp].
        + rewrite Hc in H1, H2. cbn [fst snd] in H1, H2. unfold sends_for.
          now rewrite H1, H2.
      - destruct (check_page_other env pageConfig s p Hne) as [H1 H2].
        rewrite Hc in H1, H2. cbn [fst snd] in H1, H2. now rewrite H1. }
    destruct Hstep as [Hst1 Hs1].
    destruct (IH s1 Hst1) as [H1 H2].
    { intros pc' env' post Hin. apply Hshow. now right. }
    destruct (run_checks cfg checks s1) as [s2 t2]. cbn [fst snd] in *.
    now rewrite sends_for_app, Hs1, H1.
Qed.

(** A page whose first post never has a permalink is sent at most
    once. *)
Lemma permalinkless_sent_once p checks :
  forall s,
    shows cfg p None checks ->
    (length (sends_for p (run_checks cfg checks s).2) <= 1)%nat.
Proof.
  induction checks as [|[pageConfig env] checks IH]; intros s Hshow.
  - cbn. lia.
  - assert (Hrest : shows cfg p None checks).
    { intros pc' env' post Hin. apply Hshow. now right. }
    cbn [run_checks].
    destruct (check_page cfg env pageConfig s) as [[r s1] t1] eqn:Hc.
    specialize (IH s1 Hrest).
    destruct (decide (fst pageConfig = p)) as [<-|Hne].
    + destruct (check_page_cases cfg env pageConfig s)
        as [(_ & _ & Hq)|(c & s0 & t0 & Hn & Hsto & Hs)].
      * rewrite Hc in Hq. cbn [fst snd] in Hq.
        destruct (run_checks cfg checks s1) as [s2 t2]. cbn [fst snd] in *.
        rewrite sends_for_app. unfold sends_for at 1.
        now rewrite (sends_quiet t1 Hq).
      * rewrite Hc in Hsto, Hs. cbn [fst snd] in Hsto, Hs.
        assert (Hnull : rec_url <$> storage s1 !! fst pageConfig = Some None).
        { rewrite Hsto, lookup_insert_eq. cbn.
          destruct Hn as (u0 & post & _ & Hp & _ & Hx).
          destruct (extract_content_fields _ _ _ _ _ _ _ _ Hx) as (-> & _).
          f_equal. eapply Hshow; [now left|reflexivity|exact Hp]. }
        destruct (unchanged_page_is_silent _ _ checks s1 Hnull Hrest)
          as [Hsil _].
        destruct (run_checks cfg checks s1) as [s2 t2]. cbn [fst snd] in *.
        rewrite sends_for_app, Hsil, app_nil_r. unfold sends_for.
        destruct Hs as [->|(ok & Hd & _)]; [cbn; lia|].
        rewrite (delivered_sends _ _ _ _ _ Hd).
        rewrite filter_cons_True by reflexivity. cbn. lia.
    + destruct (check_page_other env pageConfig s p Hne) as [_ H2].
      rewrite Hc in H2. cbn [fst snd] in H2.
      destruct (run_checks cfg checks s1) as [s2 t2]. cbn [fst snd] in *.
      now rewrite sends_for_app, H2.
Qed.

End Runs.

(** ** C2: the commit comes before the delivery *)

Lemma in_quiet_not_send t p ch u body files ok :
  Forall quiet t -> ~ In (EvSend p ch u body files ok) t.
Proof.
  intros H Hin. rewrite Forall_forall in H.
  destruct (H _ (proj2 (list_elem_of_In _ _) Hin)) as [Hs _]. discriminate.
Qed.

Lemma in_sends t e x : In e t -> send_of e = Some x -> In x (sends t).
Proof.
  intros Hin He. apply list_elem_of_In. unfold sends.
  apply list_elem_of_omap. exists e. split; [now apply list_elem_of_In|exact He].
Qed.

(** C2 (as amended): When a check attempts a delivery, the write of
    the data file, with the record of the post already in the [posts]
    object, stands before the send in the trace, and that send is the
    only one of the check, whether it goes through or fails; after the
    check the stored url of the page is the url of the post.  In the
    checks that follow, nothing is sent for the page as long as its first
    post keeps that permalink. *)
Theorem commit_before_delivery (cfg : Config) (env : Env)
    (pageConfig : string * string) (s : State) (p ch : string)
    (u : option string) (body : string) (files : list string) (ok : bool) :
  let r := check_page cfg env pageConfig s in
  In (EvSend p ch u body files ok) r.2 ->
  p = fst pageConfig
  /\ (exists pre mid post,
        r.2 = pre ++ EvWriteFile (storage r.1.2)
                :: mid ++ EvSend p ch u body files ok :: post
        /\ Forall quiet pre /\ Forall quiet mid /\ Forall quiet post)
  /\ rec_url <$> storage r.1.2 !! p = Some u
  /\ sends r.2 = [(p, u, ok)]
  /\ (ok = false <-> exists e, channel_send env = Throw e)
  /\ (forall later,
        shows cfg p u later ->
        sends_for p (run_checks cfg later r.1.2).2 = []).
Proof.
  intros r Hin.
  destruct (check_page_cases cfg env pageConfig s)
    as [(_ & _ & Hq)|(c & s1 & t1 & Hn & Hsto & [Hs|(ok' & Hd & Hok)])].
  - destruct (in_quiet_not_send _ _ _ _ _ _ _ Hq Hin).
  - apply (in_sends _ _ (p, u, ok)) in Hin; [|reflexivity].
    fold r in Hs. rewrite Hs in Hin. destruct Hin.
  - fold r in Hd, Hsto. pose proof (delivered_sends _ _ _ _ _ Hd) as Hsends.
    destruct Hd as (pre & mid & post & body' & files' & Ht & Hpre & Hmid & Hpost).
    assert (He : EvSend p ch u body files ok
                 = EvSend (fst pageConfig) (snd pageConfig) (content_url c)
                     body' files' ok').
    { rewrite Ht in Hin.
      apply in_app_or in Hin as [Hin|[Hin|Hin]];
        [destruct (in_quiet_not_send _ _ _ _ _ _ _ Hpre Hin)|discriminate|].
      apply in_app_or in Hin as [Hin|[Hin|Hin]];
        [destruct (in_quiet_not_send _ _ _ _ _ _ _ Hmid Hin)|now symmetry|
         destruct (in_quiet_not_send _ _ _ _ _ _ _ Hpost Hin)]. }
    injection He as -> -> -> -> -> ->.
    assert (Hrec : rec_url <$> storage r.1.2 !! fst pageConfig
                   = Some (content_url c)).
    { rewrite Hsto, lookup_insert_eq. reflexivity. }
    split; [reflexivity|]. split; [exists pre, mid, post; auto|].
    split; [exact Hrec|]. split; [exact Hsends|]. split.
    + split.
      * intros ->. destruct (channel_send env) as [u0|e]; [|eauto].
        assert (false = true) by (apply Hok; eauto). discriminate.
      * intros [e He]. destruct ok'; [|reflexivity].
        destruct (proj1 Hok eq_refl) as [u0 Hu0]. congruence.
    + intros later Hshow.
      exact (proj1 (unchanged_page_is_silent cfg _ _ later _ Hrec Hshow)).
Qed.

(** ** C10: a page without permalinks *)

(** C10: A first post without a permalink-shaped anchor has the url
    null.  Unless null is the stored url, the extraction goes on and the
    record committed has the url null; when null is the stored url the
    check returns null and changes nothing.  Over any run in which the
    first post of the page never has a permalink, at most one message is
    sent for the page. *)
Theorem permalinkless_page_notified_once (cfg : Config) :
  (forall env pageName s u post c s1 t1,
      build env = Normal u ->
      page_source env (page_url cfg pageName) = Normal (Some post) ->
      fullPostUrl_of post = None ->
      rec_url <$> storage s !! pageName <> Some None ->
      extract_content cfg env pageName post s = (Normal c, s1, t1) ->
      content_url c = None
      /\ rec_url <$> storage (processWebPost cfg env pageName s).1.2 !! pageName
         = Some None)
  /\ (forall env pageConfig s u post rec,
        build env = Normal u ->
        page_source env (page_url cfg (fst pageConfig)) = Normal (Some post) ->
        fullPostUrl_of post = None ->
        storage s !! fst pageConfig = Some rec -> rec_url rec = None ->
        (processWebPost cfg env (fst pageConfig) s).1.2 = s
        /\ (forall c, (processWebPost cfg env (fst pageConfig) s).1.1
                      <> Normal (Some c))
        /\ storage (check_page cfg env pageConfig s).1.2 = storage s
        /\ sends (check_page cfg env pageConfig s).2 = [])
  /\ (forall p checks s,
        shows cfg p None checks ->
        (length (sends_for p (run_checks cfg checks s).2) <= 1)%nat).
Proof.
  split; [|split].
  - intros env pageName s u post c s1 t1 Hb Hp Hnone Hst Hx.
    assert (Hn : novel_extraction cfg env pageName s c s1 t1).
    { exists u, post. repeat split; auto.
      unfold already_seen. apply bool_decide_eq_false. now rewrite Hnone. }
    split.
    + destruct (extract_content_fields _ _ _ _ _ _ _ _ Hx) as (-> & _).
      exact Hnone.
    + exact (no_permalink_commits_null cfg env _ _ _ _ _ _ Hn Hp Hnone).
  - intros env pageConfig s u post rec Hb Hp Hnone Hrec Hnull.
    assert (Hseen : already_seen s (fst pageConfig) (fullPostUrl_of post) = true).
    { apply (already_seen_stored _ _ rec); congruence. }
    rewrite (processWebPost_duplicate cfg env _ _ _ _ Hb Hp Hseen).
    cbn [fst snd]. split; [reflexivity|].
    split; [destruct (quit env); congruence|].
    apply (check_page_same cfg env pageConfig s None).
    + rewrite Hrec. cbn. now rewrite Hnull.
    + intros post' Hp'. congruence.
  - intros p checks s Hshow. now apply permalinkless_sent_once.
Qed.

(** ** C8: the size filter of images *)

Section Images.

Variable cfg : Config.
Variable env : Env.

(** The loop over the images leaves one waiting callback and one HEAD
    request for every image with an [http] source. *)
Lemma spawn_images_run imgs :
  forall i s,
    spawn_images i imgs s
    = (Normal tt,
       {| storage := storage s; data_file := data_file s;
          media_files := media_files s;
          pending := pending s ++ http_images i imgs |},
       map (fun task => EvHead (snd task)) (http_images i imgs)).
Proof.
  induction imgs as [|img imgs IH]; intros i s.
  - cbn [spawn_images http_images map]. rewrite app_nil_r. now destruct s.
  - cbn [spawn_images http_images]. unfold spawn_image.
    destruct (truthy img && startsWith (to_String img) "http");
      cbv beta iota delta [bind emit get_state set_pending ret];
      rewrite IH; cbn [storage data_file media_files pending app map snd];
      [now rewrite <- app_assoc | reflexivity].
Qed.

Lemma http_images_lookup imgs :
  forall i k src,
    imgs !! k = Some (Some src) -> startsWith src "http" = true ->
    In ((i + k)%nat, src) (http_images i imgs).
Proof.
  induction imgs as [|img imgs IH]; intros i k src Hk Hhttp; [discriminate|].
  cbn [http_images]. apply in_or_app. destruct k as [|k].
  - left. injection Hk as ->. destruct src as [|a src]; [discriminate|].
    cbn [truthy to_String default from_option id andb]. rewrite Hhttp.
    left. f_equal. lia.
  - right. replace (i + S k)%nat with (S i + k)%nat by lia. now apply IH.
Qed.

End Images.

(** ** C5: [downloadMedia] and its failures *)

Section Fetcher.

Variable cfg : Config.
Variable env : Env.

(** A failed [open] is thrown to the caller: it stands before the
    [try]. *)
Lemma downloadMedia_open_throws pageName url type index s e :
  fs_open env (media_file_path cfg env pageName type index) = Throw e ->
  (downloadMedia cfg env pageName url type index s).1.1 = Throw e.
Proof.
  intros H. unfold downloadMedia, bind, emit, lift. now rewrite H.
Qed.

(** Once the file is open and as long as it closes, a failed request,
    pipeline or re-encoding gives null. *)
Lemma downloadMedia_null_on_failure pageName url type index s u u' e :
  fs_open env (media_file_path cfg env pageName type index) = Normal u ->
  fs_close env (media_file_path cfg env pageName type index) = Normal u' ->
  http_get env url = Throw e
  \/ (type = video
      /\ ffmpeg_save env (media_file_path cfg env pageName type index)
         = Throw e) ->
  (downloadMedia cfg env pageName url type index s).1.1 = Normal None.
Proof.
  intros Ho Hc Hfail.
  unfold downloadMedia, bind, emit, lift, get_state, set_media_files,
    try_finally, try_catch, ret.
  rewrite Ho, Hc. cbn.
  destruct Hfail as [->|[-> ->]]; [reflexivity|].
  destruct (http_get env url); reflexivity.
Qed.

End Fetcher.

(** ** The properties on example worlds *)

Import Scenario.
Import Trouble.




(** C2, as stated, fails: the delivery of post 100 is refused, post 101
    is recorded in its place, and when post 100 is the first post again it
    is novel again and sent, twice over in this run. *)
Lemma post_sent_again_after_failure :
  sends (run_checks the_cfg back_and_forth empty_state).2
  = [ ("alpha", Some "/alpha/posts/100", false);
      ("alpha", Some "/alpha/posts/101", true);
      ("alpha", Some "/alpha/posts/100", true);
      ("alpha", Some "/alpha/posts/101", true);
      ("alpha", Some "/alpha/posts/100", true) ].
Proof. vm_compute. reflexivity. Qed.

Lemma commit_before_delivery_witness :
  sends (check_page the_cfg (world (Some post_100) (Normal tt) 4096 refused)
           alpha empty_state).2
  = [("alpha", Some "/alpha/posts/100", false)]
  /\ sends_for "alpha"
       (run_checks the_cfg
          [(alpha, calm (Some post_100)); (alpha, calm None)]
          (check_page the_cfg (world (Some post_100) (Normal tt) 4096 refused)
             alpha empty_state).1.2).2
     = [].
Proof.
  edestruct (commit_before_delivery the_cfg
               (world (Some post_100) (Normal tt) 4096 refused)
               alpha empty_state "alpha" "1234567890"
               (Some "/alpha/posts/100"))
    as (_ & _ & _ & Hs & _ & Hlater).
  { vm_compute. right. left. reflexivity. }
  split; [exact Hs|]. apply Hlater.
  intros pageConfig env post [H|[H|[]]] _ Hp; injection H as <- <-;
    vm_compute in Hp; [injection Hp as <-; reflexivity | discriminate].
Defined.

Lemma record_updated_iff_novel_witness :
  storage (processWebPost the_cfg (calm (Some post_100)) "alpha" empty_state).1.2
  = <["alpha" := {| rec_url := Some "/alpha/posts/100";
                    rec_timestamp := "2024-01-01T00:00:00.000Z" |}]> ∅
  /\ storage (processWebPost the_cfg (calm (Some post_100)) "alpha" seen_100).1.2
     = storage seen_100.
Proof.
  split.
  - destruct (record_updated_iff_novel the_cfg (calm (Some post_100)) "alpha"
                empty_state) as (_ & _ & _ & _ & H).
    assert (Hn : exists c s1 t1,
               novel_extraction the_cfg (calm (Some post_100)) "alpha"
                 empty_state c s1 t1
               /\ content_url c = Some "/alpha/posts/100"
               /\ timestamp c = "2024-01-01T00:00:00.000Z").
    { eexists _, _, _. split.
      - exists tt, post_100. repeat split; reflexivity.
      - split; reflexivity. }
    destruct Hn as (c & s1 & t1 & Hn & Hu & Hts).
    destruct (H c s1 t1 Hn) as (E & _). rewrite Hu, Hts in E. exact E.
  - destruct (record_updated_iff_novel the_cfg (calm (Some post_100)) "alpha"
                seen_100) as (_ & H & _).
    apply (H post_100); reflexivity.
Defined.

Lemma duplicate_returns_null_witness :
  processWebPost the_cfg (calm (Some post_100)) "alpha" seen_100
  = (Normal None, seen_100, []).
Proof.
  apply (duplicate_returns_null the_cfg (calm (Some post_100)) alpha seen_100
           post_100
           {| rec_url := Some "/alpha/posts/100";
              rec_timestamp := "2023-12-31T00:00:00.000Z" |} tt);
    reflexivity.
Defined.

(** C1: For the page [__proto__] a novel post is extracted, returned
    and recorded where [storage.posts["__proto__"]] reads it, and
    [writeFile] is called and succeeds; but the record went to the
    prototype of the object, and the file holds no record at all, where the
    specification has the whole store persisted. *)
Theorem proto_record_is_not_persisted :
  let r := processWebPost the_cfg (calm (Some proto_post)) "__proto__"
             empty_state in
  (exists c, r.1.1 = Normal (Some c)
             /\ content_url c = Some "/__proto__/posts/1")
  /\ storage r.1.2 !! "__proto__"
     = Some {| rec_url := Some "/__proto__/posts/1";
               rec_timestamp := "2024-01-01T00:00:00.000Z" |}
  /\ In (EvWriteFile (storage r.1.2)) r.2
  /\ fs_writeFile (calm (Some proto_post)) = Normal tt
  /\ data_file r.1.2 = Some ∅.
Proof.
  intros r.
  assert (Hn : exists c s1 t1,
             novel_extraction the_cfg (calm (Some proto_post)) "__proto__"
               empty_state c s1 t1
             /\ content_url c = Some "/__proto__/posts/1"
             /\ timestamp c = "2024-01-01T00:00:00.000Z"
             /\ storage s1 = ∅).
  { eexists _, _, _. split.
    - exists tt, proto_post. repeat split; reflexivity.
    - repeat split; reflexivity. }
  destruct Hn as (c & s1 & t1 & Hn & Hu & Hts & Hs1).
  pose proof (processWebPost_commit _ _ _ _ _ _ _ Hn) as Hp.
  cbn [quit fs_writeFile calm world] in Hp. fold r in Hp. rewrite Hp.
  cbn [fst snd committed storage data_file]. unfold record_of, written.
  cbn [fs_writeFile calm world]. rewrite Hu, Hts, Hs1.
  split; [exists c; auto|]. split; [apply lookup_insert_eq|].
  split; [apply in_or_app; right; now left|]. split; [reflexivity|].
  unfold own_properties. now rewrite delete_insert_eq, delete_empty.
Qed.

(** C5: With the media directory missing, [open] fails and
    [downloadMedia] throws to its caller instead of returning null. *)
Theorem downloadMedia_throws_when_open_fails :
  (downloadMedia the_cfg
     (world None (Throw (Failure "ENOENT")) 0 (Normal tt))
     "alpha" "https://video.example/1.mp4" video 0 empty_state).1.1
  = Throw (Failure "ENOENT").
Proof. reflexivity. Qed.

Lemma attachments_capped_witness :
  (exists files before after,
      (sendDiscordMessage (calm None) alpha two_media empty_state).2
      = before ++ EvSend "alpha" "1234567890" (Some "/alpha/posts/200")
                    (message_text "alpha" two_media) files true :: after
      /\ In "/app/media/a.jpg" files /\ unlinks after = files)
  /\ (exists before after,
        (sendDiscordMessage (world None (Normal tt) 25000000 (Normal tt))
           alpha two_media empty_state).2
        = before ++ EvSend "alpha" "1234567890" (Some "/alpha/posts/200")
                      (message_text "alpha" two_media) [] true :: after)
  /\ Forall (fun ev => ~ is_unlink ev)
       (sendDiscordMessage (world None (Normal tt) 4096 refused) alpha
          two_media empty_state).2.
Proof.
  split; [|split].
  - destruct (attachments_capped (calm None) alpha two_media empty_state)
      as (H & _); [reflexivity|].
    destruct (H tt eq_refl)
      as (files & before & after & ok & E & _ & Hiff & _ & Hok & _).
    destruct (Hok tt eq_refl) as (-> & _ & Hunl & _).
    exists files, before, after. split; [exact E|]. split; [|exact Hunl].
    apply Hiff.
    exists {| media_type := image; media_path := Some "/app/media/a.jpg" |}.
    split; [now left|]. split; [reflexivity|]. split; [discriminate|].
    exists 4096%Z. split; reflexivity.
  - destruct (attachments_capped (world None (Normal tt) 25000000 (Normal tt))
                alpha two_media empty_state) as (H & _); [reflexivity|].
    destruct (H tt eq_refl)
      as (files & before & after & ok & E & _ & _ & Hcap & Hok & _).
    destruct (Hok tt eq_refl) as (-> & _).
    exists before, after. rewrite E. destruct files as [|f files]; [reflexivity|].
    specialize (Hcap f 25000000%Z (or_introl eq_refl) eq_refl). discriminate Hcap.
  - edestruct (attachments_capped (world None (Normal tt) 4096 refused) alpha
                 two_media empty_state) as (_ & _ & _ & H); [reflexivity|].
    exact (proj1 (H _ eq_refl)).
Defined.

Lemma link_excludes_media_witness :
  exists c s' t,
    processWebPost the_cfg (calm (Some link_post)) "alpha" empty_state
    = (Normal (Some c), s', t)
    /\ embeddedLink c = Some {| link_url := "https://example.org/a" |}
    /\ media c = [].
Proof.
  eexists _, _, _. split; [reflexivity|]. split; [reflexivity|].
  eapply (proj1 (link_excludes_media the_cfg (calm (Some link_post)) "alpha"
                   empty_state _ _ _ eq_refl)).
  discriminate.
Defined.

Lemma permalinkless_page_notified_once_witness :
  (length (sends_for "alpha"
             (run_checks the_cfg
                [(alpha, calm (Some (plain_post None)));
                 (alpha, calm (Some (plain_post None)))]
                empty_state).2) <= 1)%nat.
Proof.
  apply (proj2 (proj2 (permalinkless_page_notified_once the_cfg))).
  intros pageConfig env post [H|[H|[]]] _ Hp; injection H as <- <-;
    vm_compute in Hp; injection Hp as <-; reflexivity.
Defined.

(** * Properties of the rest of the program *)

(** ** The monitoring loop: connectivity and scheduling *)

Lemma probe_run net endpoints s :
  probe net endpoints s
  = (Normal (existsb (reachable net) endpoints), s,
     map EvHead (probed net endpoints)).
Proof.
  induction endpoints as [|e rest IH]; [reflexivity|].
  cbn [probe existsb probed map]. unfold bind, emit, reachable at 1 3.
  destruct (http_head net e) as [h|err]; cbn [orb]; [reflexivity|].
  cbv beta iota. now rewrite IH.
Qed.

Lemma probed_first net pre e post :
  Forall (fun x => reachable net x = false) pre ->
  reachable net e = true ->
  probed net (pre ++ e :: post) = pre ++ [e].
Proof.
  induction 1 as [|x pre Hx _ IH]; intros He; cbn [probed app].
  - now rewrite He.
  - now rewrite Hx, IH.
Qed.

Lemma probed_all net endpoints :
  Forall (fun x => reachable net x = false) endpoints ->
  probed net endpoints = endpoints.
Proof.
  induction 1 as [|x l Hx _ IH]; cbn [probed]; [reflexivity|].
  now rewrite Hx, IH.
Qed.

(** X1: The connectivity check asks the endpoints in their order and stops
    at the first that answers: it gives true exactly when one of them
    answers, no endpoint after that one gets a request, and when none
    answers every one was asked and the result is false.  It never throws
    and changes no state. *)
Theorem connectivity_stops_at_first_answer (net : Env)
    (endpoints : list string) (s : State) :
  let r := probe net endpoints s in
  r.1.2 = s
  /\ (r.1.1 = Normal true
      <-> exists e, In e endpoints /\ reachable net e = true)
  /\ (r.1.1 = Normal false
      <-> Forall (fun e => reachable net e = false) endpoints)
  /\ (forall pre e post,
        endpoints = pre ++ e :: post ->
        Forall (fun x => reachable net x = false) pre ->
        reachable net e = true ->
        r = (Normal true, s, map EvHead (pre ++ [e])))
  /\ (Forall (fun e => reachable net e = false) endpoints ->
      r = (Normal false, s, map EvHead endpoints)).
Proof.
  intros r. unfold r. rewrite probe_run. cbn [fst snd].
  split; [reflexivity|]. split; [|split; [|split]].
  - split.
    + intros H. injection H as H. apply existsb_exists in H. exact H.
    + intros H. f_equal. apply existsb_exists. exact H.
  - split.
    + intros H. injection H as H. apply Forall_forall. intros e He.
      destruct (reachable net e) eqn:Hr; [|reflexivity].
      assert (existsb (reachable net) endpoints = true).
      { apply existsb_exists. exists e. split; [|exact Hr].
        now apply list_elem_of_In. }
      congruence.
    + intros H. f_equal. destruct (existsb (reachable net) endpoints) eqn:Hx;
        [|reflexivity].
      apply existsb_exists in Hx as (e & He & Hr).
      rewrite Forall_forall in H.
      rewrite (H e (proj2 (list_elem_of_In _ _) He)) in Hr. discriminate.
  - intros pre e post -> Hpre He. rewrite (probed_first _ _ _ _ Hpre He).
    f_equal. f_equal. f_equal. apply existsb_exists. exists e.
    split; [apply in_or_app; right; now left | exact He].
  - intros H. rewrite (probed_all _ _ H). f_equal. f_equal. f_equal.
    destruct (existsb (reachable net) endpoints) eqn:Hx; [|reflexivity].
    apply existsb_exists in Hx as (e & He & Hr).
    rewrite Forall_forall in H.
    rewrite (H e (proj2 (list_elem_of_In _ _) He)) in Hr. discriminate.
Qed.

Lemma monitorPage_nothrow cfg env pageConfig :
  nothrow (monitorPage cfg env pageConfig).
Proof.
  unfold monitorPage. apply nothrow_try_catch. intros e. apply nothrow_emit.
Qed.

Lemma check_page_normal cfg env pageConfig s :
  (check_page cfg env pageConfig s).1.1 = Normal tt.
Proof.
  destruct (check_page_tail cfg env pageConfig s)
    as (r & s0 & t0 & s' & t' & Hm & Hc & _).
  rewrite Hc. cbn [fst].
  destruct (monitorPage_nothrow cfg env pageConfig s) as [u Hu].
  rewrite Hm in Hu. cbn in Hu. now rewrite Hu.
Qed.

Lemma check_all_run cfg checks :
  forall s,
    check_all cfg checks s
    = (Normal tt, (run_checks cfg checks s).1, (run_checks cfg checks s).2).
Proof.
  induction checks as [|[pageConfig env] checks IH]; intros s; [reflexivity|].
  cbn [check_all run_checks]. unfold bind.
  pose proof (check_page_normal cfg env pageConfig s) as Hn.
  destruct (check_page cfg env pageConfig s) as [[r s1] t1].
  cbn [fst] in Hn. subst r. rewrite IH.
  now destruct (run_checks cfg checks s1) as [s2 t2].
Qed.

(** X2: One turn of the monitoring loop.  When no endpoint answers, no
    page is checked: the state is what it was, every endpoint was asked,
    and the next turn is 300000 ms ahead.  When an endpoint answers and
    the checks of the pages come back, they stand between the two log
    lines and the next turn is ahead by the configured interval; should
    they come back with an exception, the [catch] sets it 300000 ms ahead.
    In the schedule where the checks run one after the other, and as long
    as no image callback is rejected (which would end the process), they
    come back without an exception. *)
Theorem monitoringLoop_turn (online : number) (net : Env) (pages : M unit)
    (s : State) :
  let r := monitoringLoop online net pages s in
  let up := existsb (reachable net) CONNECTIVITY_ENDPOINTS in
  (up = false ->
      r = (Normal (Num 300000), s,
           map EvHead CONNECTIVITY_ENDPOINTS
             ++ [EvLog "No internet connection - retrying in 5 minutes"]))
  /\ (up = true -> forall s1 t1,
      pages s = (Normal tt, s1, t1) ->
      r = (Normal online, s1,
           map EvHead (probed net CONNECTIVITY_ENDPOINTS)
             ++ EvLog "Internet connection available - checking pages"
             :: t1 ++ [EvLog "Next check"]))
  /\ (up = true -> forall e s1 t1,
      pages s = (Throw e, s1, t1) ->
      r.1.1 = Normal (Num 300000) /\ r.1.2 = s1)
  /\ (up = true -> forall cfg checks,
      pages = check_all cfg checks ->
      (forall pageConfig env,
          In (pageConfig, env) checks ->
          callbacks_hold cfg env (fst pageConfig)) ->
      r.1.1 = Normal online
      /\ r.1.2 = (run_checks cfg checks s).1
      /\ sends r.2 = sends (run_checks cfg checks s).2).
Proof.
  intros r up.
  assert (Hoff : up = false ->
                 probed net CONNECTIVITY_ENDPOINTS = CONNECTIVITY_ENDPOINTS).
  { intros Hup. apply probed_all. apply Forall_forall. intros e He.
    destruct (reachable net e) eqn:Hr; [|reflexivity].
    assert (existsb (reachable net) CONNECTIVITY_ENDPOINTS = true).
    { apply existsb_exists. exists e. split; [|exact Hr].
      now apply list_elem_of_In. }
    unfold up in Hup. congruence. }
  assert (Hrun : r = match up with
                     | false =>
                         (Normal (Num 300000), s,
                          map EvHead (probed net CONNECTIVITY_ENDPOINTS)
                            ++ [EvLog "No internet connection - retrying in 5 minutes"])
                     | true =>
                         match pages s with
                         | (Normal _, s1, t1) =>
                             (Normal online, s1,
                              map EvHead (probed net CONNECTIVITY_ENDPOINTS)
                                ++ EvLog "Internet connection available - checking pages"
                                :: t1 ++ [EvLog "Next check"])
                         | (Throw _, s1, t1) =>
                             (Normal (Num 300000), s1,
                              (map EvHead (probed net CONNECTIVITY_ENDPOINTS)
                                 ++ EvLog "Internet connection available - checking pages"
                                 :: t1) ++ [EvLog "Monitoring loop error"])
                         end
                     end).
  { unfold r, monitoringLoop, checkInternetConnectivity.
    cbv beta iota delta [try_catch bind]. rewrite probe_run. fold up.
    destruct up.
    - cbv beta iota delta [emit ret].
      destruct (pages s) as [[[u|e] s1] t1]; cbn [app];
        now rewrite ?app_nil_r.
    - cbv beta iota delta [emit ret]. now rewrite !app_nil_r. }
  split; [|split; [|split]].
  - intros Hup. rewrite Hrun, Hup, (Hoff Hup). reflexivity.
  - intros Hup s1 t1 Hp. now rewrite Hrun, Hup, Hp.
  - intros Hup e s1 t1 Hp. now rewrite Hrun, Hup, Hp.
  - intros Hup cfg checks -> _. rewrite Hrun, Hup, check_all_run.
    destruct (run_checks cfg checks s) as [s1 t1]. cbn [fst snd].
    split; [reflexivity|]. split; [reflexivity|].
    rewrite !sends_app, sends_cons, sends_app.
    assert (Hq : sends (map EvHead (probed net CONNECTIVITY_ENDPOINTS)) = []).
    { apply sends_none. apply Forall_map. apply Forall_forall.
      intros x _. reflexivity. }
    rewrite Hq. cbn [sends omap send_of app]. now rewrite !app_nil_r.
Qed.

(** X3: [monitorPage] lets no exception out, whatever fails inside it:
    as long as no image callback is rejected (which would end the process)
    it returns; when [processWebPost] throws, the state it left is kept
    and the error is logged; when it returns null nothing more happens. *)
Theorem monitorPage_never_throws (cfg : Config) (env : Env)
    (pageConfig : string * string) (s : State) :
  (callbacks_hold cfg env (fst pageConfig) ->
   (monitorPage cfg env pageConfig s).1.1 = Normal tt)
  /\ (forall e s1 t1,
        processWebPost cfg env (fst pageConfig) s = (Throw e, s1, t1) ->
        monitorPage cfg env pageConfig s = (Normal tt, s1, t1 ++ error_log))
  /\ (forall s1 t1,
        processWebPost cfg env (fst pageConfig) s = (Normal None, s1, t1) ->
        monitorPage cfg env pageConfig s = (Normal tt, s1, t1)).
Proof.
  split; [|split].
  - intros _. destruct (monitorPage_nothrow cfg env pageConfig s) as [[] Hu].
    exact Hu.
  - intros e s1 t1 Hp.
    rewrite (monitorPage_idle cfg env _ _ _ _ _ Hp); [reflexivity|congruence].
  - intros s1 t1 Hp.
    rewrite (monitorPage_idle cfg env _ _ _ _ _ Hp); [|congruence].
    now rewrite app_nil_r.
Qed.

(** ** The store over a check and over a run *)

(** The delivery and the late callbacks leave the store as
    [processWebPost] left it. *)
Lemma check_page_keeps_store cfg env pageConfig s :
  same_store (processWebPost cfg env (fst pageConfig) s).1.2
    (check_page cfg env pageConfig s).1.2.
Proof.
  destruct (check_page_tail cfg env pageConfig s)
    as (rm & s0 & t0 & s' & t' & Hm & Hc & Hs & _).
  rewrite Hc. cbn [fst snd].
  etransitivity; [|exact Hs]. clear Hc Hs.
  destruct (processWebPost cfg env (fst pageConfig) s) as [[r s1] t1] eqn:Hp.
  cbn [fst snd].
  destruct r as [[c|]|e].
  - destruct (monitorPage_deliver cfg env _ _ _ _ _ Hp)
      as (pushed & s2 & t2 & _ & Hs2 & _ & Hdel).
    pose proof (sendDiscordMessage_run env pageConfig
                  (with_media c (media c ++ pushed)) s2) as Hrun.
    cbv zeta in Hrun.
    destruct (sendDiscordMessage env pageConfig
                (with_media c (media c ++ pushed)) s2)
      as [[r3 s3] t3] eqn:Hsend.
    rewrite (Hdel _ _ _ eq_refl) in Hm. injection Hm as <- <- <-.
    etransitivity; [exact Hs2|].
    destruct (channels_fetch env (snd pageConfig));
      [|injection Hrun as -> -> ->; reflexivity].
    destruct Hrun as (body & files & logs & _ & _ & Hrun).
    destruct (channel_send env).
    + destruct Hrun as (s3' & dels & Hrun & (H1 & H2 & _) & _).
      injection Hrun as -> -> ->. split; assumption.
    + injection Hrun as -> -> ->. reflexivity.
  - rewrite (monitorPage_idle cfg env _ _ _ _ _ Hp) in Hm by congruence.
    injection Hm as <- <- <-. reflexivity.
  - rewrite (monitorPage_idle cfg env _ _ _ _ _ Hp) in Hm by congruence.
    injection Hm as <- <- <-. reflexivity.
Qed.

(** The store after a check, by the two cases of [processWebPost]. *)
Lemma check_page_store_cases cfg env pageConfig s :
  let s' := (check_page cfg env pageConfig s).1.2 in
  ((forall c s1 t1, ~ novel_extraction cfg env (fst pageConfig) s c s1 t1)
   /\ storage s' = storage s /\ data_file s' = data_file s)
  \/ (exists c s1 t1,
        novel_extraction cfg env (fst pageConfig) s c s1 t1
        /\ storage s' = <[fst pageConfig := record_of c]> (storage s)
        /\ data_file s' = written env (storage s') (data_file s)).
Proof.
  intros s'. destruct (check_page_keeps_store cfg env pageConfig s) as [H1 H2].
  fold s' in H1, H2.
  destruct (novel_extraction_dec cfg env (fst pageConfig) s)
    as [(c & s1 & t1 & Hn)|Hno].
  - right. exists c, s1, t1. split; [exact Hn|].
    rewrite (processWebPost_commit _ _ _ _ _ _ _ Hn) in H1, H2.
    destruct (novel_extraction_store _ _ _ _ _ _ _ Hn) as (E1 & E2 & _).
    cbn [fst snd committed storage data_file] in H1, H2.
    rewrite E1 in H1. rewrite E1, E2 in H2. split; [exact H1|].
    rewrite H2, H1. reflexivity.
  - left. split; [exact Hno|].
    destruct (processWebPost_skip cfg env (fst pageConfig) s Hno)
      as ([E1 E2] & _). split; congruence.
Qed.

(** X4: A stored record is never deleted, and a run of checks changes the
    records of the checked pages only: a page that was recorded stays
    recorded, and a page none of the checks is about keeps its record (or
    stays without one) and has nothing sent under its name. *)
Theorem records_are_kept (cfg : Config)
    (checks : list ((string * string) * Env)) (s : State) (p : string) :
  (is_Some (storage s !! p) ->
   is_Some (storage (run_checks cfg checks s).1 !! p))
  /\ ((forall pageConfig env, In (pageConfig, env) checks -> fst pageConfig <> p) ->
      storage (run_checks cfg checks s).1 !! p = storage s !! p
      /\ sends_for p (run_checks cfg checks s).2 = []).
Proof.
  revert s. induction checks as [|[pageConfig env] checks IH]; intros s.
  - split; [auto|]. intros _. split; reflexivity.
  - cbn [run_checks].
    destruct (check_page cfg env pageConfig s) as [[r s1] t1] eqn:Hc.
    destruct (IH s1) as [IH1 IH2].
    destruct (run_checks cfg checks s1) as [s2 t2] eqn:Hr.
    cbn [fst snd] in *. split.
    + intros Hsome. apply IH1.
      destruct (check_page_store_cases cfg env pageConfig s)
        as [(_ & E & _)|(c & s0 & t0 & _ & E & _)];
        rewrite Hc in E; cbn [fst snd] in E; rewrite E; [exact Hsome|].
      destruct (decide (fst pageConfig = p)) as [<-|Hne].
      * rewrite lookup_insert_eq. eauto.
      * now rewrite lookup_insert_ne.
    + intros Hother.
      destruct (check_page_other cfg env pageConfig s p) as [E1 E2].
      { apply (Hother pageConfig env). now left. }
      rewrite Hc in E1, E2. cbn [fst snd] in E1, E2.
      destruct IH2 as [E3 E4].
      { intros pc' env' Hin. apply (Hother pc' env'). now right. }
      rewrite sends_for_app, E2, E4, E3, E1. split; reflexivity.
Qed.

(** X5: The data file follows the [posts] object.  What is written of
    the object is its own properties: every record but one under
    [__proto__].  A check leaves the file as it was, leaves it without an
    object, or makes it hold the own properties of the object.  A novel
    post whose write succeeds makes it hold them, records that earlier
    failed writes left out included.  When the write fails the object has
    moved on all the same, and the file is what the stage of the failure
    left: untouched when it could not be opened, without an object when
    the write broke off, complete when only the close failed.  Over a run
    of checks, one after the other, whose writes all succeed, a file that
    held the own properties of the object at the start holds them at the
    end. *)
Theorem data_file_follows_storage (cfg : Config) :
  (forall posts p,
      own_properties posts !! p
      = if decide (p = "__proto__") then None else posts !! p)
  /\ (forall env pageConfig s,
        let s' := (check_page cfg env pageConfig s).1.2 in
        (data_file s' = data_file s \/ data_file s' = None
         \/ data_file s' = Some (own_properties (storage s')))
        /\ (forall c s1 t1 u,
              novel_extraction cfg env (fst pageConfig) s c s1 t1 ->
              fs_writeFile env = Normal u ->
              data_file s' = Some (own_properties (storage s')))
        /\ (forall c s1 t1 e,
              novel_extraction cfg env (fst pageConfig) s c s1 t1 ->
              fs_writeFile env = Throw e ->
              storage s' !! fst pageConfig = Some (record_of c)
              /\ data_file s'
                 = match write_stage env with
                   | at_open => data_file s
                   | at_write => None
                   | at_close => Some (own_properties (storage s'))
                   end))
  /\ (forall checks s,
        data_file s = Some (own_properties (storage s)) ->
        (forall pageConfig env,
            In (pageConfig, env) checks -> exists u, fs_writeFile env = Normal u) ->
        data_file (run_checks cfg checks s).1
        = Some (own_properties (storage (run_checks cfg checks s).1))).
Proof.
  assert (Hone : forall env pageConfig s,
             let s' := (check_page cfg env pageConfig s).1.2 in
             (data_file s' = data_file s \/ data_file s' = None
              \/ data_file s' = Some (own_properties (storage s')))
             /\ (forall c s1 t1 u,
                   novel_extraction cfg env (fst pageConfig) s c s1 t1 ->
                   fs_writeFile env = Normal u ->
                   data_file s' = Some (own_properties (storage s')))
             /\ (forall c s1 t1 e,
                   novel_extraction cfg env (fst pageConfig) s c s1 t1 ->
                   fs_writeFile env = Throw e ->
                   storage s' !! fst pageConfig = Some (record_of c)
                   /\ data_file s'
                      = match write_stage env with
                        | at_open => data_file s
                        | at_write => None
                        | at_close => Some (own_properties (storage s'))
                        end)).
  { intros env pageConfig s s'.
    destruct (check_page_store_cases cfg env pageConfig s)
      as [(Hno & E1 & E2)|(c & s1 & t1 & Hn & E1 & E2)]; fold s' in E1, E2.
    - split; [now left|]. split.
      + intros c s1 t1 u Hn. destruct (Hno c s1 t1 Hn).
      + intros c s1 t1 e Hn. destruct (Hno c s1 t1 Hn).
    - unfold written in E2. split; [|split].
      + destruct (fs_writeFile env), (write_stage env); auto.
      + intros c' s1' t1' u _ Hw. now rewrite Hw in E2.
      + intros c' s1' t1' e Hn' Hw. rewrite Hw in E2. split.
        * rewrite E1, lookup_insert_eq.
          destruct Hn as (u0 & post & _ & Hp & _ & Hx).
          destruct Hn' as (u0' & post' & _ & Hp' & _ & Hx').
          rewrite Hp in Hp'. injection Hp' as <-. rewrite Hx in Hx'.
          now injection Hx' as <- _ _.
        * rewrite E2. now destruct (write_stage env). }
  split; [|split; [exact Hone|]].
  { intros posts p. unfold own_properties.
    destruct (decide (p = "__proto__")) as [->|Hne];
      [apply lookup_delete_eq | now apply lookup_delete_ne]. }
  intros checks. induction checks as [|[pageConfig env] checks IH];
    intros s Hsync Hw; [exact Hsync|].
  cbn [run_checks].
  destruct (check_page_store_cases cfg env pageConfig s)
    as [(_ & E1 & E2)|(c & s1 & t1 & _ & E1 & E2)].
  - destruct (check_page cfg env pageConfig s) as [[r s1] t1].
    cbn [fst snd] in E1, E2.
    specialize (IH s1). destruct (run_checks cfg checks s1) as [s2 t2].
    cbn [fst]. apply IH.
    + now rewrite E2, E1.
    + intros pc' env' Hin. apply (Hw pc' env'). now right.
  - destruct (Hw pageConfig env) as [u Hu]; [now left|].
    unfold written in E2. rewrite Hu in E2.
    destruct (check_page cfg env pageConfig s) as [[r s1'] t1'].
    cbn [fst snd] in E1, E2.
    specialize (IH s1'). destruct (run_checks cfg checks s1') as [s2 t2].
    cbn [fst]. apply IH; [exact E2|].
    intros pc' env' Hin. apply (Hw pc' env'). now right.
Qed.

(** ** What becomes of a novel post *)

Lemma check_page_after_throw cfg env pageConfig s e s1 t1 :
  processWebPost cfg env (fst pageConfig) s = (Throw e, s1, t1) ->
  exists s' t',
    check_page cfg env pageConfig s = (Normal tt, s', (t1 ++ error_log) ++ t')
    /\ same_store s1 s' /\ Forall is_fetch t'.
Proof.
  intros Hp.
  destruct (check_page_tail cfg env pageConfig s)
    as (rm & s0 & t0 & s' & t' & Hm & Hc & Hs & Ht).
  rewrite (monitorPage_idle cfg env _ _ _ _ _ Hp) in Hm by congruence.
  injection Hm as <- <- <-. exists s', t'. rewrite Hc. auto.
Qed.

Lemma sends_fetch t : Forall is_fetch t -> sends t = [].
Proof.
  intros H. apply sends_none. eapply Forall_impl; [exact H|].
  apply is_fetch_not_send.
Qed.

Lemma sends_extract t : Forall is_extract t -> sends t = [].
Proof.
  intros H. apply sends_none. eapply Forall_impl; [exact H|].
  apply is_extract_not_send.
Qed.

(** X6: When the write of the data file or the closing of the browser
    fails after a novel post was extracted, [processWebPost] throws with
    the record already set: nothing is sent in this check, and nothing is
    sent for the page in later checks as long as its first post keeps that
    permalink.  The post is lost. *)
Theorem failed_commit_loses_post (cfg : Config) (env : Env)
    (pageConfig : string * string) (s : State) (c : Content) (s1 : State)
    (t1 : list Event) :
  novel_extraction cfg env (fst pageConfig) s c s1 t1 ->
  (exists e, fs_writeFile env = Throw e) \/ (exists e, quit env = Throw e) ->
  let r := check_page cfg env pageConfig s in
  (exists e, (processWebPost cfg env (fst pageConfig) s).1.1 = Throw e)
  /\ sends r.2 = []
  /\ storage r.1.2 !! fst pageConfig = Some (record_of c)
  /\ (forall later,
        shows cfg (fst pageConfig) (content_url c) later ->
        sends_for (fst pageConfig) (run_checks cfg later r.1.2).2 = []).
Proof.
  intros Hn Hfail r.
  pose proof (processWebPost_commit _ _ _ _ _ _ _ Hn) as Hp.
  destruct (novel_extraction_store _ _ _ _ _ _ _ Hn) as (E1 & _ & Ht1).
  assert (Hthrow : exists e,
             processWebPost cfg env (fst pageConfig) s
             = (Throw e, committed env (fst pageConfig) c s1,
                t1 ++ [EvWriteFile (<[fst pageConfig := record_of c]> (storage s1))])).
  { destruct Hfail as [[e He]|[e He]]; rewrite He in Hp.
    - destruct (quit env); eauto.
    - eauto. }
  destruct Hthrow as [e He].
  destruct (check_page_after_throw cfg env pageConfig s _ _ _ He)
    as (s' & t' & Hc & [Hs _] & Ht').
  assert (Hrec : storage r.1.2 !! fst pageConfig = Some (record_of c)).
  { unfold r. rewrite Hc. cbn [fst snd]. rewrite Hs. cbn [committed storage].
    apply lookup_insert_eq. }
  split; [exists e; now rewrite He|]. split; [|split; [exact Hrec|]].
  - unfold r. rewrite Hc. cbn [fst snd].
    rewrite !sends_app, (sends_extract t1 Ht1), (sends_fetch t' Ht').
    reflexivity.
  - intros later Hshow.
    apply (unchanged_page_is_silent cfg (fst pageConfig) (content_url c) later);
      [|exact Hshow].
    now rewrite Hrec.
Qed.

(** No callback is rejected where every HEAD request is answered and
    every file opens and closes. *)
Lemma callbacks_hold_intro cfg env pageName :
  (forall u, exists h, http_head env u = Normal h) ->
  (forall f, exists u, fs_open env f = Normal u) ->
  (forall f, exists u, fs_close env f = Normal u) ->
  callbacks_hold cfg env pageName.
Proof.
  intros Hh Ho Hc task s. unfold image_settled, bind, lift.
  destruct (Hh (snd task)) as [h ->].
  destruct (truthy h && gt (parseInt (to_String h)) (Num 2048));
    [|eexists; reflexivity].
  unfold downloadMedia, bind, emit, lift, get_state, set_media_files,
    try_finally, try_catch, ret.
  destruct (Ho (media_file_path cfg env pageName image (fst task))) as [u ->].
  destruct (Hc (media_file_path cfg env pageName image (fst task))) as [u' ->].
  destruct (http_get env (snd task)); cbn; eexists; reflexivity.
Qed.

(** X7: When nothing fails after a novel post was extracted (no image
    callback, the write, the closing of the browser, the channel and the
    send), the check ends with exactly one message sent, that of the post,
    with the record of the post stored and the data file holding the own
    properties of the object. *)
Theorem novel_post_is_delivered (cfg : Config) (env : Env)
    (pageConfig : string * string) (s : State) (c : Content) (s1 : State)
    (t1 : list Event) (u1 u2 u3 u4 : unit) :
  novel_extraction cfg env (fst pageConfig) s c s1 t1 ->
  callbacks_hold cfg env (fst pageConfig) ->
  fs_writeFile env = Normal u1 -> quit env = Normal u2 ->
  channels_fetch env (snd pageConfig) = Normal u3 ->
  channel_send env = Normal u4 ->
  let r := check_page cfg env pageConfig s in
  sends r.2 = [(fst pageConfig, content_url c, true)]
  /\ storage r.1.2 !! fst pageConfig = Some (record_of c)
  /\ data_file r.1.2 = Some (own_properties (storage r.1.2)).
Proof.
  intros Hn _ Hw Hq Hf Hsend r.
  pose proof (processWebPost_commit _ _ _ _ _ _ _ Hn) as Hp.
  rewrite Hw, Hq in Hp.
  destruct (novel_extraction_store _ _ _ _ _ _ _ Hn) as (E1 & _ & Ht1).
  destruct (check_page_store_cases cfg env pageConfig s)
    as [(Hno & _)|(c' & s1' & t1' & Hn' & Hsto & Hfile)];
    [destruct (Hno _ _ _ Hn)|].
  assert (c' = c) as ->.
  { destruct Hn as (u0 & post & _ & Hpg & _ & Hx).
    destruct Hn' as (u0' & post' & _ & Hpg' & _ & Hx').
    rewrite Hpg in Hpg'. injection Hpg' as <-. rewrite Hx in Hx'.
    now injection Hx'. }
  unfold written in Hfile. rewrite Hw in Hfile.
  split; [|split; [unfold r; rewrite Hsto; apply lookup_insert_eq|exact Hfile]].
  destruct (check_page_tail cfg env pageConfig s)
    as (rm & s0 & t0 & s' & t' & Hm & Hc & _ & Ht').
  destruct (monitorPage_deliver cfg env _ _ _ _ _ Hp)
    as (pushed & s2 & t2 & _ & _ & Ht2 & Hdel).
  pose proof (sendDiscordMessage_run env pageConfig
                (with_media c (media c ++ pushed)) s2) as Hrun.
  cbv zeta in Hrun. rewrite Hf, Hsend in Hrun.
  destruct Hrun as (body & files & logs & Hlogs & _ & s3 & dels & Hrun & _ & Hdels).
  rewrite (Hdel _ _ _ Hrun) in Hm. injection Hm as <- <- <-.
  unfold r. rewrite Hc. cbn [fst snd].
  rewrite !sends_app, sends_cons, !sends_cons. cbn [send_of with_media content_url].
  rewrite (sends_extract t1 Ht1), (sends_fetch t2 Ht2), (sends_fetch t' Ht').
  assert (Hl : sends logs = []).
  { apply sends_none. eapply Forall_impl; [exact Hlogs|apply is_log_not_send]. }
  assert (Hd : sends dels = []).
  { apply sends_none. eapply Forall_impl; [exact Hdels|].
    apply is_cleanup_not_send. }
  rewrite Hl, Hd. reflexivity.
Qed.

(** X8: When [open] fails for the video of a novel post that has no link
    preview, [processWebPost] throws before the commit: the store is what
    it was, nothing is sent, and the post is still novel at the next
    check. *)
Theorem video_open_failure_aborts_check (cfg : Config) (env : Env)
    (pageConfig : string * string) (s : State) (post : PostElement)
    (src : string) (u : unit) (e : error) :
  build env = Normal u ->
  page_source env (page_url cfg (fst pageConfig)) = Normal (Some post) ->
  already_seen s (fst pageConfig) (fullPostUrl_of post) = false ->
  linkPreview post = None ->
  video_src post = Some (Some src) -> src <> EmptyString ->
  fs_open env (media_file_path cfg env (fst pageConfig) video 0) = Throw e ->
  let r := check_page cfg env pageConfig s in
  (exists e', (processWebPost cfg env (fst pageConfig) s).1.1 = Throw e')
  /\ storage r.1.2 = storage s /\ data_file r.1.2 = data_file s
  /\ sends r.2 = []
  /\ already_seen r.1.2 (fst pageConfig) (fullPostUrl_of post) = false.
Proof.
  intros Hb Hp Hseen Hlp Hv Hsrc Hopen r.
  assert (Hx : (extract_content cfg env (fst pageConfig) post s).1.1 = Throw e).
  { unfold extract_content, bind. rewrite Hlp. unfold ret at 1.
    cbv beta iota. unfold extract_video. rewrite Hv.
    destruct src as [|a src]; [congruence|]. cbn [truthy].
    unfold bind.
    pose proof (downloadMedia_open_throws cfg env (fst pageConfig)
                  (to_String (Some (String a src))) video 0 s e Hopen) as Hd.
    destruct (downloadMedia cfg env (fst pageConfig)
                (to_String (Some (String a src))) video 0 s) as [[rd sd] td].
    cbn [fst] in Hd. subst rd. reflexivity. }
  assert (Hno : forall c s1 t1,
             ~ novel_extraction cfg env (fst pageConfig) s c s1 t1).
  { intros c s1 t1 (u' & post' & _ & Hp' & _ & Hx').
    rewrite Hp in Hp'. injection Hp' as <-. rewrite Hx' in Hx. discriminate. }
  assert (Hthrow : exists e', (processWebPost cfg env (fst pageConfig) s).1.1
                              = Throw e').
  { unfold processWebPost, bind, lift, try_finally, get_state.
    fold (page_url cfg (fst pageConfig)). rewrite Hb, Hp, Hseen.
    destruct (extract_content cfg env (fst pageConfig) post s) as [[rx sx] tx].
    cbn [fst] in Hx. subst rx. destruct (quit env); cbn; eauto. }
  destruct (check_page_cases cfg env pageConfig s)
    as [(_ & [E1 E2] & Hq)|(c & s1 & t1 & Hn & _)];
    [|destruct (Hno _ _ _ Hn)].
  fold r in E1, E2, Hq.
  split; [exact Hthrow|]. split; [exact E1|]. split; [exact E2|].
  split; [now apply sends_quiet|].
  unfold already_seen in *. now rewrite E1.
Qed.

(** ** The permalink and the embedded link *)

Lemma split_head_clean sep s : all_chars (is_not sep) (split_head sep s) = true.
Proof.
  induction s as [|c s IH]; [reflexivity|]. cbn [split_head].
  destruct (Ascii.eqb c sep) eqn:Hc; [reflexivity|].
  cbn [all_chars]. unfold is_not at 1. now rewrite Hc, IH.
Qed.

Lemma split_head_prefix sep s :
  exists rest,
    s = split_head sep s +:+ rest
    /\ (rest = EmptyString \/ exists rest', rest = String sep rest').
Proof.
  induction s as [|c s (rest & IH & Hrest)].
  - exists EmptyString. split; [reflexivity|now left].
  - cbn [split_head]. destruct (Ascii.eqb_spec c sep) as [->|Hne].
    + exists (String sep s). split; [reflexivity|right; eauto].
    + exists rest. rewrite append_cons, <- IH. split; [reflexivity|exact Hrest].
Qed.

(** X9: The url [processWebPost] compares and stores is the permalink
    up to its first question mark: it is not empty, it holds no question
    mark, and the permalink is that url followed by nothing or by a query
    string.  It is null exactly when the post has no permalink anchor or the
    permalink has nothing before its question mark. *)
Theorem stored_url_has_no_query (post : PostElement) :
  (forall u,
      fullPostUrl_of post = Some u ->
      u <> EmptyString
      /\ all_chars (is_not "?") u = true
      /\ exists rest,
          permalink_href post = Some (u +:+ rest)
          /\ (rest = EmptyString \/ exists rest', rest = String "?" rest'))
  /\ (fullPostUrl_of post = None
      <-> match permalink_href post with
          | None => True
          | Some href => split_head "?" href = EmptyString
          end).
Proof.
  unfold fullPostUrl_of. destruct (permalink_href post) as [href|]; cbn.
  - destruct (split_head "?" href) as [|a u'] eqn:Hs; cbn.
    + split; [discriminate|]. split; auto.
    + split; [|split; [discriminate|intros H; discriminate]].
      intros u Hu. injection Hu as <-. split; [discriminate|].
      split; [rewrite <- Hs; apply split_head_clean|].
      destruct (split_head_prefix "?" href) as (rest & E & Hrest).
      exists rest. rewrite <- Hs, <- E. auto.
  - split; [discriminate|]. split; auto.
Qed.

Lemma extractUrl_logged_run u s :
  exists logs,
    extractUrl_logged u s = (Normal (extractUrl u), s, logs)
    /\ Forall is_log logs
    /\ (forall r, extractUrl_try u = Some (Normal r) -> logs = []).
Proof.
  unfold extractUrl_logged, extractUrl.
  destruct (extractUrl_try u) as [[r|e]|].
  - exists []. split; [reflexivity|]. split; [constructor|reflexivity].
  - exists [EvLog "URL extraction error"]. split; [reflexivity|].
    split; [repeat constructor|discriminate].
  - exists [EvLog "URL extraction error"]. split; [reflexivity|].
    split; [repeat constructor|discriminate].
Qed.

(** X10: Looking for the embedded link never throws and changes no state.
    When the raw url has a malformed escape the link is null and "Link
    processing error" is logged; otherwise there is a link: the normalized
    raw url when that begins with [http] or the preview has no
    image-wrapped anchor, and the normalized href of that anchor
    otherwise. *)
Theorem link_extraction_never_throws (lp : LinkPreview) (s : State) :
  exists r logs,
    extract_link lp s = (Normal r, s, logs)
    /\ Forall is_log logs
    /\ match decodeURIComponent (to_String (rawUrl_of lp)) with
       | Throw _ => r = None /\ logs = [EvLog "Link processing error"]
       | Normal decoded =>
           r = Some {| link_url :=
                         if startsWith (extractUrl decoded) "http"
                         then extractUrl decoded
                         else if truthy (img_parent_href lp)
                              then extractUrl (to_String (img_parent_href lp))
                              else extractUrl decoded |}
       end.
Proof.
  unfold extract_link, try_catch, bind, lift. fold (rawUrl_of lp).
  destruct (decodeURIComponent (to_String (rawUrl_of lp))) as [d|e].
  - destruct (extractUrl_logged_run d s) as (l1 & E1 & L1 & _).
    rewrite E1. destruct (startsWith (extractUrl d) "http").
    + exists (Some {| link_url := extractUrl d |}), (l1 ++ []).
      split; [reflexivity|]. split; [|reflexivity].
      apply Forall_app. split; [exact L1|constructor].
    + destruct (truthy (img_parent_href lp)).
      * destruct (extractUrl_logged_run (to_String (img_parent_href lp)) s)
          as (l2 & E2 & L2 & _).
        rewrite E2.
        exists (Some {| link_url := extractUrl (to_String (img_parent_href lp)) |}),
          (l1 ++ l2 ++ []).
        split; [reflexivity|]. split; [|reflexivity].
        apply Forall_app. split; [exact L1|]. apply Forall_app.
        split; [exact L2|constructor].
      * exists (Some {| link_url := extractUrl d |}), (l1 ++ []).
        split; [reflexivity|]. split; [|reflexivity].
        apply Forall_app. split; [exact L1|constructor].
  - exists None, [EvLog "Link processing error"].
    split; [reflexivity|]. split; [repeat constructor|]. auto.
Qed.

(** X11: A link preview element that carries no url at all (no
    [data-lynx-uri], no href inside or around it, no image-wrapped anchor)
    still gives an embedded link: its url is the text "undefined". *)
Theorem link_without_url_is_undefined (lp : LinkPreview) (s : State) :
  truthy (data_lynx_uri lp) = false -> truthy (inner_href lp) = false ->
  closest_href lp = None -> truthy (img_parent_href lp) = false ->
  extract_link lp s
  = (Normal (Some {| link_url := "undefined" |}), s,
     [EvLog "URL extraction error"]).
Proof.
  intros H1 H2 H3 H4.
  unfold extract_link, try_catch, bind, lift, or_else.
  rewrite H1, H2, H3, H4. reflexivity.
Qed.

(** ** The normalizer on plain, wrapped and encoded input *)

Lemma extractUrl_try_unwraps w ps t :
  URL.searchParams w = Normal ps ->
  URL.get "u" ps = Some t ->
  URL.get "url" ps = None ->
  all_chars (is_not "%") t = true ->
  extractUrl_try w = Some (Normal t).
Proof.
  intros Hps Hu Hurl Ht. unfold extractUrl_try.
  rewrite Hps. cbv beta zeta iota delta [cbind]. rewrite Hu, Hurl.
  unfold decodeURIComponent at 1. rewrite (decode_go_plain t Ht).
  cbn [decode_loop]. unfold decodeURIComponent. rewrite (decode_go_plain t Ht).
  destruct (startsWith t "http"); now rewrite String.eqb_refl.
Qed.

Lemma decode_go_app_plain p x :
  all_chars (is_not "%") p = true ->
  decode_go 0 [] (p +:+ x) = (fun r => p +:+ r) <$> decode_go 0 [] x.
Proof.
  induction p as [|c p IH]; intros Hp.
  - change (EmptyString +:+ x) with x. now destruct (decode_go 0 [] x).
  - cbn [all_chars] in Hp. apply andb_prop in Hp as [Hc Hp].
    rewrite append_cons. cbn [decode_go]. unfold is_not in Hc.
    apply negb_true_iff in Hc. rewrite Hc, (IH Hp).
    now destruct (decode_go 0 [] x).
Qed.

Lemma decode_go_encode t :
  all_chars is_ascii t = true ->
  decode_go 0 [] (encodeURIComponent t) = Some t.
Proof.
  induction t as [|c t IH]; [reflexivity|].
  cbn [all_chars]. intros [Hc Ht]%andb_prop.
  cbn [encodeURIComponent]. destruct (unreserved c) eqn:Hu.
  - destruct (unreserved_plain c Hu) as [_ H2].
    cbn [decode_go]. now rewrite H2, (IH Ht).
  - cbn [decode_go]. change (Ascii.eqb "%" "%") with true. cbv iota.
    rewrite hex_byte_digits. unfold is_ascii in Hc. rewrite Hc.
    now rewrite (IH Ht), ascii_N_embedding.
Qed.

Lemma form_bytes_plain t :
  all_chars (is_not "%") t = true -> all_chars (is_not "+") t = true ->
  URL.form_bytes t = t.
Proof.
  induction t as [|c t IH]; [reflexivity|].
  cbn [all_chars]. intros [H1 Ht1]%andb_prop [H2 Ht2]%andb_prop.
  unfold is_not in H1, H2. apply negb_true_iff in H1, H2.
  cbn [URL.form_bytes]. now rewrite H1, H2, (IH Ht1 Ht2).
Qed.

(** ASCII is its own UTF-8 encoding. *)
Lemma utf8_decode_ascii t : all_chars is_ascii t = true -> is_text t.
Proof.
  unfold is_text, URL.utf8_decode.
  induction t as [|c t IH]; [reflexivity|].
  cbn [all_chars]. intros [Hc Ht]%andb_prop.
  cbn [URL.utf8_go]. unfold is_ascii in Hc. now rewrite Hc, (IH Ht).
Qed.

Lemma form_decode_plain t :
  all_chars is_ascii t = true ->
  all_chars (is_not "%") t = true -> all_chars (is_not "+") t = true ->
  URL.form_decode t = t.
Proof.
  intros Ha Hp Hq. unfold URL.form_decode.
  rewrite (form_bytes_plain t Hp Hq). now apply utf8_decode_ascii.
Qed.

Lemma plain_target_facts t :
  all_chars plain_target_char t = true ->
  all_chars visible t = true /\ all_chars is_ascii t = true
  /\ all_chars (is_not "%") t = true /\ all_chars (is_not "&") t = true
  /\ all_chars (is_not "#") t = true /\ all_chars (is_not "+") t = true.
Proof.
  intros H. repeat split;
    (eapply all_chars_impl; [|exact H]); intros c Hc;
    unfold plain_target_char in Hc;
    repeat (apply andb_prop in Hc as [Hc ?]); assumption.
Qed.

(** X12: A link preview whose [data-lynx-uri] is the Facebook redirect
    around a target gives exactly the target as the embedded link, with
    nothing logged, for every target that begins with [http] and is made of
    printable ASCII without percent sign, ampersand, hash and plus sign. *)
Theorem wrapped_link_gives_target (lp : LinkPreview) (target : string)
    (s : State) :
  data_lynx_uri lp = Some (fb_wrap target) ->
  startsWith target "http" = true ->
  all_chars plain_target_char target = true ->
  extract_link lp s = (Normal (Some {| link_url := target |}), s, []).
Proof.
  intros Hlynx Hhttp Hplain.
  destruct (plain_target_facts target Hplain)
    as (Hvis & Hascii & Hpct & Hamp & Hhash & Hplus).
  assert (Hdec : decodeURIComponent (fb_wrap target)
                 = Normal ("https://l.facebook.com/l.php?u=" +:+ target)).
  { unfold decodeURIComponent, fb_wrap.
    rewrite decode_go_app_plain by reflexivity.
    now rewrite (decode_go_encode target Hascii). }
  assert (Htry : extractUrl_try ("https://l.facebook.com/l.php?u=" +:+ target)
                 = Some (Normal target)).
  { apply (extractUrl_try_unwraps _ [("u", target)]); try reflexivity;
      [|exact Hpct].
    rewrite (searchParams_wrapper target Hvis Hhash Hamp).
    now rewrite (form_decode_plain target Hascii Hpct Hplus). }
  assert (Hraw : or_else (or_else (data_lynx_uri lp) (inner_href lp))
                   (closest_href lp) = Some (fb_wrap target)).
  { rewrite Hlynx. reflexivity. }
  unfold extract_link, try_catch, bind, lift. cbv zeta. rewrite Hraw.
  change (to_String (Some (fb_wrap target))) with (fb_wrap target).
  rewrite Hdec. unfold extractUrl_logged. rewrite Htry. unfold ret.
  cbv beta iota. now rewrite Hhttp.
Qed.

(** X13: [extractUrl] returns its input unchanged when the input is no
    absolute URL, and when it is a URL with neither a [u] nor a [url]
    parameter and without a percent sign. *)
Theorem extractUrl_leaves_plain_input (x : string) :
  (forall e, URL.searchParams x = Throw e -> extractUrl x = x)
  /\ (no_wrapper x = true -> all_chars (is_not "%") x = true ->
      extractUrl x = x).
Proof.
  split.
  - intros e He. unfold extractUrl, extractUrl_try. now rewrite He.
  - intros Hnw Hpct. apply extractUrl_stable; [|exact Hnw].
    intros fuel'. cbn [decode_loop]. unfold decodeURIComponent.
    rewrite (decode_go_plain x Hpct).
    destruct (startsWith x "http"); now rewrite String.eqb_refl.
Qed.

Lemma extractUrl_url_over_u w ps a :
  URL.searchParams w = Normal ps ->
  URL.get "u" ps = Some a ->
  (forall a' b,
      decodeURIComponent a = Normal a' ->
      URL.get "url" ps = Some b -> all_chars (is_not "%") b = true ->
      extractUrl w = b)
  /\ (forall e, decodeURIComponent a = Throw e -> extractUrl w = w).
Proof.
  intros Hps Hu. split.
  - intros a' b Ha Hurl Hb. unfold extractUrl, extractUrl_try.
    rewrite Hps. cbv beta zeta iota delta [cbind]. rewrite Hu, Ha, Hurl.
    unfold decodeURIComponent at 1. rewrite (decode_go_plain b Hb).
    cbn [decode_loop]. unfold decodeURIComponent.
    rewrite (decode_go_plain b Hb).
    destruct (startsWith b "http"); now rewrite String.eqb_refl.
  - intros e Ha. unfold extractUrl, extractUrl_try.
    rewrite Hps. cbv beta zeta iota delta [cbind]. now rewrite Hu, Ha.
Qed.

Lemma parse_query_url eb :
  all_chars (is_not "&") eb = true ->
  URL.parse_query ("url=" +:+ eb) = [("url", URL.form_decode eb)].
Proof.
  intros Hamp. unfold URL.parse_query. rewrite split_all_none.
  2:{ rewrite all_chars_app. apply andb_true_intro. split; [reflexivity|].
      exact Hamp. }
  change (EmptyString +:+ ("url=" +:+ eb))
    with (String "u" (String "r" (String "l" (String "=" eb)))).
  rewrite filter_cons_True by reflexivity. rewrite filter_nil.
  cbn [map]. unfold URL.pair_of.
  change (split_head "=" (String "u" (String "r" (String "l" (String "=" eb)))))
    with "url".
  change (split_rest "=" (String "u" (String "r" (String "l" (String "=" eb)))))
    with (Some eb).
  reflexivity.
Qed.

(** X14: When the Facebook redirect carries both [u] and [url], the value
    of [url] is the one unwrapped; but a malformed escape in the value of
    [u] makes [extractUrl] give back its input, whatever [url] holds.  The
    two values are written in any percent-encoding, of visible characters
    without ampersand and hash. *)
Theorem url_parameter_wins (ea eb : string) :
  all_chars visible ea = true -> all_chars (is_not "#") ea = true ->
  all_chars (is_not "&") ea = true ->
  all_chars visible eb = true -> all_chars (is_not "#") eb = true ->
  all_chars (is_not "&") eb = true ->
  let w := "https://l.facebook.com/l.php?u=" +:+ ea +:+ "&url=" +:+ eb in
  (forall a',
      decodeURIComponent (URL.form_decode ea) = Normal a' ->
      all_chars (is_not "%") (URL.form_decode eb) = true ->
      extractUrl w = URL.form_decode eb)
  /\ (forall e,
        decodeURIComponent (URL.form_decode ea) = Throw e ->
        extractUrl w = w).
Proof.
  intros Hva Hha Haa Hvb Hhb Hab w.
  assert (Hps : URL.searchParams w
                = Normal [("u", URL.form_decode ea);
                          ("url", URL.form_decode eb)]).
  { unfold w.
    change ("&url=" +:+ eb) with (String "&" ("url=" +:+ eb)).
    rewrite searchParams_wrapper_fields; try assumption.
    now rewrite (parse_query_url eb Hab). }
  destruct (extractUrl_url_over_u w _ (URL.form_decode ea) Hps eq_refl)
    as [H1 H2].
  split; [|exact H2].
  intros a' Ha Hb. exact (H1 a' _ Ha eq_refl Hb).
Qed.

Lemma strip_leading_visible s :
  all_chars visible s = true -> URL.strip_leading s = s.
Proof.
  destruct s as [|c s]; [reflexivity|]. cbn [all_chars URL.strip_leading].
  intros [Hc _]%andb_prop. unfold visible in Hc. apply negb_true_iff in Hc.
  now rewrite Hc.
Qed.

Lemma scheme_go_no_colon s :
  all_chars (is_not ":") s = true -> URL.scheme_go s = None.
Proof.
  induction s as [|c s IH]; [reflexivity|]. cbn [all_chars URL.scheme_go].
  intros [Hc Hs]%andb_prop. unfold is_not in Hc. apply negb_true_iff in Hc.
  rewrite Hc, (IH Hs). now destruct (URL.is_scheme_char c).
Qed.

(** X15: What [encodeURIComponent] writes is never an absolute URL (its
    colon is escaped), so [extractUrl] gives a fully encoded URL back as it
    is: the loop over the encoding layers is not reached. *)
Theorem extractUrl_keeps_encoded_component (t : string) :
  extractUrl (encodeURIComponent t) = encodeURIComponent t.
Proof.
  pose proof (encodeURIComponent_safe t) as Hsafe.
  assert (Hthrow : URL.searchParams (encodeURIComponent t) = Throw InvalidURL).
  { unfold URL.searchParams.
    rewrite strip_leading_visible
      by (eapply all_chars_impl; [apply enc_safe_visible|exact Hsafe]).
    rewrite clean_visible
      by (eapply all_chars_impl; [apply enc_safe_visible|exact Hsafe]).
    unfold URL.scheme. rewrite scheme_go_no_colon.
    - now destruct (encodeURIComponent t) as [|c r]; [|destruct (URL.is_alpha c)].
    - eapply all_chars_impl; [|exact Hsafe].
      apply enc_safe_is_not. reflexivity. }
  unfold extractUrl, extractUrl_try. now rewrite Hthrow.
Qed.

(** ** Downloads and their files *)

(** X16: Once [open] has made the file, [downloadMedia] leaves it in the
    media directory whatever follows, deletes nothing and touches nothing
    else; as long as the file closes it returns the path exactly when the
    request, the pipeline and the re-encoding went through and null
    otherwise, and a failing [close] is thrown to the caller even after a
    good download. *)
Theorem downloadMedia_keeps_its_file (cfg : Config) (env : Env)
    (pageName url : string) (type : MediaKind) (index : nat) (s : State)
    (u : unit) :
  let filePath := media_file_path cfg env pageName type index in
  fs_open env filePath = Normal u ->
  let r := downloadMedia cfg env pageName url type index s in
  media_files r.1.2 = {[filePath]} ∪ media_files s
  /\ storage r.1.2 = storage s /\ data_file r.1.2 = data_file s
  /\ pending r.1.2 = pending s
  /\ unlinks r.2 = []
  /\ (forall u', fs_close env filePath = Normal u' ->
      r.1.1 = Normal (if fetched env url filePath type
                      then Some filePath else None))
  /\ (forall e, fs_close env filePath = Throw e -> r.1.1 = Throw e).
Proof.
  intros filePath Ho r. unfold r, downloadMedia. fold filePath.
  unfold bind, emit, lift, get_state, set_media_files, try_finally,
    try_catch, ret, fetched.
  rewrite Ho. cbn [storage data_file media_files pending].
  destruct (http_get env url) as [g|eg], type;
    try destruct (ffmpeg_save env filePath) as [f|ef];
    destruct (fs_close env filePath) as [c|ec]; cbn;
    (repeat split; try reflexivity; intros; congruence).
Qed.

Lemma append_assoc a b c : (a +:+ b) +:+ c = a +:+ (b +:+ c).
Proof.
  induction a as [|x a IH]; [reflexivity|].
  now rewrite !append_cons, IH.
Qed.

Lemma append_inv_head a b c : a +:+ b = a +:+ c -> b = c.
Proof.
  induction a as [|x a IH]; [auto|].
  rewrite !append_cons. intros H. injection H as H. auto.
Qed.

Lemma after_last_none c s :
  all_chars (is_not c) s = true -> after_last c s = None.
Proof.
  induction s as [|x s IH]; [reflexivity|]. cbn [all_chars after_last].
  intros [Hx Hs]%andb_prop. rewrite (IH Hs). unfold is_not in Hx.
  apply negb_true_iff in Hx. now rewrite Hx.
Qed.

Lemma after_last_app c a d :
  all_chars (is_not c) d = true ->
  after_last c (a +:+ String c d) = Some d.
Proof.
  intros Hd. induction a as [|x a IH].
  - change (EmptyString +:+ String c d) with (String c d).
    cbn [after_last]. now rewrite (after_last_none c d Hd), Ascii.eqb_refl.
  - rewrite append_cons. cbn [after_last]. now rewrite IH.
Qed.

Lemma pretty_N_char_digit d : is_digit (pretty_N_char d) = true.
Proof.
  unfold pretty_N_char.
  destruct d as [|p]; [reflexivity|].
  do 4 (destruct p as [p|p|]; try reflexivity).
Qed.

Lemma pretty_N_go_digits x :
  forall s, all_chars is_digit s = true ->
            all_chars is_digit (pretty_N_go x s) = true.
Proof.
  induction (N.lt_wf_0 x) as [x _ IH]. intros s Hs.
  destruct (N.eq_dec x 0%N) as [->|Hx].
  - now rewrite pretty_N_go_0.
  - rewrite pretty_N_go_step by lia. apply IH.
    + apply N.div_lt; lia.
    + cbn [all_chars]. now rewrite pretty_N_char_digit, Hs.
Qed.

Lemma pretty_nat_digits (n : nat) : all_chars is_digit (pretty n) = true.
Proof.
  unfold pretty, pretty_nat, pretty, pretty_N.
  destruct (decide (N.of_nat n = 0%N)); [reflexivity|].
  now apply pretty_N_go_digits.
Qed.

Lemma digit_is_not (d : ascii) :
  is_digit d = false -> forall x, is_digit x = true -> is_not d x = true.
Proof.
  intros Hd x Hx. unfold is_not. apply negb_true_iff.
  destruct (Ascii.eqb_spec x d) as [->|]; [congruence|reflexivity].
Qed.

Lemma media_file_path_tail cfg env pageName type index :
  after_last "_" (media_file_path cfg env pageName type index)
  = Some (pretty index +:+ "." +:+ ext_of type).
Proof.
  assert (E : media_file_path cfg env pageName type index
              = (MEDIA_DIR cfg +:+ "/" +:+ pageName +:+ "_"
                   +:+ date_now env type index)
                +:+ String "_" (pretty index +:+ "." +:+ ext_of type)).
  { unfold media_file_path. rewrite !append_assoc. reflexivity. }
  rewrite E. apply after_last_app. rewrite all_chars_app. apply andb_true_intro. split.
  - eapply all_chars_impl; [|apply pretty_nat_digits].
    apply digit_is_not. reflexivity.
  - now destruct type.
Qed.

Lemma media_file_path_inj cfg env p q ty1 ty2 i j :
  media_file_path cfg env p ty1 i = media_file_path cfg env q ty2 j ->
  ty1 = ty2 /\ i = j.
Proof.
  intros H. apply (f_equal (after_last "_")) in H.
  rewrite !media_file_path_tail in H. injection H as H.
  assert (Hij : i = j).
  { apply (f_equal (split_head ".")) in H.
    change ("." +:+ ext_of ty1) with (String "." (ext_of ty1)) in H.
    change ("." +:+ ext_of ty2) with (String "." (ext_of ty2)) in H.
    rewrite !split_head_app_sep in H.
    - now apply (inj pretty) in H.
    - eapply all_chars_impl; [|apply pretty_nat_digits].
      apply digit_is_not. reflexivity.
    - eapply all_chars_impl; [|apply pretty_nat_digits].
      apply digit_is_not. reflexivity. }
  split; [|exact Hij]. subst j. apply append_inv_head in H.
  destruct ty1, ty2; [reflexivity|discriminate H|discriminate H|reflexivity].
Qed.

(** X17: The index and the kind of a download can be read off its file
    path: whatever the clock shows, and for page names that are one path
    segment, the downloads of two different images, or of a video and an
    image, never go to the same file. *)
Theorem media_files_do_not_collide (cfg : Config) (env : Env)
    (p q : string) (ty1 ty2 : MediaKind) (i j : nat) :
  all_chars (is_not "/") p = true -> all_chars (is_not "/") q = true ->
  media_file_path cfg env p ty1 i = media_file_path cfg env q ty2 j ->
  ty1 = ty2 /\ i = j.
Proof.
  intros _ _ H. exact (media_file_path_inj _ _ _ _ _ _ _ _ H).
Qed.

(** ** The clean-up after a send *)

(** X18: When the channel is found and the send goes through,
    [sendDiscordMessage] returns after exactly one send, whose text is the
    page name in bold, the post's text and, for a post with a link, the
    link line (then without any file); after it every attached file gets
    exactly one deletion request, in the order of attachment, a failed
    deletion stops nothing, and the media directory loses exactly the files
    whose deletion went through. *)
Theorem cleanup_follows_send (env : Env) (pageConfig : string * string)
    (c : Content) (s : State) (u1 u2 : unit) :
  channels_fetch env (snd pageConfig) = Normal u1 ->
  channel_send env = Normal u2 ->
  exists files s' before after,
    sendDiscordMessage env pageConfig c s
    = (Normal tt, s',
       before ++ EvSend (fst pageConfig) (snd pageConfig) (content_url c)
                   (message_text (fst pageConfig) c) files true :: after)
    /\ (has_link c = true -> files = [])
    /\ sends before = [] /\ unlinks before = []
    /\ sends after = [] /\ unlinks after = files
    /\ media_files s'
       = media_files s ∖ list_to_set (List.filter (unlinked env) files)
    /\ storage s' = storage s /\ data_file s' = data_file s
    /\ pending s' = pending s.
Proof.
  intros Hf Hsend.
  destruct (sendDiscordMessage_success env pageConfig c s u1 u2 Hf Hsend)
    as (files & s' & before & after & E & _ & Hfiles & H).
  exists files, s', before, after. split; [exact E|]. split; [|exact H].
  intros Hl. now rewrite Hl in Hfiles.
Qed.

(** ** The fields of the check interval pattern *)

Lemma parseInt_negative n :
  n <> EmptyString -> all_chars is_digit n = true ->
  parseInt (String "-" n) = Num (- decimal_value n).
Proof.
  destruct n as [|c s]; [congruence|]. intros _ Hs.
  pose proof Hs as Hs'. cbn [all_chars] in Hs'.
  apply andb_prop in Hs' as [Hc Hr].
  unfold parseInt. cbn [skip_space].
  change (is_ascii_space "-") with false. cbv iota.
  change (Ascii.eqb "-" "-") with true. cbv iota.
  assert (Hx : startsWith (String c s) "0x" || startsWith (String c s) "0X" = false).
  { cbn [startsWith]. destruct (Ascii.eqb "0" c); [|reflexivity].
    destruct s as [|d s]; [reflexivity|].
    cbn [all_chars] in Hr. apply andb_prop in Hr as [Hd _].
    destruct (digit_facts d Hd) as (_ & _ & _ & H4 & H5 & _).
    now rewrite H4, H5. }
  rewrite Hx. cbn [read_digits]. unfold digit_val at 1.
  unfold is_digit in Hc. rewrite Hc.
  rewrite (read_digits_decimal s Hr). cbn [decimal_value].
  f_equal; ring.
Qed.

(** X19: Only the first field of the pattern counts: what follows the
    first space changes nothing.  The pattern is refused exactly when that
    field does not begin with [*/]; a count of decimal digits gives that
    many times 60000 ms (zero for [*/0]), and a minus sign before the count
    is accepted and gives a negative delay. *)
Theorem parseCheckInterval_reads_first_field (field rest : string) :
  all_chars (is_not " ") field = true ->
  parseCheckInterval (field +:+ String " " rest) = parseCheckInterval field
  /\ ((exists e, parseCheckInterval field = Throw e)
      <-> startsWith field "*/" = false)
  /\ (forall n,
        field = "*/" +:+ n -> n <> EmptyString ->
        all_chars is_digit n = true ->
        (decimal_value n * 60000 <= 2 ^ 53)%Z ->
        parseCheckInterval (field +:+ String " " rest)
        = Normal (Num (decimal_value n * 60000)))
  /\ (forall n,
        field = "*/-" +:+ n -> n <> EmptyString ->
        all_chars is_digit n = true ->
        (decimal_value n * 60000 <= 2 ^ 53)%Z ->
        parseCheckInterval (field +:+ String " " rest)
        = Normal (Num (- (decimal_value n * 60000)))).
Proof.
  intros Hf.
  assert (E : parseCheckInterval (field +:+ String " " rest)
              = parseCheckInterval field).
  { unfold parseCheckInterval.
    now rewrite (split_head_app_sep " " field rest Hf),
      (split_head_none " " field Hf). }
  split; [exact E|]. split; [|split].
  - unfold parseCheckInterval. rewrite (split_head_none " " field Hf).
    destruct (startsWith field "*/"); split; try reflexivity.
    + intros [e He]. discriminate.
    + discriminate.
    + eauto.
  - intros n -> Hn Hd Hb. now apply parseCheckInterval_minutes.
  - intros n -> Hn Hd _. rewrite E. unfold parseCheckInterval.
    rewrite (split_head_none " " _ Hf).
    change (startsWith ("*/-" +:+ n) "*/") with true. cbv iota.
    change (substring_from 2 ("*/-" +:+ n)) with (String "-" n).
    rewrite (parseInt_negative n Hn Hd). cbn [mul]. do 2 f_equal. ring.
Qed.

(** ** The image callbacks nobody awaits *)

Lemma downloadMedia_one_download cfg env pageName url type index s :
  forall u f,
    In (EvDownload u f) (downloadMedia cfg env pageName url type index s).2 ->
    f = media_file_path cfg env pageName type index.
Proof.
  intros u f. unfold downloadMedia, bind, emit, lift, get_state,
    set_media_files, try_finally, try_catch, ret.
  destruct (fs_open env _); [|cbn; intros [H|[]]; congruence].
  destruct (http_get env url), type;
    try destruct (ffmpeg_save env _);
    destruct (fs_close env _); cbn;
    intros H; repeat (destruct H as [H|H]; try congruence); destruct H.
Qed.

Lemma in_heads_not_download (l : list (nat * string)) u f :
  ~ In (EvDownload u f) (map (fun task => EvHead task.2) l).
Proof.
  intros H. apply in_map_iff in H as (x & Hx & _). discriminate.
Qed.

Lemma in_logs_not_download t u f :
  Forall is_log t -> ~ In (EvDownload u f) t.
Proof.
  intros H Hin. rewrite Forall_forall in H.
  exact (H _ (proj2 (list_elem_of_In _ _) Hin)).
Qed.

Lemma with_media_same c : with_media c (media c ++ []) = c.
Proof. rewrite app_nil_r. now destruct c. Qed.

Lemma extract_content_unawaited cfg env pageName post s c s1 t1 :
  extract_content cfg env pageName post s = (Normal c, s1, t1) ->
  (forall m, In m (media c) -> media_type m = video)
  /\ (length (media c) <= 1)%nat
  /\ (forall u f, In (EvDownload u f) t1 ->
                  f = media_file_path cfg env pageName video 0)
  /\ (embeddedLink c = None ->
      pending s1 = pending s ++ http_images 0 (images post)).
Proof.
  unfold extract_content, bind.
  set (link := match linkPreview post with
               | Some lp => extract_link lp
               | None => ret None
               end).
  assert (Hlink : sat eq is_log link).
  { unfold link. destruct (linkPreview post); [apply extract_link_sat|].
    split; [reflexivity|constructor]. }
  destruct (Hlink s) as [Hs Hl].
  destruct (link s) as [[[[l|]|e] sl] tl]; cbn [fst snd] in Hs, Hl; subst sl.
  - unfold ret. intros H. injection H as <- <- <-. cbn [media embeddedLink].
    split; [intros m []|]. split; [cbn; lia|]. split; [|discriminate].
    intros u f Hin. rewrite app_nil_r in Hin.
    destruct (in_logs_not_download _ _ _ Hl Hin).
  - unfold extract_video.
    destruct (video_src post) as [[[|a src]|]|]; cbn [truthy].
    1, 3, 4: unfold ret at 1; cbv beta iota; rewrite spawn_images_run;
      unfold ret; intros H; injection H as <- <- <-;
      cbn [media embeddedLink pending];
      (split; [intros m []|]); (split; [cbn; lia|]);
      (split; [|reflexivity]);
      intros u f Hin; cbn [app] in Hin; rewrite app_nil_r in Hin;
      apply in_app_or in Hin as [Hin|Hin];
      [destruct (in_logs_not_download _ _ _ Hl Hin)
      |destruct (in_heads_not_download _ _ _ Hin)].
    unfold bind.
    pose proof (downloadMedia_one_download cfg env pageName
                  (to_String (Some (String a src))) video 0 s) as Hone.
    pose proof (downloadMedia_sat cfg env pageName
                  (to_String (Some (String a src))) video 0 s) as [Hst _].
    destruct (downloadMedia cfg env pageName
                (to_String (Some (String a src))) video 0 s)
      as [[[path|e] sd] td]; [|discriminate].
    cbn [fst snd] in Hone, Hst. unfold ret at 1. cbv beta iota.
    rewrite spawn_images_run. unfold ret.
    intros H. injection H as <- <- <-. cbn [media embeddedLink pending].
    split; [intros m [<-|[]]; reflexivity|]. split; [cbn; lia|].
    split.
    + intros u f Hin. rewrite !app_nil_r in Hin.
      apply in_app_or in Hin as [Hin|Hin];
        [destruct (in_logs_not_download _ _ _ Hl Hin)|].
      apply in_app_or in Hin as [Hin|Hin]; [eauto|].
      destruct (in_heads_not_download _ _ _ Hin).
    + intros _. destruct Hst as (_ & _ & Hp). now rewrite Hp.
  - discriminate.
Qed.

(** X20: [processWebPost] does not wait for the image callbacks.  The
    content of a novel post holds at most one medium, the video, when it
    is returned; during the extraction nothing but the video is
    downloaded, and every image with an [http] source is still waiting
    for the answer to its HEAD request.  So when no callback ends before
    the message is put together, every file the message carries is the
    video of the post, however large the images are. *)
Theorem images_are_not_awaited (cfg : Config) (env : Env)
    (pageConfig : string * string) (s : State) (c : Content) (s1 : State)
    (t1 : list Event) :
  novel_extraction cfg env (fst pageConfig) s c s1 t1 ->
  (forall m, In m (media c) -> media_type m = video)
  /\ (length (media c) <= 1)%nat
  /\ (forall u f, In (EvDownload u f) t1 ->
                  f = media_file_path cfg env (fst pageConfig) video 0)
  /\ (embeddedLink c = None ->
      exists post,
        page_source env (page_url cfg (fst pageConfig)) = Normal (Some post)
        /\ pending s1 = pending s ++ http_images 0 (images post))
  /\ (arrived env = [] ->
      forall p ch u body files ok,
        In (EvSend p ch u body files ok) (check_page cfg env pageConfig s).2 ->
        forall f, In f files ->
                  In {| media_type := video; media_path := Some f |} (media c)).
Proof.
  intros Hn. pose proof Hn as (u0 & post & Hb & Hpg & Hseen & Hx).
  destruct (extract_content_unawaited _ _ _ _ _ _ _ _ Hx)
    as (Hvid & Hlen & Hdl & Hpend).
  split; [exact Hvid|]. split; [exact Hlen|]. split; [exact Hdl|].
  split; [intros Hl; exists post; auto|].
  intros Harr p ch u body files ok Hin f Hf.
  destruct (novel_extraction_store _ _ _ _ _ _ _ Hn) as (_ & _ & Ht1).
  pose proof (processWebPost_commit _ _ _ _ _ _ _ Hn) as Hp.
  set (w := EvWriteFile (<[fst pageConfig := record_of c]> (storage s1))) in *.
  assert (Hpre : ~ In (EvSend p ch u body files ok) (t1 ++ [w])).
  { intros H. apply in_app_or in H as [H|[H|[]]]; [|discriminate].
    revert H. apply in_quiet_not_send.
    eapply Forall_impl; [exact Ht1|apply is_extract_quiet]. }
  destruct (check_page_tail cfg env pageConfig s)
    as (rm & s0 & t0 & s' & t' & Hm & Hc & _ & Ht').
  rewrite Hc in Hin. cbn [snd] in Hin.
  apply in_app_or in Hin as [Hin|Hin].
  2:{ exfalso. revert Hin. apply in_quiet_not_send.
      eapply Forall_impl; [exact Ht'|apply is_fetch_quiet]. }
  assert (Herr : forall r : completion unit,
             ~ In (EvSend p ch u body files ok)
                 match r with Normal _ => [] | Throw _ => error_log end).
  { intros [|]; [intros []|]. intros [H|[]]. discriminate. }
  destruct (quit env) as [uq|eq'].
  2:{ rewrite (monitorPage_idle cfg env _ _ _ _ _ Hp) in Hm by congruence.
      injection Hm as <- <- <-. apply in_app_or in Hin as [Hin|Hin];
        [destruct (Hpre Hin)|destruct (Herr (Throw eq') Hin)]. }
  destruct (fs_writeFile env) as [uw|ew] eqn:Hw.
  2:{ rewrite (monitorPage_idle cfg env _ _ _ _ _ Hp) in Hm by congruence.
      injection Hm as <- <- <-. apply in_app_or in Hin as [Hin|Hin];
        [destruct (Hpre Hin)|destruct (Herr (Throw ew) Hin)]. }
  destruct (monitorPage_deliver cfg env _ _ _ _ _ Hp)
    as (pushed & s2 & t2 & Hset & _ & _ & Hdel).
  rewrite Harr in Hset. cbn [settle_all] in Hset. unfold ret in Hset.
  injection Hset as <- <- <-.
  set (s2 := committed env (fst pageConfig) c s1) in *.
  pose proof (sendDiscordMessage_run env pageConfig
                (with_media c (media c ++ [])) s2) as Hrun.
  cbv zeta in Hrun. rewrite with_media_same in Hrun, Hdel.
  destruct (sendDiscordMessage env pageConfig c s2) as [[r3 s3] t3] eqn:Es.
  rewrite (Hdel _ _ _ eq_refl) in Hm. injection Hm as <- <- <-.
  apply in_app_or in Hin as [Hin|Hin]; [|destruct (Herr r3 Hin)].
  apply in_app_or in Hin as [Hin|Hin]; [destruct (Hpre Hin)|].
  destruct (channels_fetch env (snd pageConfig)) as [uf|ef].
  2:{ injection Hrun as _ _ ->. destruct Hin. }
  destruct Hrun as (body' & files' & logs & Hlogs & Hfiles & Hrun).
  assert (Hsame : files = files').
  { destruct (channel_send env) as [us|es].
    - destruct Hrun as (s4 & dels & Hrun & _ & Hdels).
      injection Hrun as _ _ ->.
      apply in_app_or in Hin as [Hin|[Hin|[Hin|Hin]]].
      + destruct (in_logs_not_send _ _ _ _ _ _ _ Hlogs Hin).
      + now injection Hin.
      + discriminate.
      + destruct (in_cleanup_not_send _ _ _ _ _ _ _ _ Hdels Hin).
    - injection Hrun as _ _ ->.
      apply in_app_or in Hin as [Hin|[Hin|[Hin|[]]]].
      + destruct (in_logs_not_send _ _ _ _ _ _ _ Hlogs Hin).
      + now injection Hin.
      + discriminate. }
  subst files'. destruct (has_link c); [subst files; destruct Hf|].
  apply Hfiles in Hf as (m & Hm & Hpath & _).
  pose proof (Hvid m Hm) as Hty. destruct m as [ty path].
  cbn in Hty, Hpath. now subst ty path.
Qed.

(** X21: When the channel of the page cannot be fetched, a novel post is
    recorded and then dropped: no send is attempted and no file is deleted
    in the check, and nothing is sent for the page in later checks as long
    as its first post keeps that permalink. *)
Theorem unknown_channel_loses_post (cfg : Config) (env : Env)
    (pageConfig : string * string) (s : State) (c : Content) (s1 : State)
    (t1 : list Event) (u1 u2 : unit) (e : error) :
  novel_extraction cfg env (fst pageConfig) s c s1 t1 ->
  fs_writeFile env = Normal u1 -> quit env = Normal u2 ->
  channels_fetch env (snd pageConfig) = Throw e ->
  let r := check_page cfg env pageConfig s in
  sends r.2 = [] /\ unlinks r.2 = []
  /\ storage r.1.2 !! fst pageConfig = Some (record_of c)
  /\ (forall later,
        shows cfg (fst pageConfig) (content_url c) later ->
        sends_for (fst pageConfig) (run_checks cfg later r.1.2).2 = []).
Proof.
  intros Hn Hw Hq Hf r.
  pose proof (processWebPost_commit _ _ _ _ _ _ _ Hn) as Hp.
  rewrite Hw, Hq in Hp.
  destruct (novel_extraction_store _ _ _ _ _ _ _ Hn) as (E1 & _ & Ht1).
  destruct (check_page_tail cfg env pageConfig s)
    as (rm & s0 & t0 & s' & t' & Hm & Hc & [Hs _] & Ht').
  destruct (monitorPage_deliver cfg env _ _ _ _ _ Hp)
    as (pushed & s2 & t2 & _ & [Hs2 _] & Ht2 & Hdel).
  pose proof (sendDiscordMessage_run env pageConfig
                (with_media c (media c ++ pushed)) s2) as Hrun.
  cbv zeta in Hrun. rewrite Hf in Hrun.
  rewrite (Hdel _ _ _ Hrun) in Hm. injection Hm as <- <- <-.
  assert (Hrec : storage r.1.2 !! fst pageConfig = Some (record_of c)).
  { unfold r. rewrite Hc. cbn [fst snd]. rewrite Hs, Hs2.
    cbn [committed storage]. apply lookup_insert_eq. }
  assert (Hnounlink : forall t, Forall is_extract t -> unlinks t = []).
  { induction 1 as [|x t Hx _ IH]; [reflexivity|].
    destruct x; try destruct Hx; exact IH. }
  assert (Hfetch : forall t, Forall is_fetch t -> Forall is_extract t).
  { intros t Ht. eapply Forall_impl; [exact Ht|apply is_fetch_extract]. }
  split; [|split; [|split; [exact Hrec|]]].
  - unfold r. rewrite Hc. cbn [fst snd].
    rewrite !sends_app, (sends_extract t1 Ht1), (sends_fetch t2 Ht2),
      (sends_fetch t' Ht'). reflexivity.
  - unfold r. rewrite Hc. cbn [fst snd].
    rewrite !unlinks_app, (Hnounlink t1 Ht1), (Hnounlink t2 (Hfetch _ Ht2)),
      (Hnounlink t' (Hfetch _ Ht')). reflexivity.
  - intros later Hshow.
    apply (unchanged_page_is_silent cfg (fst pageConfig) (content_url c) later);
      [|exact Hshow].
    now rewrite Hrec.
Qed.

(** ** C8: the images of a post *)

Lemma take_task_some i l task rest :
  take_task i l = Some (task, rest) ->
  fst task = i /\ In task l
  /\ (forall x, In x rest -> In x l)
  /\ (forall x, In x l -> x = task \/ In x rest)
  /\ (List.NoDup (map fst l) ->
      List.NoDup (map fst rest) /\ forall x, In x rest -> fst x <> i).
Proof.
  revert task rest. induction l as [|t l IH]; intros task rest; [discriminate|].
  cbn [take_task]. destruct (Nat.eqb_spec (fst t) i) as [E|E].
  - intros H. injection H as <- <-. split; [exact E|].
    split; [now left|]. split; [intros x Hx; now right|].
    split; [intros x [<-|Hx]; auto|].
    intros Hnd. cbn [map] in Hnd. apply NoDup_cons_iff in Hnd as [Hni Hnd].
    split; [exact Hnd|]. intros x Hx Hfx. apply Hni.
    rewrite E, <- Hfx. now apply in_map.
  - destruct (take_task i l) as [[t' r]|] eqn:Ht; [|discriminate].
    intros H. injection H as <- <-.
    destruct (IH t' r eq_refl) as (H1 & H2 & H3 & H4 & H5).
    split; [exact H1|]. split; [now right|].
    split; [intros x [<-|Hx]; [now left|right; auto]|].
    split.
    { intros x [<-|Hx]; [right; now left|].
      destruct (H4 x Hx); [now left|right; now right]. }
    intros Hnd. cbn [map] in Hnd. apply NoDup_cons_iff in Hnd as [Hni Hnd].
    destruct (H5 Hnd) as [H6 H7]. split.
    + cbn [map]. apply NoDup_cons_iff. split; [|exact H6].
      intros Hin. apply in_map_iff in Hin as (x & Hfx & Hx).
      apply Hni. rewrite <- Hfx. apply in_map. auto.
    + intros x [<-|Hx]; [exact E|auto].
Qed.

Lemma take_task_none i l :
  take_task i l = None -> forall x, In x l -> fst x <> i.
Proof.
  induction l as [|t l IH]; [intros _ x []|].
  cbn [take_task]. destruct (Nat.eqb_spec (fst t) i) as [E|E]; [discriminate|].
  destruct (take_task i l) as [[t' r]|]; [discriminate|].
  intros _ x [<-|Hx]; [exact E|now apply IH].
Qed.

Lemma settled_spec l :
  forall waiting, List.NoDup (map fst waiting) ->
    (forall x, In x (settled l waiting) <-> In x waiting /\ In (fst x) l)
    /\ (forall x, In x (left_waiting l waiting)
                  <-> In x waiting /\ ~ In (fst x) l)
    /\ List.NoDup (map fst (left_waiting l waiting)).
Proof.
  induction l as [|i l IH]; intros waiting Hnd.
  - cbn. split; [intros x; tauto|]. split; [intros x; tauto|exact Hnd].
  - cbn [settled left_waiting].
    destruct (take_task i waiting) as [[task rest]|] eqn:Ht.
    + destruct (take_task_some _ _ _ _ Ht) as (H1 & H2 & H3 & H4 & H5).
      destruct (H5 Hnd) as [H6 H7].
      destruct (IH rest H6) as (I1 & I2 & I3).
      split; [|split; [|exact I3]].
      * intros x. cbn [In]. rewrite I1. split.
        -- intros [<-|[Hx Hl]]; [split; [exact H2|now left]|].
           split; [auto|now right].
        -- intros [Hx [Hl|Hl]].
           ++ destruct (H4 x Hx) as [->|Hr]; [now left|].
              destruct (H7 x Hr). now symmetry.
           ++ destruct (H4 x Hx) as [->|Hr]; [now left|right; auto].
      * intros x. rewrite I2. cbn [In]. split.
        -- intros [Hx Hl]. split; [auto|].
           intros [E|Hl']; [|auto]. apply (H7 x Hx). now symmetry.
        -- intros [Hx Hl]. destruct (H4 x Hx) as [->|Hr].
           ++ destruct Hl. now left.
           ++ split; [exact Hr|]. intros Hl'. apply Hl. now right.
    + pose proof (take_task_none _ _ Ht) as Hno.
      destruct (IH waiting Hnd) as (I1 & I2 & I3).
      split; [|split; [|exact I3]].
      * intros x. rewrite I1. cbn [In]. split; [intros [? ?]; auto|].
        intros [Hx [E|Hl]]; [|auto]. destruct (Hno x Hx). now symmetry.
      * intros x. rewrite I2. cbn [In]. split.
        -- intros [Hx Hl]. split; [auto|].
           intros [E|Hl']; [|auto]. apply (Hno x Hx). now symmetry.
        -- intros [Hx Hl]. split; [auto|]. intros Hl'. apply Hl. now right.
Qed.

Lemma http_images_indices imgs :
  forall i,
    (forall x, In x (http_images i imgs) -> (i <= fst x)%nat)
    /\ List.NoDup (map fst (http_images i imgs)).
Proof.
  induction imgs as [|img imgs IH]; intros i; [split; [intros x []|constructor]|].
  cbn [http_images]. destruct (IH (S i)) as [H1 H2].
  destruct (truthy img && startsWith (to_String img) "http"); cbn [app].
  - split.
    + intros x [<-|Hx]; [cbn; lia|]. specialize (H1 x Hx). lia.
    + cbn [map fst]. apply NoDup_cons_iff. split; [|exact H2].
      intros Hin. apply in_map_iff in Hin as (x & Hfx & Hx).
      specialize (H1 x Hx). lia.
  - split; [|exact H2]. intros x Hx. specialize (H1 x Hx). lia.
Qed.

Lemma NoDup_fst_inj (l : list (nat * string)) i a b :
  List.NoDup (map fst l) -> In (i, a) l -> In (i, b) l -> a = b.
Proof.
  induction l as [|x l IH]; [intros _ []|].
  cbn [map]. intros Hnd. apply NoDup_cons_iff in Hnd as [Hni Hnd].
  intros [->|Ha] [E|Hb].
  - now injection E.
  - destruct Hni. apply in_map_iff. exists (i, b). now split.
  - subst x. destruct Hni. apply in_map_iff. exists (i, a). now split.
  - auto.
Qed.

Lemma image_settled_holds cfg env pageName :
  callbacks_hold cfg env pageName ->
  forall task s,
    image_settled cfg env pageName task s
    = (Normal (image_pushed cfg env pageName task),
       (if big env (snd task)
        then {| storage := storage s; data_file := data_file s;
                media_files := {[image_file cfg env pageName task]}
                                 ∪ media_files s;
                pending := pending s |}
        else s),
       image_trace cfg env pageName task).
Proof.
  intros H task s. destruct (H task s) as [m Hm]. revert Hm.
  unfold image_settled, image_pushed, image_trace, big, bind, lift.
  destruct (http_head env (snd task)) as [cl|e]; [|discriminate].
  destruct (truthy cl && gt (parseInt (to_String cl)) (Num 2048));
    [|reflexivity].
  unfold downloadMedia, fetched, image_file, bind, emit, lift, get_state,
    set_media_files, try_finally, try_catch, ret.
  destruct (fs_open env _); [|discriminate].
  destruct (http_get env (snd task)), (fs_close env _); cbn;
    intros Hm; first [discriminate Hm | reflexivity].
Qed.

Lemma settle_all_holds cfg env pageName :
  callbacks_hold cfg env pageName ->
  forall l s,
    exists s',
      settle_all cfg env pageName l s
      = (Normal (flat_map (image_pushed cfg env pageName)
                   (settled l (pending s))),
         s',
         flat_map (image_trace cfg env pageName) (settled l (pending s)))
      /\ storage s' = storage s /\ data_file s' = data_file s
      /\ pending s' = left_waiting l (pending s)
      /\ (forall f,
            f ∈ media_files s'
            <-> f ∈ media_files s
                \/ exists task,
                    In task (settled l (pending s))
                    /\ big env (snd task) = true
                    /\ f = image_file cfg env pageName task).
Proof.
  intros H l. induction l as [|i l IH]; intros s.
  - exists s. cbn. repeat split; try reflexivity; [tauto|].
    intros [Hf|(task & [] & _)]. exact Hf.
  - cbn [settle_all settled left_waiting]. unfold bind at 1.
    unfold settle, bind, get_state.
    destruct (take_task i (pending s)) as [[task rest]|] eqn:Ht.
    + unfold set_pending, try_catch. rewrite (image_settled_holds _ _ _ H).
      cbn [storage data_file media_files pending].
      destruct (big env (snd task)) eqn:Hb;
        match goal with
        | |- context [settle_all _ _ _ l ?s1] =>
            destruct (IH s1) as (s' & E & H1 & H2 & H3 & H4); rewrite E
        end;
        cbn [storage data_file media_files pending] in H1, H2, H3, H4;
        exists s'; unfold ret; cbn [flat_map];
        (split; [now rewrite app_nil_r|]);
        (split; [exact H1|]); (split; [exact H2|]); (split; [exact H3|]);
        intros f; rewrite H4; cbn [In].
      * rewrite elem_of_union, elem_of_singleton. split.
        -- intros [[->|Hf]|(t & Hin & Hbt & ->)]; [|now left|].
           ++ right. exists task. auto.
           ++ right. exists t. auto.
        -- intros [Hf|(t & [<-|Hin] & Hbt & ->)]; [left; now right| |].
           ++ left. now left.
           ++ right. exists t. auto.
      * split.
        -- intros [Hf|(t & Hin & Hbt & ->)]; [now left|].
           right. exists t. auto.
        -- intros [Hf|(t & [<-|Hin] & Hbt & ->)]; [now left|congruence|].
           right. exists t. auto.
    + unfold ret. cbn [fst snd].
      destruct (IH s) as (s' & E & H1 & H2 & H3 & H4). rewrite E.
      exists s'. cbn [app]. rewrite app_nil_r. auto.
Qed.

Lemma in_image_traces cfg env pageName ts u f :
  In (EvDownload u f) (flat_map (image_trace cfg env pageName) ts)
  <-> exists task,
      In task ts /\ big env (snd task) = true
      /\ u = snd task /\ f = image_file cfg env pageName task.
Proof.
  rewrite in_flat_map. split.
  - intros (task & Hin & Ht). exists task. split; [exact Hin|].
    unfold image_trace in Ht. destruct (big env (snd task)); [|destruct Ht].
    destruct Ht as [E|Ht].
    + injection E as <- <-. auto.
    + destruct (fetched env _ _ image); [destruct Ht|].
      destruct Ht as [E|[]]. discriminate.
  - intros (task & Hin & Hb & -> & ->). exists task. split; [exact Hin|].
    unfold image_trace. rewrite Hb. now left.
Qed.

Lemma image_traces_fetch cfg env pageName ts :
  Forall is_fetch (flat_map (image_trace cfg env pageName) ts).
Proof.
  induction ts as [|t ts IH]; [constructor|]. cbn [flat_map].
  apply Forall_app. split; [|exact IH]. unfold image_trace.
  destruct (big env (snd t)); [|constructor].
  constructor; [exact I|]. destruct (fetched env _ _ image); repeat constructor.
Qed.

Lemma in_unlinks t f : In f (unlinks t) -> In (EvUnlink f) t.
Proof.
  induction t as [|e t IH]; [intros []|].
  destruct e; cbn; try (intros H; right; now apply IH).
  intros [->|H]; [now left|right; now apply IH].
Qed.

Lemma heads_app t1 t2 : heads (t1 ++ t2) = heads t1 ++ heads t2.
Proof. apply omap_app. Qed.

Lemma heads_fetch t : Forall is_fetch t -> heads t = [].
Proof.
  induction 1 as [|e t He _ IH]; [reflexivity|].
  destruct e; try destruct He; exact IH.
Qed.

Lemma heads_map (l : list (nat * string)) :
  heads (map (fun task => EvHead task.2) l) = map snd l.
Proof. induction l as [|x l IH]; [reflexivity|]. cbn. now rewrite <- IH. Qed.

(** A delivery writes sends, deletions and log lines only. *)
Lemma sendDiscordMessage_events env pageConfig c s :
  Forall (fun e => match e with
                   | EvSend _ _ _ _ _ _ | EvUnlink _ | EvLog _ => True
                   | _ => False
                   end) (sendDiscordMessage env pageConfig c s).2.
Proof.
  pose proof (sendDiscordMessage_run env pageConfig c s) as Hrun.
  cbv zeta in Hrun.
  assert (Hl : forall logs, Forall is_log logs ->
                 Forall (fun e => match e with
                                  | EvSend _ _ _ _ _ _ | EvUnlink _ | EvLog _ => True
                                  | _ => False
                                  end) logs).
  { intros logs H. eapply Forall_impl; [exact H|]. now intros []. }
  destruct (channels_fetch env (snd pageConfig)); [|rewrite Hrun; constructor].
  destruct Hrun as (body & files & logs & Hlogs & _ & Hrun).
  destruct (channel_send env).
  - destruct Hrun as (s' & dels & -> & _ & Hdels). cbn [snd].
    apply Forall_app. split; [auto|]. repeat constructor.
    eapply Forall_impl; [exact Hdels|]. now intros [].
  - rewrite Hrun. cbn [snd]. apply Forall_app. split; [auto|].
    repeat constructor.
Qed.

(** What [sendDiscordMessage] leaves of the downloads. *)
Lemma sendDiscordMessage_keeps env pageConfig c s :
  let r := sendDiscordMessage env pageConfig c s in
  pending r.1.2 = pending s
  /\ (forall u f, ~ In (EvDownload u f) r.2)
  /\ heads r.2 = []
  /\ (forall f, f ∈ media_files s ->
                f ∈ media_files r.1.2 \/ In (EvUnlink f) r.2).
Proof.
  intros r. pose proof (sendDiscordMessage_events env pageConfig c s) as Hev.
  fold r in Hev.
  assert (Hh : heads r.2 = []).
  { induction Hev as [|e t He _ IH]; [reflexivity|].
    destruct e; try destruct He; exact IH. }
  assert (Hnd : forall u f, ~ In (EvDownload u f) r.2).
  { intros u f Hin. rewrite Forall_forall in Hev.
    exact (Hev _ (proj2 (list_elem_of_In _ _) Hin)). }
  destruct (channels_fetch env (snd pageConfig)) as [u0|e0] eqn:Hf.
  2:{ pose proof (sendDiscordMessage_run env pageConfig c s) as Hrun.
      cbv zeta in Hrun. rewrite Hf in Hrun. fold r in Hrun.
      rewrite Hrun in *. cbn. repeat split; auto. }
  destruct (channel_send env) as [u1|e1] eqn:Hs.
  - destruct (sendDiscordMessage_success env pageConfig c s u0 u1 Hf Hs)
      as (files & s' & before & after & E & _ & _ & _ & _ & _ & Hunl
          & Hmed & _ & _ & Hpend).
    fold r in E. rewrite E in *. cbn [fst snd].
    split; [exact Hpend|]. split; [exact Hnd|]. split; [exact Hh|].
    intros f Hin.
    destruct (decide (f ∈ (list_to_set (List.filter (unlinked env) files)
                            : gset string))) as [Hd|Hd].
    + right. apply in_or_app. right. right. apply in_unlinks. rewrite Hunl.
      apply elem_of_list_to_set, list_elem_of_In in Hd.
      now apply List.filter_In in Hd as [Hd _].
    + left. rewrite Hmed. now apply elem_of_difference.
  - destruct (sendDiscordMessage_refused env pageConfig c s u0 e1 Hf Hs)
      as (files & before & E & _).
    fold r in E. rewrite E in *. cbn [fst snd]. repeat split; auto.
Qed.

Lemma extract_content_heads cfg env pageName post s c s1 t1 :
  extract_content cfg env pageName post s = (Normal c, s1, t1) ->
  embeddedLink c = None ->
  heads t1 = map snd (http_images 0 (images post)).
Proof.
  unfold extract_content, bind.
  set (link := match linkPreview post with
               | Some lp => extract_link lp
               | None => ret None
               end).
  assert (Hlink : sat eq is_log link).
  { unfold link. destruct (linkPreview post); [apply extract_link_sat|].
    split; [reflexivity|constructor]. }
  destruct (Hlink s) as [Hs Hl].
  destruct (link s) as [[[[l|]|e] sl] tl]; cbn [fst snd] in Hs, Hl; subst sl.
  - unfold ret. intros H. injection H as <- <- <-. discriminate.
  - pose proof (extract_video_sat cfg env pageName post s) as [_ Hv].
    destruct (extract_video cfg env pageName post s) as [[[v|e] s2] t2];
      [|discriminate].
    cbn [snd] in Hv. rewrite spawn_images_run. unfold ret.
    intros H _. injection H as <- <- <-.
    rewrite !heads_app, app_nil_r, heads_map.
    rewrite (heads_fetch t2 Hv).
    assert (Hlh : heads tl = []).
    { apply heads_fetch. eapply Forall_impl; [exact Hl|]. now intros []. }
    now rewrite Hlh.
  - discriminate.
Qed.

Section ImagesOfAPost.

Variable cfg : Config.
Variable env : Env.
Variable pageConfig : string * string.

Let pageName := fst pageConfig.

Hypothesis Hhold : callbacks_hold cfg env pageName.

(** All that [monitorPage] does about the images of a novel post: the
    callbacks in [done] have run, the others wait. *)
Lemma monitorPage_images s c s1 t1 post :
  novel_extraction cfg env pageName s c s1 t1 ->
  page_source env (page_url cfg pageName) = Normal (Some post) ->
  embeddedLink c = None -> pending s = [] ->
  exists s0 t0 done,
    monitorPage cfg env pageConfig s = (Normal tt, s0, t0)
    /\ heads t0 = map snd (http_images 0 (images post))
    /\ List.NoDup (map fst (pending s0))
    /\ (forall x, In x (http_images 0 (images post))
                  <-> In x done \/ In x (pending s0))
    /\ (forall u f, In (EvDownload u f) t0 ->
          f = media_file_path cfg env pageName video 0
          \/ exists task, In task done /\ big env (snd task) = true
                          /\ u = snd task
                          /\ f = image_file cfg env pageName task)
    /\ (forall task, In task done -> big env (snd task) = true ->
          In (EvDownload (snd task) (image_file cfg env pageName task)) t0
          /\ (image_file cfg env pageName task ∈ media_files s0
              \/ In (EvUnlink (image_file cfg env pageName task)) t0)).
Proof.
  intros Hn Hpg Hlink Hpend.
  pose proof Hn as (u0 & post' & Hb & Hpg' & Hseen & Hx).
  unfold pageName in Hpg, Hpg'. rewrite Hpg in Hpg'. injection Hpg' as <-.
  destruct (extract_content_unawaited _ _ _ _ _ _ _ _ Hx)
    as (_ & _ & Hdl & Hp1).
  specialize (Hp1 Hlink). rewrite Hpend in Hp1. cbn [app] in Hp1.
  pose proof (extract_content_heads _ _ _ _ _ _ _ _ Hx Hlink) as Hheads.
  destruct (http_images_indices (images post) 0) as [_ Hnd].
  pose proof (processWebPost_commit _ _ _ _ _ _ _ Hn) as Hp.
  set (w := EvWriteFile (<[pageName := record_of c]> (storage s1))) in *.
  set (sc := committed env pageName c s1) in *.
  assert (Hpsc : pending sc = http_images 0 (images post)) by exact Hp1.
  assert (Hpre : forall u f, In (EvDownload u f) (t1 ++ [w]) ->
                             f = media_file_path cfg env pageName video 0).
  { intros u f Hin. apply in_app_or in Hin as [Hin|[Hin|[]]];
      [eauto|discriminate]. }
  assert (Herr : forall (r : completion (option Content)) u f,
             ~ In (EvDownload u f)
                 match r with Normal _ => [] | Throw _ => error_log end).
  { intros [|] u f; [intros []|]. intros [H|[]]. discriminate. }
  assert (Hidle : forall r,
             processWebPost cfg env pageName s = (r, sc, t1 ++ [w]) ->
             (forall c', r <> Normal (Some c')) ->
             exists s0 t0 done,
               monitorPage cfg env pageConfig s = (Normal tt, s0, t0)
               /\ heads t0 = map snd (http_images 0 (images post))
               /\ List.NoDup (map fst (pending s0))
               /\ (forall x, In x (http_images 0 (images post))
                             <-> In x done \/ In x (pending s0))
               /\ (forall u f, In (EvDownload u f) t0 ->
                     f = media_file_path cfg env pageName video 0
                     \/ exists task, In task done /\ big env (snd task) = true
                                     /\ u = snd task
                                     /\ f = image_file cfg env pageName task)
               /\ (forall task, In task done -> big env (snd task) = true ->
                     In (EvDownload (snd task) (image_file cfg env pageName task)) t0
                     /\ (image_file cfg env pageName task ∈ media_files s0
                         \/ In (EvUnlink (image_file cfg env pageName task)) t0))).
  { intros r Hr Hnot.
    exists sc, ((t1 ++ [w]) ++ match r with
                               | Normal _ => []
                               | Throw _ => error_log
                               end), [].
    split; [exact (monitorPage_idle cfg env pageConfig s r sc _ Hr Hnot)|].
    split.
    { rewrite !heads_app, Hheads. cbn [heads omap].
      destruct r; cbn; now rewrite !app_nil_r. }
    rewrite Hpsc. split; [exact Hnd|]. split; [intros x; cbn; tauto|].
    split; [|intros task []].
    intros u f Hin. apply in_app_or in Hin as [Hin|Hin]; [left; eauto|].
    destruct (Herr _ _ _ Hin). }
  destruct (quit env) as [uq|eq'].
  2:{ apply (Hidle _ Hp). congruence. }
  destruct (fs_writeFile env) as [uw|ew].
  2:{ apply (Hidle _ Hp). congruence. }
  clear Hidle.
  destruct (monitorPage_deliver cfg env _ _ _ _ _ Hp)
    as (pushed & s2 & t2 & Hset & _ & _ & Hdel).
  destruct (settle_all_holds cfg env pageName Hhold (arrived env) sc)
    as (s2' & Hset' & _ & _ & Hp2 & Hm2).
  unfold pageName in Hset'. rewrite Hset in Hset'.
  injection Hset' as -> <- ->.
  change (pending sc) with (pending s1) in Hdel, Hp2, Hm2.
  rewrite Hp1 in Hdel, Hp2, Hm2.
  set (tasks := http_images 0 (images post)) in *.
  destruct (settled_spec (arrived env) tasks Hnd) as (Hdone & Hleft & Hnd2).
  pose proof (sendDiscordMessage_keeps env pageConfig
                (with_media c (media c ++ flat_map (image_pushed cfg env
                                                      (fst pageConfig))
                                           (settled (arrived env) tasks)))
                s2) as Hkeep.
  cbv zeta in Hkeep.
  destruct (sendDiscordMessage env pageConfig
              (with_media c (media c ++ flat_map (image_pushed cfg env
                                                    (fst pageConfig))
                                         (settled (arrived env) tasks)))
              s2) as [[r3 s3] t3] eqn:Es.
  cbn [fst snd] in Hkeep. destruct Hkeep as (Hp3 & Hnd3 & Hh3 & Hm3).
  exists s3, (((t1 ++ [w]) ++ flat_map (image_trace cfg env (fst pageConfig))
                                (settled (arrived env) tasks) ++ t3)
                ++ match r3 with Normal _ => [] | Throw _ => error_log end),
    (settled (arrived env) tasks).
  split; [exact (Hdel _ _ _ eq_refl)|].
  split.
  { rewrite !heads_app, Hheads, Hh3.
    rewrite (heads_fetch _ (image_traces_fetch cfg env (fst pageConfig) _)).
    cbn [heads omap]. destruct r3; cbn; now rewrite !app_nil_r. }
  rewrite Hp3, Hp2. split; [exact Hnd2|]. split; [|split].
  - intros x. rewrite Hdone, Hleft.
    destruct (in_dec Nat.eq_dec (fst x) (arrived env)); tauto.
  - intros u f Hin. apply in_app_or in Hin as [Hin|Hin].
    2:{ destruct r3; [destruct Hin|]. destruct Hin as [H|[]]. discriminate. }
    apply in_app_or in Hin as [Hin|Hin]; [left; eauto|].
    apply in_app_or in Hin as [Hin|Hin]; [|destruct (Hnd3 _ _ Hin)].
    right. now apply in_image_traces in Hin.
  - intros task Hin Hbig. split.
    + apply in_or_app. left. apply in_or_app. right. apply in_or_app. left.
      apply in_image_traces. exists task. auto.
    + assert (Hf2 : image_file cfg env pageName task ∈ media_files s2).
      { apply Hm2. right. exists task. auto. }
      destruct (Hm3 _ Hf2) as [H|H]; [now left|right].
      apply in_or_app. left. apply in_or_app. right. apply in_or_app. now right.
Qed.

End ImagesOfAPost.

(** C8: In the check of a page that shows a novel post without a link,
    and as long as no image callback is rejected, a HEAD request is sent
    for every image of the post whose source begins with [http], in the
    order of the images, and for nothing else; by the end of the check
    every callback has run.  When the answer for such an image reports a
    content-length, a decimal numeral, the image is downloaded if and only
    if that length is more than 2048.  At 2048 or less the callback ends
    at once: nothing is requested, written or pushed for the image.  Above
    2048 [downloadMedia] runs for the image: the file of its index is
    made, the source is fetched into it, the callback pushes the path (or
    null when the fetch failed), and the file is in the media directory at
    the end of the check unless it went out with the message and was
    deleted. *)
Theorem image_size_filter (cfg : Config) (env : Env)
    (pageConfig : string * string) (s : State) (c : Content) (s1 : State)
    (t1 : list Event) (post : PostElement) :
  novel_extraction cfg env (fst pageConfig) s c s1 t1 ->
  page_source env (page_url cfg (fst pageConfig)) = Normal (Some post) ->
  embeddedLink c = None -> pending s = [] ->
  callbacks_hold cfg env (fst pageConfig) ->
  let r := check_page cfg env pageConfig s in
  heads (processWebPost cfg env (fst pageConfig) s).2
  = map snd (http_images 0 (images post))
  /\ heads r.2 = map snd (http_images 0 (images post))
  /\ pending r.1.2 = []
  /\ (forall i src h,
        images post !! i = Some (Some src) -> startsWith src "http" = true ->
        http_head env src = Normal (Some h) ->
        h <> EmptyString -> all_chars is_digit h = true ->
        let f := media_file_path cfg env (fst pageConfig) image i in
        In (EvHead src) r.2
        /\ (In (EvDownload src f) r.2 <-> (2048 < decimal_value h)%Z)
        /\ ((decimal_value h <= 2048)%Z ->
            (forall u, ~ In (EvDownload u f) r.2)
            /\ forall s0,
                image_settled cfg env (fst pageConfig) (i, src) s0
                = (Normal [], s0, []))
        /\ ((2048 < decimal_value h)%Z ->
            (f ∈ media_files r.1.2 \/ In (EvUnlink f) r.2)
            /\ forall s0,
                image_settled cfg env (fst pageConfig) (i, src) s0
                = (Normal [ {| media_type := image;
                               media_path := if fetched env src f image
                                             then Some f else None |} ],
                   {| storage := storage s0; data_file := data_file s0;
                      media_files := {[f]} ∪ media_files s0;
                      pending := pending s0 |},
                   EvDownload src f
                   :: (if fetched env src f image then []
                       else [EvLog "Failed to download"])))).
Proof.
  intros Hn Hpg Hlink Hpend Hhold r.
  set (tasks := http_images 0 (images post)).
  destruct (monitorPage_images cfg env pageConfig Hhold s c s1 t1 post
              Hn Hpg Hlink Hpend)
    as (s0 & t0 & done & Hm & Hh0 & Hnd0 & Hsplit & Hdl0 & Hdone).
  fold tasks in Hh0, Hsplit.
  destruct (settle_all_holds cfg env (fst pageConfig) Hhold
              (map fst (pending s0)) s0)
    as (s' & Hset & _ & _ & Hp' & Hm').
  destruct (settled_spec (map fst (pending s0)) (pending s0) Hnd0)
    as (Hrun & Hleft & _).
  assert (Hall : forall x, In x (settled (map fst (pending s0)) (pending s0))
                           <-> In x (pending s0)).
  { intros x. rewrite Hrun. split; [tauto|]. intros Hx. split; [exact Hx|].
    now apply in_map. }
  assert (Hr : r = (Normal tt, s',
                    t0 ++ flat_map (image_trace cfg env (fst pageConfig))
                            (settled (map fst (pending s0)) (pending s0)))).
  { unfold r, check_page, bind. rewrite Hm. unfold get_state.
    rewrite Hset. unfold ret. cbn. now rewrite app_nil_r. }
  assert (Hheads1 : heads (processWebPost cfg env (fst pageConfig) s).2
                    = map snd tasks).
  { rewrite (processWebPost_commit _ _ _ _ _ _ _ Hn). cbn [snd].
    rewrite heads_app. cbn [heads omap]. rewrite app_nil_r.
    destruct Hn as (u0 & post' & _ & Hpg' & _ & Hx).
    rewrite Hpg in Hpg'. injection Hpg' as <-.
    exact (extract_content_heads _ _ _ _ _ _ _ _ Hx Hlink). }
  assert (Hheads2 : heads r.2 = map snd tasks).
  { rewrite Hr. cbn [snd]. rewrite heads_app, Hh0.
    rewrite (heads_fetch _ (image_traces_fetch cfg env (fst pageConfig) _)).
    now rewrite app_nil_r. }
  split; [exact Hheads1|]. split; [exact Hheads2|]. split.
  { rewrite Hr. cbn [fst snd]. rewrite Hp'.
    destruct (left_waiting (map fst (pending s0)) (pending s0)) as [|x l];
      [reflexivity|].
    destruct (proj1 (Hleft x) (or_introl eq_refl)) as [Hx Hno].
    destruct Hno. now apply in_map. }
  intros i src h Hi Hhttp Hh Hne Hdig f.
  assert (Hin : In (i, src) tasks).
  { exact (http_images_lookup (images post) 0 i src Hi Hhttp). }
  assert (Hbig : big env src = (2048 <? decimal_value h)%Z).
  { unfold big. rewrite Hh. cbn [to_String default from_option id].
    rewrite (parseInt_decimal h Hne Hdig). cbn [gt].
    destruct h; [congruence|reflexivity]. }
  assert (Hsettled : forall s2,
             image_settled cfg env (fst pageConfig) (i, src) s2
             = (Normal (image_pushed cfg env (fst pageConfig) (i, src)),
                (if big env src
                 then {| storage := storage s2; data_file := data_file s2;
                         media_files := {[f]} ∪ media_files s2;
                         pending := pending s2 |}
                 else s2),
                image_trace cfg env (fst pageConfig) (i, src))).
  { intros s2. exact (image_settled_holds cfg env _ Hhold (i, src) s2). }
  assert (Hmark : In (EvDownload src f) r.2 <-> big env src = true).
  { rewrite Hr. cbn [snd]. split.
    - intros Hd. apply in_app_or in Hd as [Hd|Hd].
      + destruct (Hdl0 _ _ Hd) as [E|(task & Ht & Hb & Hs & E)].
        * apply media_file_path_inj in E as [E _]. discriminate E.
        * now rewrite Hs.
      + apply in_image_traces in Hd as (task & Ht & Hb & Hs & E).
        now rewrite Hs.
    - intros Hb. apply in_or_app.
      destruct (proj1 (Hsplit (i, src)) Hin) as [Hd|Hw].
      + left. exact (proj1 (Hdone _ Hd Hb)).
      + right. apply in_image_traces. exists (i, src).
        split; [now apply Hall|auto]. }
  split.
  { assert (Hs : In src (heads r.2)).
    { rewrite Hheads2. apply in_map_iff. exists (i, src). auto. }
    clear -Hs. induction r.2 as [|e t IH]; [destruct Hs|].
    destruct e; cbn in Hs; try (right; now apply IH).
    destruct Hs as [->|Hs]; [now left|right; now apply IH]. }
  split.
  { rewrite Hmark, Hbig. apply Z.ltb_lt. }
  split.
  - intros Hle. assert (Hb : big env src = false).
    { rewrite Hbig. apply Z.ltb_ge. exact Hle. }
    split.
    + intros u Hd. rewrite Hr in Hd. cbn [snd] in Hd.
      assert (Hcase : exists task, In task tasks /\ big env (snd task) = true
                                   /\ f = image_file cfg env (fst pageConfig) task).
      { apply in_app_or in Hd as [Hd|Hd].
        - destruct (Hdl0 _ _ Hd) as [E|(task & Ht & Hbt & _ & E)].
          + apply media_file_path_inj in E as [E _]. discriminate E.
          + exists task. split; [apply Hsplit; now left|auto].
        - apply in_image_traces in Hd as (task & Ht & Hbt & _ & E).
          exists task. split; [apply Hsplit; right; now apply Hall|auto]. }
      destruct Hcase as ([j src'] & Ht & Hbt & E).
      apply media_file_path_inj in E as [_ E]. cbn [fst snd] in *. subst j.
      destruct (http_images_indices (images post) 0) as [_ Hnd].
      rewrite (NoDup_fst_inj tasks i src src' Hnd Hin Ht) in Hb. congruence.
    + intros s2. rewrite Hsettled. unfold image_pushed, image_trace.
      cbn [snd]. now rewrite Hb.
  - intros Hlt. assert (Hb : big env src = true).
    { rewrite Hbig. apply Z.ltb_lt. exact Hlt. }
    split.
    + rewrite Hr. cbn [fst snd].
      destruct (proj1 (Hsplit (i, src)) Hin) as [Hd|Hw].
      * destruct (proj2 (Hdone _ Hd Hb)) as [H|H].
        -- left. apply Hm'. now left.
        -- right. apply in_or_app. now left.
      * left. apply Hm'. right. exists (i, src).
        split; [now apply Hall|auto].
    + intros s2. rewrite Hsettled. unfold image_pushed, image_trace.
      cbn [snd]. now rewrite Hb.
Qed.


(** ** The theorems at work on the example worlds *)

Lemma failed_commit_loses_post_witness :
  sends (check_page the_cfg (failing_write (calm (Some post_100))) alpha
           empty_state).2 = []
  /\ storage (check_page the_cfg (failing_write (calm (Some post_100))) alpha
                empty_state).1.2 !! "alpha"
     = Some {| rec_url := Some "/alpha/posts/100";
               rec_timestamp := "2024-01-01T00:00:00.000Z" |}.
Proof.
  assert (Hn : exists c s1 t1,
             novel_extraction the_cfg (failing_write (calm (Some post_100)))
               "alpha" empty_state c s1 t1
             /\ record_of c = {| rec_url := Some "/alpha/posts/100";
                                 rec_timestamp := "2024-01-01T00:00:00.000Z" |}).
  { eexists _, _, _. split.
    - exists tt, post_100. repeat split; reflexivity.
    - reflexivity. }
  destruct Hn as (c & s1 & t1 & Hn & Hrec).
  destruct (failed_commit_loses_post the_cfg
              (failing_write (calm (Some post_100))) alpha empty_state
              c s1 t1 Hn) as (_ & Hs & Hr & _).
  { left. eexists. reflexivity. }
  split; [exact Hs|]. rewrite <- Hrec. exact Hr.
Defined.

Lemma image_size_filter_witness :
  heads gallery_check.2 = ["https://i/icon.png"; "https://i/photo.jpg"]
  /\ pending gallery_check.1.2 = []
  /\ In (EvDownload "https://i/photo.jpg"
           "/app/media/alpha_1704067200000_3.jpg") gallery_check.2
  /\ (forall u, ~ In (EvDownload u "/app/media/alpha_1704067200000_0.jpg")
                    gallery_check.2)
  /\ ("/app/media/alpha_1704067200000_3.jpg" ∈ media_files gallery_check.1.2
      \/ In (EvUnlink "/app/media/alpha_1704067200000_3.jpg") gallery_check.2).
Proof.
  assert (Hn : exists c s1 t1,
             novel_extraction the_cfg gallery "alpha" empty_state c s1 t1
             /\ embeddedLink c = None).
  { eexists _, _, _. split.
    - exists tt, gallery_post. repeat split; reflexivity.
    - reflexivity. }
  destruct Hn as (c & s1 & t1 & Hn & Hl).
  assert (Hcb : callbacks_hold the_cfg gallery "alpha").
  { apply callbacks_hold_intro; intros; [|eexists; reflexivity..].
    cbn [http_head gallery]. destruct (String.eqb _ _); eexists; reflexivity. }
  destruct (image_size_filter the_cfg gallery alpha empty_state c s1 t1
              gallery_post Hn eq_refl Hl eq_refl Hcb)
    as (_ & Hheads & Hpend & Himg).
  destruct (Himg 0%nat "https://i/icon.png" "512" eq_refl eq_refl eq_refl
              ltac:(discriminate) eq_refl) as (_ & _ & Hsmall & _).
  destruct (Himg 3%nat "https://i/photo.jpg" "4096" eq_refl eq_refl eq_refl
              ltac:(discriminate) eq_refl) as (_ & Hdl & _ & Hbig).
  split; [exact Hheads|]. split; [exact Hpend|].
  split; [apply Hdl; reflexivity|].
  split; [apply Hsmall; discriminate|].
  apply Hbig; reflexivity.
Defined.

Lemma monitoringLoop_turn_witness :
  (monitoringLoop (Num 1800000) (calm None)
     (check_all the_cfg [(alpha, calm (Some post_100)); (alpha, gallery)])
     empty_state).1.1 = Normal (Num 1800000)
  /\ sends (monitoringLoop (Num 1800000) (calm None)
              (check_all the_cfg
                 [(alpha, calm (Some post_100)); (alpha, gallery)])
              empty_state).2
     = [("alpha", Some "/alpha/posts/100", true);
        ("alpha", Some "/alpha/posts/500", true)].
Proof.
  destruct (monitoringLoop_turn (Num 1800000) (calm None)
              (check_all the_cfg
                 [(alpha, calm (Some post_100)); (alpha, gallery)])
              empty_state) as (_ & _ & _ & H).
  destruct (H eq_refl the_cfg
              [(alpha, calm (Some post_100)); (alpha, gallery)] eq_refl)
    as (Hr & _ & Hs).
  - intros pageConfig env [E|[E|[]]]; inversion E; subst;
      apply callbacks_hold_intro; intros; try (eexists; reflexivity).
    cbn [http_head gallery]. destruct (String.eqb _ _); eexists; reflexivity.
  - split; [exact Hr|]. rewrite Hs. reflexivity.
Defined.

Lemma monitorPage_never_throws_witness :
  (monitorPage the_cfg gallery alpha empty_state).1.1 = Normal tt
  /\ (monitorPage the_cfg (unknown_channel (calm (Some post_100))) alpha
        empty_state).1.1 = Normal tt.
Proof.
  split.
  - apply (proj1 (monitorPage_never_throws the_cfg gallery alpha empty_state)).
    apply callbacks_hold_intro; intros; try (eexists; reflexivity).
    cbn [http_head gallery]. destruct (String.eqb _ _); eexists; reflexivity.
  - apply (proj1 (monitorPage_never_throws the_cfg
                    (unknown_channel (calm (Some post_100))) alpha
                    empty_state)).
    apply callbacks_hold_intro; intros; eexists; reflexivity.
Defined.

Lemma data_file_follows_storage_witness :
  data_file (check_page the_cfg (calm (Some post_100)) alpha empty_state).1.2
  = Some {[ "alpha" := {| rec_url := Some "/alpha/posts/100";
                          rec_timestamp := "2024-01-01T00:00:00.000Z" |} ]}
  /\ data_file (check_page the_cfg (failing_write (calm (Some post_100))) alpha
                  {| storage := ∅; data_file := Some ∅; media_files := ∅;
                     pending := [] |}).1.2 = Some ∅
  /\ data_file (check_page the_cfg (full_disk (calm (Some post_100))) alpha
                  {| storage := ∅; data_file := Some ∅; media_files := ∅;
                     pending := [] |}).1.2 = None.
Proof.
  destruct (data_file_follows_storage the_cfg) as (Hown & Hcheck & _).
  split; [|split].
  - destruct (Hcheck (calm (Some post_100)) alpha empty_state)
      as (_ & Hok & _).
    erewrite Hok; [| |reflexivity].
    2:{ exists tt, post_100. repeat split; reflexivity. }
    apply (f_equal Some). apply map_eq. intros p. rewrite Hown.
    destruct (decide (p = "__proto__")) as [->|]; reflexivity.
  - destruct (Hcheck (failing_write (calm (Some post_100))) alpha
                {| storage := ∅; data_file := Some ∅; media_files := ∅;
                   pending := [] |}) as (_ & _ & Hbad).
    edestruct Hbad as (_ & Hf); [| |exact Hf].
    + exists tt, post_100. repeat split; reflexivity.
    + reflexivity.
  - destruct (Hcheck (full_disk (calm (Some post_100))) alpha
                {| storage := ∅; data_file := Some ∅; media_files := ∅;
                   pending := [] |}) as (_ & _ & Hbad).
    edestruct Hbad as (_ & Hf); [| |exact Hf].
    + exists tt, post_100. repeat split; reflexivity.
    + reflexivity.
Defined.

Lemma novel_post_is_delivered_witness :
  sends (check_page the_cfg (calm (Some post_100)) alpha empty_state).2
  = [("alpha", Some "/alpha/posts/100", true)].
Proof.
  assert (Hn : exists c s1 t1,
             novel_extraction the_cfg (calm (Some post_100)) "alpha"
               empty_state c s1 t1
             /\ content_url c = Some "/alpha/posts/100").
  { eexists _, _, _. split.
    - exists tt, post_100. repeat split; reflexivity.
    - reflexivity. }
  destruct Hn as (c & s1 & t1 & Hn & Hu).
  assert (Hcb : callbacks_hold the_cfg (calm (Some post_100)) "alpha").
  { apply callbacks_hold_intro; intros; eexists; reflexivity. }
  destruct (novel_post_is_delivered the_cfg (calm (Some post_100)) alpha
              empty_state c s1 t1 tt tt tt tt Hn Hcb eq_refl eq_refl eq_refl
              eq_refl) as (Hs & _).
  rewrite <- Hu. exact Hs.
Defined.

Lemma video_open_failure_aborts_check_witness :
  storage (check_page the_cfg
             (world (Some video_post) (Throw (Failure "ENOENT")) 4096
                (Normal tt)) alpha empty_state).1.2 = ∅
  /\ sends (check_page the_cfg
              (world (Some video_post) (Throw (Failure "ENOENT")) 4096
                 (Normal tt)) alpha empty_state).2 = [].
Proof.
  destruct (video_open_failure_aborts_check the_cfg
              (world (Some video_post) (Throw (Failure "ENOENT")) 4096
                 (Normal tt)) alpha empty_state video_post
              "https://v/1.mp4" tt (Failure "ENOENT"))
    as (_ & Hst & _ & Hs & _); try reflexivity; [discriminate|].
  split; [exact Hst|exact Hs].
Defined.

Lemma link_without_url_is_undefined_witness :
  extract_link bare_preview empty_state
  = (Normal (Some {| link_url := "undefined" |}), empty_state,
     [EvLog "URL extraction error"]).
Proof.
  apply (link_without_url_is_undefined bare_preview empty_state);
    reflexivity.
Defined.

Lemma wrapped_link_gives_target_witness :
  extract_link (wrapped_preview "https://example.org/a?b=1") empty_state
  = (Normal (Some {| link_url := "https://example.org/a?b=1" |}),
     empty_state, []).
Proof.
  apply (wrapped_link_gives_target
           (wrapped_preview "https://example.org/a?b=1")
           "https://example.org/a?b=1" empty_state); reflexivity.
Defined.

Lemma url_parameter_wins_witness :
  extractUrl "https://l.facebook.com/l.php?u=a&url=https%3A%2F%2Fb.example"
  = "https://b.example"
  /\ extractUrl "https://l.facebook.com/l.php?u=%25zz&url=https%3A%2F%2Fb.example"
     = "https://l.facebook.com/l.php?u=%25zz&url=https%3A%2F%2Fb.example".
Proof.
  split.
  - apply (proj1 (url_parameter_wins "a" "https%3A%2F%2Fb.example"
                    eq_refl eq_refl eq_refl eq_refl eq_refl eq_refl) "a");
      reflexivity.
  - apply (proj2 (url_parameter_wins "%25zz" "https%3A%2F%2Fb.example"
                    eq_refl eq_refl eq_refl eq_refl eq_refl eq_refl)
             URIError).
    reflexivity.
Defined.

Lemma downloadMedia_keeps_its_file_witness :
  (downloadMedia the_cfg (calm None) "alpha" "https://v/1.mp4" video 0
     empty_state).1.1
  = Normal (Some "/app/media/alpha_1704067200000_0.mp4")
  /\ media_files
       (downloadMedia the_cfg (calm None) "alpha" "https://v/1.mp4" video 0
          empty_state).1.2
     = {["/app/media/alpha_1704067200000_0.mp4"]} ∪ ∅.
Proof.
  destruct (downloadMedia_keeps_its_file the_cfg (calm None) "alpha"
              "https://v/1.mp4" video 0 empty_state tt eq_refl)
    as (Hm & _ & _ & _ & _ & Hr & _).
  split; [exact (Hr tt eq_refl)|exact Hm].
Defined.

Lemma media_files_do_not_collide_witness :
  String.eqb (media_file_path the_cfg (calm None) "alpha" image 1)
    (media_file_path the_cfg (calm None) "alpha" image 2) = false
  /\ String.eqb (media_file_path the_cfg (calm None) "alpha" video 0)
       (media_file_path the_cfg (calm None) "alpha" image 0) = false
  /\ String.eqb (media_file_path the_cfg (calm None) "alpha" image 12)
       (media_file_path the_cfg (calm None) "alpha_1" image 2) = false.
Proof.
  split; [|split].
  - destruct (String.eqb_spec
                (media_file_path the_cfg (calm None) "alpha" image 1)
                (media_file_path the_cfg (calm None) "alpha" image 2))
      as [E|_]; [|reflexivity].
    destruct (media_files_do_not_collide the_cfg (calm None) "alpha" "alpha"
                image image 1 2 eq_refl eq_refl E) as [_ H].
    discriminate H.
  - destruct (String.eqb_spec
                (media_file_path the_cfg (calm None) "alpha" video 0)
                (media_file_path the_cfg (calm None) "alpha" image 0))
      as [E|_]; [|reflexivity].
    destruct (media_files_do_not_collide the_cfg (calm None) "alpha" "alpha"
                video image 0 0 eq_refl eq_refl E) as [H _].
    discriminate H.
  - destruct (String.eqb_spec
                (media_file_path the_cfg (calm None) "alpha" image 12)
                (media_file_path the_cfg (calm None) "alpha_1" image 2))
      as [E|_]; [|reflexivity].
    destruct (media_files_do_not_collide the_cfg (calm None) "alpha"
                "alpha_1" image image 12 2 eq_refl eq_refl E) as [_ H].
    discriminate H.
Defined.

Lemma cleanup_follows_send_witness :
  exists files s' before after,
    sendDiscordMessage (calm None) alpha two_media empty_state
    = (Normal tt, s',
       before ++ EvSend "alpha" "1234567890" (Some "/alpha/posts/200")
                   (message_text "alpha" two_media) files true :: after)
    /\ unlinks after = files.
Proof.
  destruct (cleanup_follows_send (calm None) alpha two_media empty_state
              tt tt eq_refl eq_refl)
    as (files & s' & before & after & E & _ & _ & _ & _ & Hu & _).
  exists files, s', before, after. split; [exact E|exact Hu].
Defined.

Lemma parseCheckInterval_reads_first_field_witness :
  parseCheckInterval "*/5 * * * *" = Normal (Num 300000)
  /\ parseCheckInterval "*/5 9-17 * * 1-5" = parseCheckInterval "*/5".
Proof.
  split.
  - apply (proj1 (proj2 (proj2 (parseCheckInterval_reads_first_field
                                  "*/5" "* * * *" eq_refl))) "5");
      [reflexivity|discriminate|reflexivity|vm_compute; discriminate].
  - apply (proj1 (parseCheckInterval_reads_first_field
                    "*/5" "9-17 * * 1-5" eq_refl)).
Defined.

Lemma images_are_not_awaited_witness :
  exists c s1 t1,
    novel_extraction the_cfg (calm (Some video_post)) "alpha" empty_state
      c s1 t1
    /\ (length (media c) <= 1)%nat
    /\ exists post,
        page_source (calm (Some video_post)) (page_url the_cfg "alpha")
        = Normal (Some post)
        /\ pending s1 = pending empty_state ++ http_images 0 (images post).
Proof.
  assert (Hn : exists c s1 t1,
             novel_extraction the_cfg (calm (Some video_post)) "alpha"
               empty_state c s1 t1
             /\ embeddedLink c = None).
  { eexists _, _, _. split.
    - exists tt, video_post. repeat split; reflexivity.
    - reflexivity. }
  destruct Hn as (c & s1 & t1 & Hn & Hl).
  destruct (images_are_not_awaited the_cfg (calm (Some video_post)) alpha
              empty_state c s1 t1 Hn) as (_ & Hlen & _ & Hp & _).
  exists c, s1, t1. split; [exact Hn|]. split; [exact Hlen|exact (Hp Hl)].
Defined.

Lemma unknown_channel_loses_post_witness :
  sends (check_page the_cfg (unknown_channel (calm (Some post_100))) alpha
           empty_state).2 = []
  /\ storage (check_page the_cfg (unknown_channel (calm (Some post_100)))
                alpha empty_state).1.2 !! "alpha"
     = Some {| rec_url := Some "/alpha/posts/100";
               rec_timestamp := "2024-01-01T00:00:00.000Z" |}.
Proof.
  assert (Hn : exists c s1 t1,
             novel_extraction the_cfg (unknown_channel (calm (Some post_100)))
               "alpha" empty_state c s1 t1
             /\ record_of c = {| rec_url := Some "/alpha/posts/100";
                                 rec_timestamp := "2024-01-01T00:00:00.000Z" |}).
  { eexists _, _, _. split.
    - exists tt, post_100. repeat split; reflexivity.
    - reflexivity. }
  destruct Hn as (c & s1 & t1 & Hn & Hrec).
  destruct (unknown_channel_loses_post the_cfg
              (unknown_channel (calm (Some post_100))) alpha empty_state
              c s1 t1 tt tt (Failure "Unknown Channel") Hn eq_refl eq_refl
              eq_refl) as (Hs & _ & Hr & _).
  split; [exact Hs|]. rewrite <- Hrec. exact Hr.
Defined.
